(** * libRSF: the time-indexed data set and the IV19 GNSS driver

    A shallow embedding of [include/DataSet.h] and of
    [applications/IV19_GNSS.cpp].

    Conventions of the embedding.
    - A timestamp is a C++ [double].  Every finite double is an integer
      multiple of 2^-1074, so the finite doubles with their order and
      their equality embed into [Z] (time counted in that unit).  NaN and
      the infinities are left out, and -0.0 is identified with 0.0.  The
      difference of two timestamps is rounded as binary64 rounds it
      ([double_sub]).  Residuals, standard deviations and weights are
      binary64 values ([PrimFloat.float]) with IEEE arithmetic.
    - A [std::multimap<double, ObjectType>] is the list of its entries in
      iteration order; an iterator is a position in that list, [end()]
      being the length.
    - A C++ [int] is a [Z]; the conversion from [size_t] wraps
      ([int_of_size_t]).
    - A call either completes, throws [std::out_of_range] (from
      [std::map::at] or [std::vector::at]) or has undefined behaviour (an
      iterator moved outside [begin(), end()], or read at [end()]).
    - A [bool] result with a reference output parameter is an [option]:
      [Some v] for [true] with the output set to [v], [None] for [false]
      with the output left alone.
    - A member that returns a [bool] and appends to a vector passed by
      reference is the pair of the flag and the vector afterwards.
    - A loop is unrolled a bounded number of times ([fuel]); a model of
      a loop is [None] when the unrolling is used up before the loop is
      left.
    - The iteration order of [std::map<KeyType, DataStream>] is that of
      [std::less<KeyType>], a parameter ([key_le]) of the members that
      iterate over the keys.
    - [PRINT_ERROR] and [PRINT_WARNING] only write to the log; they are
      not part of the model. *)

From Stdlib Require Import ZArith List Bool Lia PrimFloat Uint63 Floats.
From stdpp Require Import gmap strings list sorting.

Local Open Scope Z_scope.

(* Decimal literals denote the closest double, as in C++. *)
Set Warnings "-inexact-float".

(** ** Outcome of a call *)

Inductive result (A : Type) : Type :=
| Ok (a : A)
| Throw
| Undefined.

Arguments Ok {A} a.
Arguments Throw {A}.
Arguments Undefined {A}.

#[global] Instance result_ret : MRet result := @Ok.

#[global] Instance result_bind : MBind result := λ A B f r,
  match r with
  | Ok a => f a
  | Throw => Throw
  | Undefined => Undefined
  end.

(** [static_cast<int>] of a [size_t]: two's complement wrap to 32 bits. *)
Definition int_of_size_t (n : nat) : Z :=
  (Z.of_nat n + 2 ^ 31) mod 2 ^ 32 - 2 ^ 31.

(** ** Differences of timestamps

    In the unit 2^-1074 every integer of magnitude below 2^53 is a double,
    and a greater one is a double when it is a multiple of 2^s, [s] being
    the number of its bits beyond 53.  [rounded_magnitude] rounds a
    non-negative integer to the nearest such multiple, and to the one
    with an even quotient when two are equally near. *)
Definition rounded_magnitude (a : Z) : Z :=
  let s := Z.log2 a - 52 in
  if s <=? 0 then a
  else
    let q := a / 2 ^ s in
    let r := a mod 2 ^ s in
    let half := 2 ^ (s - 1) in
    (if (r <? half) || ((r =? half) && Z.even q) then q else q + 1) * 2 ^ s.

(** A rounded magnitude of 2^2098 (2^1024 seconds) or more is an
    infinity; 2^2098, which is above every finite double, stands for it,
    so that the comparisons of rounded values come out as in binary64. *)
Definition double_round (d : Z) : Z :=
  Z.sgn d * Z.min (rounded_magnitude (Z.abs d)) (2 ^ 2098).

(** [x - y] on doubles. *)
Definition double_sub (x y : Z) : Z := double_round (x - y).

(** ** [std::multimap<double, ObjectType>] *)

Section DataStream.
Context {ObjectType : Type}.

Abbreviation DataStream := (list (Z * ObjectType)).

(** Entries in key order: the class invariant of [std::multimap]. *)
Fixpoint chronological (s : DataStream) : bool :=
  match s with
  | [] => true
  | e :: s' => forallb (λ e', e.1 <=? e'.1) s' && chronological s'
  end.

(** [lower_bound(k)]: the first entry whose key is not less than [k]. *)
Fixpoint lower_bound (s : DataStream) (k : Z) : nat :=
  match s with
  | [] => 0%nat
  | e :: s' => if e.1 <? k then S (lower_bound s' k) else 0%nat
  end.

(** [upper_bound(k)]: the first entry whose key is greater than [k]. *)
Fixpoint upper_bound (s : DataStream) (k : Z) : nat :=
  match s with
  | [] => 0%nat
  | e :: s' => if e.1 <=? k then S (upper_bound s' k) else 0%nat
  end.

(** [find(k)]: the lower bound when its key is equivalent to [k], else
    [end()].  The standard allows any entry of the equal range; libstdc++,
    libc++ and the MSVC library all return the first one, which
    [getElement] relies on. *)
Definition find (s : DataStream) (k : Z) : nat :=
  let j := lower_bound s k in
  match s !! j with
  | Some e => if k <? e.1 then length s else j
  | None => length s
  end.

(** [count(k)]: the number of entries whose key is equivalent to [k]. *)
Definition count (s : DataStream) (k : Z) : nat :=
  length (filter (λ e, e.1 = k) s).

(** [emplace(k, o)]: a new entry goes to the upper bound of its key
    (C++11: at the end of the range of equivalent keys). *)
Fixpoint emplace (s : DataStream) (k : Z) (o : ObjectType) : DataStream :=
  match s with
  | [] => [(k, o)]
  | e :: s' => if e.1 <=? k then e :: emplace s' k o else (k, o) :: e :: s'
  end.

(** [erase(It)] is [delete It s]; [erase(k)] drops the whole equal range. *)
Definition erase_key (s : DataStream) (k : Z) : DataStream :=
  filter (λ e, e.1 ≠ k) s.

(** [std::advance(It, n)] on a bidirectional iterator; leaving
    [begin(), end()] is undefined. *)
Definition advance (s : DataStream) (It : nat) (n : Z) : result nat :=
  let j := Z.of_nat It + n in
  if (0 <=? j) && (j <=? Z.of_nat (length s)) then Ok (Z.to_nat j) else Undefined.

(** [It->first] as a partial read, and as the C++ expression. *)
Definition key_at (s : DataStream) (It : nat) : option Z :=
  fst <$> s !! It.

Definition first (s : DataStream) (It : nat) : result Z :=
  match key_at s It with
  | Some k => Ok k
  | None => Undefined
  end.

End DataStream.

(** ** [DataSet<KeyType, ObjectType>] *)

Section DataSet.
Context {KeyType : Type} `{Countable KeyType} {ObjectType : Type}.

Abbreviation DataStream := (list (Z * ObjectType)).

Record DataSet : Type := mkDataSet {
  _DataStreams : gmap KeyType DataStream;
  NullObject : ObjectType  (* "for empty references" *)
}.

(** The default-constructed data set, its [NullObject] being the
    default-constructed object [o]. *)
Definition DataSet_default (o : ObjectType) : DataSet :=
  {| _DataStreams := ∅; NullObject := o |}.

(** Every stream is a valid multimap, and no key maps to an empty stream
    ([removeElement] erases a key with its last entry). *)
Definition wf (ds : DataSet) : Prop :=
  map_Forall (λ _ s, chronological s = true ∧ s ≠ []) (_DataStreams ds).

(** [_DataStreams.at(ID)] *)
Definition map_at (ds : DataSet) (ID : KeyType) : result DataStream :=
  match _DataStreams ds !! ID with
  | Some s => Ok s
  | None => Throw
  end.

Definition checkID (ds : DataSet) (ID : KeyType) : bool :=
  bool_decide (is_Some (_DataStreams ds !! ID)).

Definition addElement (ds : DataSet) (ID : KeyType) (Timestamp : Z)
    (Object : ObjectType) : DataSet :=
  let streams :=
    if checkID ds ID then _DataStreams ds else <[ID := []]> (_DataStreams ds) in
  {| _DataStreams := <[ID := emplace (default [] (streams !! ID)) Timestamp Object]> streams;
     NullObject := NullObject ds |}.

(** [countElement] and [countElements] return [int]: the [size_t] of
    [count] and [size] is converted.  The test [checkID] and the access
    [_DataStreams.at(ID)] that follows it are one lookup here. *)
Definition countElement (ds : DataSet) (ID : KeyType) (Timestamp : Z) : Z :=
  match _DataStreams ds !! ID with
  | None => 0
  | Some s => int_of_size_t (count s Timestamp)
  end.

Definition countElements (ds : DataSet) (ID : KeyType) : Z :=
  match _DataStreams ds !! ID with
  | None => 0
  | Some s => int_of_size_t (length s)
  end.

Definition checkElement (ds : DataSet) (ID : KeyType) (Timestamp : Z)
    (Number : Z) : bool :=
  countElement ds ID Timestamp >? Number.

(** Erase the key of a stream that became empty. *)
Definition erase_empty (streams : gmap KeyType DataStream) (ID : KeyType)
    (s : DataStream) : gmap KeyType DataStream :=
  match s with
  | [] => delete ID streams
  | _ => <[ID := s]> streams
  end.

(** [removeElement(ID, Timestamp, Number)] *)
Definition removeElement (ds : DataSet) (ID : KeyType) (Timestamp : Z)
    (Number : Z) : result DataSet :=
  if checkElement ds ID Timestamp Number then
    s ← map_at ds ID;
    It ← advance s (find s Timestamp) Number;
    if bool_decide (It < length s)%nat then
      Ok {| _DataStreams := erase_empty (_DataStreams ds) ID (delete It s);
            NullObject := NullObject ds |}
    else Undefined
  else Ok ds.

(** [removeElement(ID, Timestamp)] *)
Definition removeElement_all (ds : DataSet) (ID : KeyType) (Timestamp : Z)
    : result DataSet :=
  if checkElement ds ID Timestamp 0 then
    s ← map_at ds ID;
    Ok {| _DataStreams := erase_empty (_DataStreams ds) ID (erase_key s Timestamp);
          NullObject := NullObject ds |}
  else Ok ds.

(** *** References to stored objects

    [getElement] returns [ObjectType &]: either the object of a stream
    entry or the data set's own [NullObject]. *)
Inductive Ref : Type :=
| Stored (ID : KeyType) (It : nat)
| Null.

Definition deref (ds : DataSet) (r : Ref) : option ObjectType :=
  match r with
  | Stored ID It => s ← _DataStreams ds !! ID; snd <$> s !! It
  | Null => Some (NullObject ds)
  end.

(** Assignment through a reference, as in [getElement(...).setMean(...)]. *)
Definition assign (ds : DataSet) (r : Ref) (f : ObjectType → ObjectType) : DataSet :=
  match r with
  | Stored ID It =>
      {| _DataStreams := alter (alter (λ e, (e.1, f e.2)) It) ID (_DataStreams ds);
         NullObject := NullObject ds |}
  | Null => {| _DataStreams := _DataStreams ds; NullObject := f (NullObject ds) |}
  end.

(** [ObjectType &getElement(ID, Timestamp, Number = 0)] *)
Definition getElement (ds : DataSet) (ID : KeyType) (Timestamp : Z)
    (Number : Z) : result Ref :=
  if checkElement ds ID Timestamp Number then
    s ← map_at ds ID;
    It ← advance s (find s Timestamp) Number;
    if bool_decide (It < length s)%nat then Ok (Stored ID It) else Undefined
  else Ok Null.

(** [bool getElement(ID, Timestamp, Number, Element &) const]: the result
    pairs the returned flag with the value of [Element] afterwards. *)
Definition getElement_copy (ds : DataSet) (ID : KeyType) (Timestamp : Z)
    (Number : Z) (Element : ObjectType) : result (bool * ObjectType) :=
  if checkElement ds ID Timestamp Number then
    s ← map_at ds ID;
    It ← advance s (find s Timestamp) Number;
    match s !! It with
    | Some e => Ok (true, e.2)
    | None => Undefined
    end
  else Ok (false, Element).

(** [getElements(ID, Timestamp)]: the objects of the equal range. *)
Definition getElements (ds : DataSet) (ID : KeyType) (Timestamp : Z)
    : list ObjectType :=
  match _DataStreams ds !! ID with
  | None => []
  | Some s =>
      snd <$> take (upper_bound s Timestamp - lower_bound s Timestamp)
                   (drop (lower_bound s Timestamp) s)
  end.

(** *** Temporal queries *)

(** [begin()->first]; on an empty stream the read is undefined. *)
Definition getTimeFirst (ds : DataSet) (ID : KeyType) : result (option Z) :=
  match _DataStreams ds !! ID with
  | Some s => Timestamp ← first s 0; Ok (Some Timestamp)
  | None => Ok None
  end.

(** [std::prev(end())->first] *)
Definition getTimeLast (ds : DataSet) (ID : KeyType) : result (option Z) :=
  match _DataStreams ds !! ID with
  | Some s =>
      It ← advance s (length s) (-1);
      Timestamp ← first s It;
      Ok (Some Timestamp)
  | None => Ok None
  end.

Definition getTimeNext (ds : DataSet) (ID : KeyType) (Timestamp : Z)
    : result (option Z) :=
  if checkElement ds ID Timestamp 0 then
    s ← map_at ds ID;
    let It := upper_bound s Timestamp in
    if bool_decide (It ≠ length s) then
      NextTimeStamp ← first s It;
      Ok (Some NextTimeStamp)
    else Ok None
  else Ok None.

Definition getTimePrev (ds : DataSet) (ID : KeyType) (Timestamp : Z)
    : result (option Z) :=
  let NextElements := countElement ds ID Timestamp in
  if NextElements >? 0 then
    s ← map_at ds ID;
    It ← advance s (find s Timestamp) (- (NextElements - 1));
    if bool_decide (It ≠ 0%nat) then
      It ← advance s It (-1);
      PrevTimeStamp ← first s It;
      Ok (Some PrevTimeStamp)
    else Ok None
  else Ok None.

Definition getTimeCloseTo (ds : DataSet) (ID : KeyType) (Timestamp : Z)
    : result (option Z) :=
  if negb (checkID ds ID) then Ok None
  else
    s ← map_at ds ID;
    let It := lower_bound s Timestamp in
    It_first ← first s It;   (* read before [It] is compared with [end()] *)
    if bool_decide (It_first = Timestamp) then
      Ok (Some It_first)
    else if bool_decide (It = length s) && bool_decide (It ≠ 0%nat) then
      It ← advance s It (-1);
      TimestampClose ← first s It;
      Ok (Some TimestampClose)
    else if bool_decide (It ≠ length s) && bool_decide (It = 0%nat) then
      Ok (Some It_first)
    else if bool_decide (It ≠ length s) && bool_decide (It ≠ 0%nat) then
      r ← getTimePrev ds ID It_first;
      match r with
      | Some TimeBelow =>
          if double_sub It_first Timestamp <=? double_sub Timestamp TimeBelow
          then Ok (Some It_first)
          else Ok (Some TimeBelow)
      | None => Ok None
      end
    else Ok None.

End DataSet.

Arguments DataSet KeyType {_ _} ObjectType.
Arguments Ref KeyType : clear implicits.
Arguments Null {KeyType}.

(** Observations used to state the properties of the data set. *)
Section Observations.
Context {KeyType : Type} `{Countable KeyType} {ObjectType : Type}.

(** The objects stored under [ID] at [Timestamp], in iteration order. *)
Definition elements_at (ds : DataSet KeyType ObjectType) (ID : KeyType)
    (Timestamp : Z) : list ObjectType :=
  match _DataStreams ds !! ID with
  | Some s => (filter (λ e, e.1 = Timestamp) s).*2
  | None => []
  end.

(** A sequence of [addElement] calls, and the objects it inserts at one
    key and timestamp, in call order. *)
Definition add_all (ds : DataSet KeyType ObjectType)
    (ops : list (KeyType * Z * ObjectType)) : DataSet KeyType ObjectType :=
  foldl (λ ds op, addElement ds op.1.1 op.1.2 op.2) ds ops.

Definition inserted_at (ops : list (KeyType * Z * ObjectType)) (ID : KeyType)
    (Timestamp : Z) : list ObjectType :=
  (filter (λ op, op.1.1 = ID ∧ op.1.2 = Timestamp) ops).*2.

(** The object a reference returned by [getElement] designates. *)
Definition getElement_value (ds : DataSet KeyType ObjectType) (ID : KeyType)
    (Timestamp : Z) (Number : Z) : result ObjectType :=
  r ← getElement ds ID Timestamp Number;
  match deref ds r with
  | Some o => Ok o
  | None => Undefined
  end.

(** Stored entries later than [t]: what a loop over [getTimeNext] has
    left to visit. *)
Definition remaining (s : list (Z * ObjectType)) (t : Z) : nat :=
  length (filter (λ e, t < e.1) s).

End Observations.

(** ** [DataSet]: the members the driver does not call *)

(** [DataSet::UniqueID], with its [operator ==]. *)
Module UniqueID.
Record t (KeyType : Type) : Type := mk {
  ID : KeyType;
  Timestamp : Z;
  Number : Z
}.
Arguments mk {KeyType} ID Timestamp Number.
Arguments ID {KeyType} _.
Arguments Timestamp {KeyType} _.
Arguments Number {KeyType} _.

Definition eqb {KeyType : Type} `{EqDecision KeyType} (a b : t KeyType) : bool :=
  bool_decide (ID a = ID b) && bool_decide (Timestamp a = Timestamp b)
  && bool_decide (Number a = Number b).
End UniqueID.

(** A loop whose model is unrolled a bounded number of times ends in
    [None] when the unrolling is used up, in [Some r] when the loop was
    left with the outcome [r]. *)
Definition loop_bind {A B : Type} (r : result A) (k : A → option (result B))
    : option (result B) :=
  match r with
  | Ok a => k a
  | Throw => Some Throw
  | Undefined => Some Undefined
  end.

Definition loop_then {A B : Type} (l : option (result A)) (f : A → B)
    : option (result B) :=
  match l with
  | Some (Ok a) => Some (Ok (f a))
  | Some Throw => Some Throw
  | Some Undefined => Some Undefined
  | None => None
  end.

Section DataSetMembers.
Context {KeyType : Type} `{Countable KeyType} {ObjectType : Type}.
Implicit Types (ds : DataSet KeyType ObjectType) (ID : KeyType).

(** [clear()] empties the map of streams; [NullObject] is a member of its
    own and stays. *)
Definition clear ds : DataSet KeyType ObjectType :=
  {| _DataStreams := ∅; NullObject := NullObject ds |}.

(** [empty()] *)
Definition DataSet_empty ds : bool :=
  bool_decide (size (_DataStreams ds) = 0%nat).

(** [setElement(ID, Timestamp, Number, Element)]: the flag returned and
    the data set afterwards. *)
Definition setElement ds ID (Timestamp : Z) (Number : Z) (Element : ObjectType)
    : result (bool * DataSet KeyType ObjectType) :=
  if checkElement ds ID Timestamp Number then
    s ← map_at ds ID;
    It ← advance s (find s Timestamp) Number;
    if bool_decide (It < length s)%nat
    then Ok (true, assign ds (Stored ID It) (λ _, Element))
    else Undefined
  else Ok (false, ds).

Definition getTimeAboveOrEqual ds ID (TimeIn : Z) : result (option Z) :=
  if negb (checkID ds ID) then Ok None
  else
    s ← map_at ds ID;
    let It := lower_bound s TimeIn in
    if bool_decide (It ≠ length s) then
      TimeOut ← first s It;
      Ok (Some TimeOut)
    else Ok None.

Definition getTimeAbove ds ID (Timestamp : Z) : result (option Z) :=
  if negb (checkID ds ID) then Ok None
  else
    s ← map_at ds ID;
    let It := upper_bound s Timestamp in
    if bool_decide (It ≠ length s) then
      NextTimeStamp ← first s It;
      Ok (Some NextTimeStamp)
    else Ok None.

Definition getTimeBelow ds ID (TimeIn : Z) : result (option Z) :=
  if negb (checkID ds ID) then Ok None
  else
    s ← map_at ds ID;
    let It := lower_bound s TimeIn in
    if bool_decide (It ≠ 0%nat) then
      It ← advance s It (-1);
      TimeOut ← first s It;
      Ok (Some TimeOut)
    else Ok None.

(** In [It != end() && It->first == TimeIn] the read is guarded by the
    comparison with [end()]. *)
Definition getTimeBelowOrEqual ds ID (TimeIn : Z) : result (option Z) :=
  if negb (checkID ds ID) then Ok None
  else
    s ← map_at ds ID;
    let It := lower_bound s TimeIn in
    if bool_decide (It ≠ length s) || bool_decide (It ≠ 0%nat) then
      equal ← (if bool_decide (It ≠ length s)
               then It_first ← first s It; Ok (bool_decide (It_first = TimeIn))
               else Ok false);
      if equal : bool then
        TimeOut ← first s It;
        Ok (Some TimeOut)
      else if bool_decide (It ≠ 0%nat) then
        It ← advance s It (-1);
        TimeOut ← first s It;
        Ok (Some TimeOut)
      else Ok None
    else Ok None.

(** [countTimes] returns the [size()] of the stream, as [countElements]
    does. *)
Definition countTimes ds ID : Z :=
  match _DataStreams ds !! ID with
  | None => 0
  | Some s => int_of_size_t (length s)
  end.

Definition getElementsOfID ds ID : list ObjectType :=
  match _DataStreams ds !! ID with
  | None => []
  | Some s => s.*2
  end.

(** The borders are paired with the flag: [None] stands for [false], after
    which the callers do not read [StartTrue] and [EndTrue]. *)
Definition _FindBordersEqual ds ID (Start End : Z) : result (option (Z * Z)) :=
  if Start >? End then Ok None
  else
    StartTrue ← getTimeAboveOrEqual ds ID Start;
    match StartTrue with
    | None => Ok None
    | Some StartTrue =>
        EndTrue ← getTimeBelowOrEqual ds ID End;
        match EndTrue with
        | None => Ok None
        | Some EndTrue => Ok (Some (StartTrue, EndTrue))
        end
    end.

Definition _FindBorders ds ID (Start End : Z) : result (option (Z * Z)) :=
  if Start >? End then Ok None
  else
    StartTrue ← getTimeAbove ds ID Start;
    match StartTrue with
    | None => Ok None
    | Some StartTrue =>
        EndTrue ← getTimeBelow ds ID End;
        match EndTrue with
        | None => Ok None
        | Some EndTrue => Ok (Some (StartTrue, EndTrue))
        end
    end.

(** The [do ... while] loop of [getElementsBetween]. *)
Fixpoint getElementsBetween_loop (fuel : nat) ds ID (Time TimeLast : Z)
    (Objects : list ObjectType) : option (result (list ObjectType)) :=
  match fuel with
  | O => None
  | S fuel =>
      let Objects := Objects ++ getElements ds ID Time in
      if bool_decide (Time = TimeLast) then Some (Ok Objects)
      else
        loop_bind (getTimeNext ds ID Time) (λ next,
          match next with
          | Some Time => getElementsBetween_loop fuel ds ID Time TimeLast Objects
          | None => Some (Ok Objects)
          end)
  end.

Definition getElementsBetween (fuel : nat) ds ID (TimeBegin TimeEnd : Z)
    : option (result (list ObjectType)) :=
  if bool_decide (TimeBegin = TimeEnd) then Some (Ok (getElements ds ID TimeBegin))
  else if checkID ds ID then
    loop_bind (getTimeBelowOrEqual ds ID TimeEnd) (λ TimeLast,
      match TimeLast with
      | None => Some (Ok [])
      | Some TimeLast =>
          loop_bind (getTimeAboveOrEqual ds ID TimeBegin) (λ TimeFirst,
            match TimeFirst with
            | None => Some (Ok [])
            | Some TimeFirst =>
                if TimeFirst >? TimeLast then Some (Ok [])
                else getElementsBetween_loop fuel ds ID TimeFirst TimeLast []
            end)
      end)
  else Some (Ok []).

(** The loop over the timestamps of a stream,
    [for (it = begin(); it != end(); it = upper_bound(it->first))], with
    the identifiers [getUniqueIDs] appends at each of them. *)
Fixpoint getUniqueIDs_loop (fuel : nat) ds ID (StreamRef : list (Z * ObjectType))
    (it : nat) (IDs : list (UniqueID.t KeyType))
    : option (result (list (UniqueID.t KeyType))) :=
  match fuel with
  | O => None
  | S fuel =>
      if bool_decide (it ≠ length StreamRef) then
        loop_bind (first StreamRef it) (λ it_first,
          let IDs :=
            IDs ++ (UniqueID.mk ID it_first <$> seqZ 0 (countElement ds ID it_first)) in
          getUniqueIDs_loop fuel ds ID StreamRef (upper_bound StreamRef it_first) IDs)
      else Some (Ok IDs)
  end.

(** The results of [getUniqueIDs] and of the [getTimes...] members pair
    the flag returned with the vector afterwards. *)
Definition getUniqueIDs (fuel : nat) ds ID (IDs : list (UniqueID.t KeyType))
    : option (result (bool * list (UniqueID.t KeyType))) :=
  match _DataStreams ds !! ID with
  | Some StreamRef =>
      loop_then (getUniqueIDs_loop fuel ds ID StreamRef 0 IDs) (λ IDs, (true, IDs))
  | None => Some (Ok (false, IDs))
  end.

Fixpoint getTimesOfID_loop (fuel : nat) (StreamRef : list (Z * ObjectType))
    (it : nat) (Times : list Z) : option (result (list Z)) :=
  match fuel with
  | O => None
  | S fuel =>
      if bool_decide (it ≠ length StreamRef) then
        loop_bind (first StreamRef it) (λ it_first,
          getTimesOfID_loop fuel StreamRef (upper_bound StreamRef it_first)
            (Times ++ [it_first]))
      else Some (Ok Times)
  end.

Definition getTimesOfID (fuel : nat) ds ID (Times : list Z)
    : option (result (bool * list Z)) :=
  match _DataStreams ds !! ID with
  | Some StreamRef =>
      loop_then (getTimesOfID_loop fuel StreamRef 0 Times) (λ Times, (true, Times))
  | None => Some (Ok (false, Times))
  end.

(** [while (Current <= End) { ...; if (!getTimeNext(...)) break; }] *)
Fixpoint getTimesBetween_loop (fuel : nat) ds ID (Current End : Z)
    (Times : list Z) : option (result (list Z)) :=
  match fuel with
  | O => None
  | S fuel =>
      if Current <=? End then
        let Times := Times ++ [Current] in
        loop_bind (getTimeNext ds ID Current) (λ next,
          match next with
          | Some Current => getTimesBetween_loop fuel ds ID Current End Times
          | None => Some (Ok Times)
          end)
      else Some (Ok Times)
  end.

Definition getTimesBetween (fuel : nat) ds ID (StartTime EndTime : Z)
    (Times : list Z) : option (result (bool * list Z)) :=
  if checkID ds ID then
    loop_bind (_FindBordersEqual ds ID StartTime EndTime) (λ borders,
      match borders with
      | Some (Start, End) =>
          loop_then (getTimesBetween_loop fuel ds ID Start End Times)
            (λ Times, (true, Times))
      | None => Some (Ok (false, Times))
      end)
  else Some (Ok (false, Times)).

(** [while (Current <= End && HasNext) { ...; HasNext = getTimeNext(...); }] *)
Fixpoint getTimesBelowOrEqual_loop (fuel : nat) ds ID (Current End : Z)
    (HasNext : bool) (Times : list Z) : option (result (list Z)) :=
  match fuel with
  | O => None
  | S fuel =>
      if (Current <=? End) && HasNext then
        let Times := Times ++ [Current] in
        loop_bind (getTimeNext ds ID Current) (λ next,
          match next with
          | Some Current =>
              getTimesBelowOrEqual_loop fuel ds ID Current End true Times
          | None =>
              getTimesBelowOrEqual_loop fuel ds ID Current End false Times
          end)
      else Some (Ok Times)
  end.

Definition getTimesBelowOrEqual (fuel : nat) ds ID (EndTime : Z)
    (Times : list Z) : option (result (bool * list Z)) :=
  loop_bind (getTimeFirst ds ID) (λ Start,
    match Start with
    | Some Start =>
        loop_bind (getTimeBelowOrEqual ds ID EndTime) (λ End,
          match End with
          | Some End =>
              loop_then
                (getTimesBelowOrEqual_loop fuel ds ID Start End true Times)
                (λ Times, (true, Times))
          | None => Some (Ok (false, Times))
          end)
    | None => Some (Ok (false, Times))
    end).

End DataSetMembers.

(** *** Members that iterate over the map of streams

    [std::map] iterates in the order of [std::less<KeyType>]; [key_le a b]
    stands for [!(b < a)]. *)
Section KeyOrder.
Context {KeyType : Type} `{Countable KeyType} {ObjectType : Type}.
Context (key_le : relation KeyType) `{!RelDecision key_le}.
Implicit Types (ds : DataSet KeyType ObjectType) (ID : KeyType).

(** The order of the entries of the map: that of their keys. *)
Definition entry_le : relation (KeyType * list (Z * ObjectType)) :=
  λ a b, key_le a.1 b.1.

#[global] Instance entry_le_dec : RelDecision entry_le :=
  λ a b, decide_rel key_le a.1 b.1.

(** The range [begin(), end()) of the data set. *)
Definition begin_end ds : list (KeyType * list (Z * ObjectType)) :=
  merge_sort entry_le (map_to_list (_DataStreams ds)).

Definition getKeysAll ds : list KeyType := (begin_end ds).*1.

Definition getKeysAtTime ds (Timestamp : Z) : list KeyType :=
  filter (λ Key, checkElement ds Key Timestamp 0 = true) (getKeysAll ds).

(** The local [Timestamp] is set to NaN before the loop: [None] stands
    for NaN in the second component of the state, and in the value of the
    output parameter that is paired with the flag returned. *)
Definition getTimeFirstOverall ds (Timestamp : Z) : result (bool * option Z) :=
  if DataSet_empty ds then Ok (false, Some Timestamp)
  else
    let TimeFirst := Timestamp in
    let Timestamp : option Z := None in
    '(_, Timestamp) ←
      foldl (λ state ID,
        '(TimeFirst, Timestamp) ← state;
        found ← getTimeFirst ds ID;
        let TimeFirst := default TimeFirst found in
        match Timestamp with
        | None => Ok (TimeFirst, Some TimeFirst)
        | Some t =>
            if TimeFirst <? t then Ok (TimeFirst, Some TimeFirst)
            else Ok (TimeFirst, Some t)
        end)
      (Ok (TimeFirst, Timestamp)) (getKeysAll ds);
    Ok (true, Timestamp).

(** [merge(List)], for a [List] that is another object than [*this]. *)
Definition DataSet_merge ds (List : DataSet KeyType ObjectType)
    : DataSet KeyType ObjectType :=
  foldl (λ ds Map,
    foldl (λ ds Element, addElement ds Map.1 Element.1 Element.2) ds Map.2)
    ds (begin_end List).

End KeyOrder.

(** Observations used to state the properties of these members. *)
Section MemberObservations.
Context {KeyType : Type} `{Countable KeyType} {ObjectType : Type}.

(** The stream stored under [ID], empty when there is none. *)
Definition stream (ds : DataSet KeyType ObjectType) (ID : KeyType)
    : list (Z * ObjectType) :=
  default [] (_DataStreams ds !! ID).

(** The timestamps stored under [ID], each once, in increasing order. *)
Definition timestamps (ds : DataSet KeyType ObjectType) (ID : KeyType) : list Z :=
  remove_dups (stream ds ID).*1.

(** An identifier of [ID] designates the object that [getElement] copies
    out at its timestamp and number. *)
Definition designates (ds : DataSet KeyType ObjectType) (ID : KeyType)
    (u : UniqueID.t KeyType) (o : ObjectType) : Prop :=
  UniqueID.ID u = ID
  ∧ ∀ Element,
      getElement_copy ds (UniqueID.ID u) (UniqueID.Timestamp u) (UniqueID.Number u)
        Element = Ok (true, o).

End MemberObservations.

(** * The catalogue of libRSF the application names

    The enumerations, the configuration and the mixture model are declared
    in libRSF headers that are not embedded here.  Each enumeration lists
    the enumerators [IV19_GNSS.cpp] names, and [Other] for the rest. *)

Module StateType.
Inductive t := Point3 | Angle | ClockError | ClockDrift | Other.
End StateType.

Module SensorType.
Inductive t := Pseudorange3 | Odom3 | Other.
End SensorType.

Module FactorType.
Inductive t := Pseudorange3_ECEF | Odom4_ECEF | ConstDrift1 | Other.
End FactorType.

Module ErrorModelType.
Inductive t := Gaussian | DCS | cDCE | GMM | Other.
End ErrorModelType.

Module ErrorModelMixtureType.
Inductive t := MaxMix | SumMix | Other.
End ErrorModelMixtureType.

Module ErrorModelTuningType.
Inductive t := None | EM | VBI | Other.
End ErrorModelTuningType.

#[global] Instance SensorType_eq_dec : EqDecision SensorType.t.
Proof. solve_decision. Defined.

#[global] Instance SensorType_countable : Countable SensorType.t.
Proof.
  refine (inj_countable'
    (λ x, match x with
          | SensorType.Pseudorange3 => 0 | SensorType.Odom3 => 1
          | SensorType.Other => 2 end)%nat
    (λ n, match n with
          | 0 => SensorType.Pseudorange3 | 1 => SensorType.Odom3
          | _ => SensorType.Other end)%nat _).
  by intros [].
Defined.

#[global] Instance ErrorModelType_eq_dec : EqDecision ErrorModelType.t.
Proof. solve_decision. Defined.

#[global] Instance ErrorModelMixtureType_eq_dec : EqDecision ErrorModelMixtureType.t.
Proof. solve_decision. Defined.

#[global] Instance ErrorModelTuningType_eq_dec : EqDecision ErrorModelTuningType.t.
Proof. solve_decision. Defined.

(** [Config.GNSS.ErrorModel] and the two file names of [FactorGraphConfig]. *)
Record ErrorModelConfig : Type := mkErrorModelConfig {
  Type_ : ErrorModelType.t;
  MixtureType : ErrorModelMixtureType.t;
  TuningType : ErrorModelTuningType.t
}.

Record FactorGraphConfig : Type := mkFactorGraphConfig {
  InputFile : string;
  OutputFile : string;
  GNSS_ErrorModel : ErrorModelConfig
}.

(** The members of [ceres::Solver::Options] that [main] sets. *)
Record SolverOptions : Type := mkSolverOptions {
  minimizer_progress_to_stdout : bool;
  use_nonmonotonic_steps : bool;
  trust_region_strategy_DOGLEG : bool;
  dogleg_type_SUBSPACE_DOGLEG : bool;
  num_threads : Z;
  max_num_iterations : Z
}.

(** ** Doubles *)

(** Conversion of a [size_t] and of a non-negative or negative [int] to
    [double]. *)
Definition double_of_size_t (n : nat) : float :=
  PrimFloat.of_uint63 (Uint63.of_Z (Z.of_nat n)).

Definition double_of_int (z : Z) : float :=
  if z <? 0 then PrimFloat.opp (PrimFloat.of_uint63 (Uint63.of_Z (- z)))
  else PrimFloat.of_uint63 (Uint63.of_Z z).

(** ** One-dimensional Gaussian mixtures *)

(** Modelled from the spec: the class [GaussianComponent<1>] is not among
    the sources; the spec gives a component a mean, a standard deviation
    and a weight.  [setParamsStdDev(StdDev, Mean, Weight)] fills the three,
    in the order of its arguments. *)
Record GaussianComponent : Type := setParamsStdDev {
  StdDev : float;
  Mean : float;
  Weight : float
}.

(** Modelled from the spec: the class [GaussianMixture<1>] is not among the
    sources; the spec gives it as an ordered list of components that can be
    reordered. *)
Abbreviation GaussianMixture := (list GaussianComponent).

(** Modelled from the spec: the component count of [GaussianMixture<1>]. *)
Definition getNumberOfComponents (gmm : GaussianMixture) : Z :=
  Z.of_nat (length gmm).

(** Modelled from the spec: [addComponent] appends to the ordered list. *)
Definition addComponent (gmm : GaussianMixture) (c : GaussianComponent)
    : GaussianMixture :=
  gmm ++ [c].

(** Modelled from the spec: [removeLastComponent] drops the last entry of
    the ordered list. *)
Definition removeLastComponent (gmm : GaussianMixture) : GaussianMixture :=
  removelast gmm.

(** Modelled from the spec: [sortComponentsByWeight] orders the components
    by decreasing weight, so that the one [removeLastComponent] drops next
    is a lowest-weight one ("the lowest-weight component is removed"). *)
Fixpoint insert_by_weight (c : GaussianComponent) (gmm : GaussianMixture)
    : GaussianMixture :=
  match gmm with
  | [] => [c]
  | d :: gmm' =>
      if PrimFloat.ltb (Weight d) (Weight c) then c :: d :: gmm'
      else d :: insert_by_weight c gmm'
  end.

Definition sortComponentsByWeight (gmm : GaussianMixture) : GaussianMixture :=
  foldl (λ sorted c, insert_by_weight c sorted) [] gmm.

(** Modelled from the spec: [initSpread(K, range)] gives "K components with
    equal weights 1/K, zero means spread evenly across [-range, +range] if
    K>1 or at 0 if K=1, and standard deviations equal to range". *)
Definition initSpread (K : Z) (range : float) : GaussianMixture :=
  (λ i, setParamsStdDev range
          (if K =? 1 then 0%float
           else (- range + 2 * range * double_of_int i / double_of_int (K - 1))%float)
          (1 / double_of_int K)%float)
  <$> seqZ 0 K.

(** Modelled from the spec: [removeOffset] "shifts the means of all
    components by -mu0 where mu0 is the mean of the highest-weight
    component". *)
Definition heaviest (gmm : GaussianMixture) : option GaussianComponent :=
  foldl (λ best c,
           match best with
           | Some b => if PrimFloat.ltb (Weight b) (Weight c) then Some c else Some b
           | None => Some c
           end) None gmm.

Definition removeOffset (gmm : GaussianMixture) : GaussianMixture :=
  match heaviest gmm with
  | Some c0 =>
      (λ c, setParamsStdDev (StdDev c) (Mean c - Mean c0)%float (Weight c)) <$> gmm
  | None => gmm
  end.

(** [GaussianMixture<1>::EstimationConfig], the members the tuner sets. *)
Record EstimationConfig : Type := mkEstimationConfig {
  EstimationAlgorithm : ErrorModelTuningType.t;
  RemoveSmallComponents : bool;
  MergeSimiliarComponents : bool;
  PriorWishartDOF : option float   (* [None]: left at its default *)
}.

(** Noise models and loss functions handed to [addFactor]. *)
Inductive NoiseModel : Type :=
| GaussianDiagonal (StdDevDiagonal : list float)
| MaxMix1 (gmm : GaussianMixture)
| SumMix1 (gmm : GaussianMixture).

Inductive LossFunction : Type :=
| DCSLoss (phi : float)
| cDCELoss (sigma : float).

(** * [applications/IV19_GNSS.cpp]

    The factor graph, the solver, the mixture estimator and the file
    readers are libRSF and Ceres code that is not embedded here.  A call
    into them is an event; the application is a tree of such events, each
    continuing with the answer of the library. *)

Module IV19_GNSS.

(** What the application uses of libRSF without looking inside:
    measurements and state variables with their accessors, the
    default-constructed objects, and the constants of [IV19_GNSS.h]. *)
Class Library : Type := {
  SensorData : Type;
  getStdDev : SensorData → list float;
  StateData : Type;
  StateData_default : StateData;
  getTimestamp : StateData → Z;
  FactorGraphConfig_default : FactorGraphConfig;
  POSITION_STATE : string;
  CLOCK_ERROR_STATE : string;
  ORIENTATION_STATE : string;
  CLOCK_DRIFT_STATE : string;
  GMM_N : Z;
  VBI_N_MAX : Z;
  VBI_NU : float
}.

Section Application.
Context `{Library}.

Abbreviation SensorDataSet := (DataSet SensorType.t SensorData).
Abbreviation StateDataSet := (DataSet string StateData).
Abbreviation StateList := (list (string * Z)).

(** The two factor graphs of the application: the one of [main] and the
    local one of [InitGraph]. *)
Inductive GraphId : Type := Graph | SimpleGraph.

Inductive Event : Type :=
| InitGoogleLogging (argv0 : string)
| hardware_concurrency
| ReadDataFromFile (Filename : string)
| WriteDataToFile (Filename : string) (Name : string) (Data : StateDataSet)
| addState (G : GraphId) (Name : string) (Type_ : StateType.t) (Timestamp : Z)
| addFactor (G : GraphId) (Factor : FactorType.t) (List : StateList)
    (Measurement : option SensorData) (Noise : NoiseModel)
    (Loss : option LossFunction)
| solve (G : GraphId) (Options : SolverOptions)
| getMean (G : GraphId) (Name : string) (Timestamp : Z)
| setMean (G : GraphId) (Name : string) (Timestamp : Z) (Mean : list float)
| getStateData_getElement (G : GraphId) (Name : string) (Timestamp : Z) (Number : Z)
| computeUnweightedError (G : GraphId) (Factor : FactorType.t)
| setNewErrorModel (G : GraphId) (Factor : FactorType.t) (Model : NoiseModel)
| estimate (gmm : GaussianMixture) (ErrorData : list float) (Config : EstimationConfig)
| removeAllStatesOutsideWindow (G : GraphId) (Width : Z) (Timestamp : Z)
| printReport (G : GraphId).

(** What the library answers. *)
Definition answer (e : Event) : Type :=
  match e with
  | hardware_concurrency => Z
  | ReadDataFromFile _ => SensorDataSet
  | getMean _ _ _ => list float
  | getStateData_getElement _ _ _ _ => StateData
  | computeUnweightedError _ _ => list float
  | estimate _ _ _ => GaussianMixture
  | _ => unit
  end.

Inductive Prog (A : Type) : Type :=
| Ret (a : A)
| Raise                 (* an exception leaves the function *)
| Undef                 (* undefined behaviour *)
| Vis (e : Event) (k : answer e → Prog A).

Arguments Ret {A} a.
Arguments Raise {A}.
Arguments Undef {A}.
Arguments Vis {A} e k.

Fixpoint bind {A B} (p : Prog A) (f : A → Prog B) : Prog B :=
  match p with
  | Ret a => f a
  | Raise => Raise
  | Undef => Undef
  | Vis e k => Vis e (λ r, bind (k r) f)
  end.

Definition call (e : Event) : Prog (answer e) := Vis e Ret.

Definition lift {A} (r : result A) : Prog A :=
  match r with
  | Ok a => Ret a
  | Throw => Raise
  | Undefined => Undef
  end.

#[global] Instance Prog_ret : MRet Prog := @Ret.
#[global] Instance Prog_bind : MBind Prog := λ A B f p, bind p f.

(** *** Running a program against a library

    A library is a state [W] and a function answering each event.  A run
    ends with the returned value and the final state, or with an
    exception, or in undefined behaviour; in each case with the events
    that took place, in order. *)
Inductive outcome (A W : Type) : Type :=
| Returned (a : A) (w : W) (trace : list Event)
| Raised (trace : list Event)
| Undefined_behaviour (trace : list Event).

Arguments Returned {A W} a w trace.
Arguments Raised {A W} trace.
Arguments Undefined_behaviour {A W} trace.

Definition after {A W} (events : list Event) (o : outcome A W) : outcome A W :=
  match o with
  | Returned a w trace => Returned a w (events ++ trace)
  | Raised trace => Raised (events ++ trace)
  | Undefined_behaviour trace => Undefined_behaviour (events ++ trace)
  end.

Fixpoint run {A W} (h : ∀ e, W → answer e * W) (p : Prog A) (w : W)
    : outcome A W :=
  match p with
  | Ret a => Returned a w []
  | Raise => Raised []
  | Undef => Undefined_behaviour []
  | Vis e k => let '(r, w') := h e w in after [e] (run h (k r) w')
  end.

(** *** Function-local statics

    [AddPseudorangeMeasurements] keeps [GMM], [NoisePseudorangeMaxMix] and
    [NoisePseudorangeSumMix] in static storage, [TuneErrorModel] keeps
    [GMMAdaptive].  A static noise model is constructed from [GMM] when
    control first passes its declaration; until then its field is [None],
    afterwards it holds the mixture the [MaxMix1] or [SumMix1] object was
    built from. *)
Record Statics : Type := mkStatics {
  GMM : GaussianMixture;
  NoisePseudorangeMaxMix : option GaussianMixture;
  NoisePseudorangeSumMix : option GaussianMixture;
  GMMAdaptive : GaussianMixture
}.

Definition Statics_initial : Statics :=
  {| GMM := []; NoisePseudorangeMaxMix := None; NoisePseudorangeSumMix := None;
     GMMAdaptive := [] |}.

(** [StateDataSet::addElement(Name, Element)] of [src/StateDataSet.cpp]. *)
Definition StateDataSet_addElement (Result : StateDataSet) (Name : string)
    (Element : StateData) : StateDataSet :=
  addElement Result Name (getTimestamp Element) Element.

(** ** [AddPseudorangeMeasurements] *)

(** The [switch] of the loop body, for one measurement. *)
Definition AddPseudorange (G : GraphId) (Config : FactorGraphConfig)
    (ListPseudorange : StateList) (Pseudorange : SensorData) (st : Statics)
    : Prog Statics :=
  let ErrorModel := GNSS_ErrorModel Config in
  match Type_ ErrorModel with
  | ErrorModelType.Gaussian =>
      call (addFactor G FactorType.Pseudorange3_ECEF ListPseudorange
              (Some Pseudorange) (GaussianDiagonal (getStdDev Pseudorange)) None);;
      mret st
  | ErrorModelType.DCS =>
      call (addFactor G FactorType.Pseudorange3_ECEF ListPseudorange
              (Some Pseudorange) (GaussianDiagonal (getStdDev Pseudorange))
              (Some (DCSLoss 1)));;
      mret st
  | ErrorModelType.cDCE =>
      match getStdDev Pseudorange with
      | sigma :: _ =>
          call (addFactor G FactorType.Pseudorange3_ECEF ListPseudorange
                  (Some Pseudorange) (GaussianDiagonal [1%float])
                  (Some (cDCELoss sigma)));;
          mret st
      | [] => Undef
      end
  | ErrorModelType.GMM =>
      let GMM' :=
        if getNumberOfComponents (GMM st) =? 0 then
          if decide (TuningType ErrorModel = ErrorModelTuningType.VBI)
          then initSpread 2 10
          else initSpread GMM_N 10
        else GMM st in
      if decide (MixtureType ErrorModel = ErrorModelMixtureType.MaxMix) then
        let Noise := default GMM' (NoisePseudorangeMaxMix st) in
        call (addFactor G FactorType.Pseudorange3_ECEF ListPseudorange
                (Some Pseudorange) (MaxMix1 Noise) None);;
        mret {| GMM := GMM'; NoisePseudorangeMaxMix := Some Noise;
                NoisePseudorangeSumMix := NoisePseudorangeSumMix st;
                GMMAdaptive := GMMAdaptive st |}
      else if decide (MixtureType ErrorModel = ErrorModelMixtureType.SumMix) then
        let Noise := default GMM' (NoisePseudorangeSumMix st) in
        call (addFactor G FactorType.Pseudorange3_ECEF ListPseudorange
                (Some Pseudorange) (SumMix1 Noise) None);;
        mret {| GMM := GMM'; NoisePseudorangeMaxMix := NoisePseudorangeMaxMix st;
                NoisePseudorangeSumMix := Some Noise;
                GMMAdaptive := GMMAdaptive st |}
      else
        mret {| GMM := GMM'; NoisePseudorangeMaxMix := NoisePseudorangeMaxMix st;
                NoisePseudorangeSumMix := NoisePseudorangeSumMix st;
                GMMAdaptive := GMMAdaptive st |}
  | ErrorModelType.Other => mret st
  end.

(** The [for] loop over [SatCounter]. *)
Fixpoint AddPseudorangeMeasurements_loop (G : GraphId)
    (Measurements : SensorDataSet) (Config : FactorGraphConfig)
    (Timestamp : Z) (ListPseudorange : StateList) (SatCounters : list Z)
    (st : Statics) : Prog Statics :=
  match SatCounters with
  | [] => mret st
  | SatCounter :: SatCounters =>
      Pseudorange ← lift (getElement_value Measurements SensorType.Pseudorange3
                            Timestamp SatCounter);
      st ← AddPseudorange G Config ListPseudorange Pseudorange st;
      AddPseudorangeMeasurements_loop G Measurements Config Timestamp
        ListPseudorange SatCounters st
  end.

Definition AddPseudorangeMeasurements (G : GraphId)
    (Measurements : SensorDataSet) (Config : FactorGraphConfig)
    (Timestamp : Z) (st : Statics) : Prog Statics :=
  let ListPseudorange :=
    [(POSITION_STATE, Timestamp); (CLOCK_ERROR_STATE, Timestamp)] in
  let SatNumber := countElement Measurements SensorType.Pseudorange3 Timestamp in
  AddPseudorangeMeasurements_loop G Measurements Config Timestamp
    ListPseudorange (seqZ 0 SatNumber) st.

(** ** [InitGraph]

    In [G.getStateData().getElement(N, T).setMean(S.getStateData()
    .getElement(N, T).getMean())] the mean is read from [S] and then
    written to [G]. *)
Definition InitGraph (Measurements : SensorDataSet)
    (Config : FactorGraphConfig) (Options : SolverOptions)
    (TimestampFirst : Z) (st : Statics) : Prog Statics :=
  let SimpleConfig :=
    {| InputFile := InputFile Config; OutputFile := OutputFile Config;
       GNSS_ErrorModel :=
         {| Type_ := ErrorModelType.Gaussian;
            MixtureType := MixtureType (GNSS_ErrorModel Config);
            TuningType := TuningType (GNSS_ErrorModel Config) |} |} in
  call (addState SimpleGraph POSITION_STATE StateType.Point3 TimestampFirst);;
  call (addState SimpleGraph CLOCK_ERROR_STATE StateType.ClockError TimestampFirst);;
  st ← AddPseudorangeMeasurements SimpleGraph Measurements SimpleConfig
         TimestampFirst st;
  let Options :=
    {| minimizer_progress_to_stdout := false;
       use_nonmonotonic_steps := use_nonmonotonic_steps Options;
       trust_region_strategy_DOGLEG := trust_region_strategy_DOGLEG Options;
       dogleg_type_SUBSPACE_DOGLEG := dogleg_type_SUBSPACE_DOGLEG Options;
       num_threads := num_threads Options;
       max_num_iterations := max_num_iterations Options |} in
  call (solve SimpleGraph Options);;
  call (addState Graph POSITION_STATE StateType.Point3 TimestampFirst);;
  call (addState Graph CLOCK_ERROR_STATE StateType.ClockError TimestampFirst);;
  call (addState Graph ORIENTATION_STATE StateType.Angle TimestampFirst);;
  call (addState Graph CLOCK_DRIFT_STATE StateType.ClockDrift TimestampFirst);;
  Position ← call (getMean SimpleGraph POSITION_STATE TimestampFirst);
  call (setMean Graph POSITION_STATE TimestampFirst Position);;
  ClockError ← call (getMean SimpleGraph CLOCK_ERROR_STATE TimestampFirst);
  call (setMean Graph CLOCK_ERROR_STATE TimestampFirst ClockError);;
  AddPseudorangeMeasurements Graph Measurements Config TimestampFirst st.

(** ** [TuneErrorModel] *)

(** The statistics of the residuals, as computed for the VBI branch. *)
Definition residual_mean (v : list float) : float :=
  let sum := fold_left PrimFloat.add v 0%float in
  (sum / double_of_size_t (length v))%float.

Definition residual_stdev (v : list float) : float :=
  let mean := residual_mean v in
  let diff := map (λ x, (x - mean)%float) v in
  let sq_sum := fold_left (λ acc x, (acc + x * x)%float) diff 0%float in
  PrimFloat.sqrt (sq_sum / double_of_size_t (length v)).

(** "add just one component per timestamp": the adaptive mixture as it is
    handed to the estimator. *)
Definition GMMAdaptive_grown (GMMAdaptive : GaussianMixture)
    (ErrorData : list float) : GaussianMixture :=
  let GMMAdaptive :=
    if getNumberOfComponents GMMAdaptive =? 0 then initSpread 1 10
    else GMMAdaptive in
  let stdev := residual_stdev ErrorData in
  let GMMAdaptive :=
    if getNumberOfComponents GMMAdaptive >=? VBI_N_MAX
    then removeLastComponent (sortComponentsByWeight GMMAdaptive)
    else GMMAdaptive in
  let Component :=
    setParamsStdDev stdev 0%float
      (1 / double_of_int (getNumberOfComponents GMMAdaptive))%float in
  addComponent GMMAdaptive Component.

(** "apply error model" *)
Definition apply_error_model (G : GraphId) (Config : FactorGraphConfig)
    (gmm : GaussianMixture) : Prog unit :=
  let ErrorModel := GNSS_ErrorModel Config in
  if decide (MixtureType ErrorModel = ErrorModelMixtureType.SumMix) then
    call (setNewErrorModel G FactorType.Pseudorange3_ECEF (SumMix1 gmm))
  else if decide (MixtureType ErrorModel = ErrorModelMixtureType.MaxMix) then
    call (setNewErrorModel G FactorType.Pseudorange3_ECEF (MaxMix1 gmm))
  else mret tt.

Definition TuneErrorModel (G : GraphId) (Config : FactorGraphConfig)
    (st : Statics) : Prog Statics :=
  let ErrorModel := GNSS_ErrorModel Config in
  if decide (TuningType ErrorModel ≠ ErrorModelTuningType.None) then
    ErrorData ← call (computeUnweightedError G FactorType.Pseudorange3_ECEF);
    if decide (TuningType ErrorModel = ErrorModelTuningType.EM) then
      let GMM : GaussianMixture := [] in
      let GMM :=
        if getNumberOfComponents GMM =? 0 then initSpread GMM_N 10 else GMM in
      let GMMConfig :=
        {| EstimationAlgorithm := ErrorModelTuningType.EM;
           RemoveSmallComponents := false;
           MergeSimiliarComponents := false;
           PriorWishartDOF := None |} in
      GMM ← call (estimate GMM ErrorData GMMConfig);
      let GMM := removeOffset GMM in
      apply_error_model G Config GMM;;
      mret st
    else if decide (TuningType ErrorModel = ErrorModelTuningType.VBI) then
      let GMMAdaptive := GMMAdaptive_grown (GMMAdaptive st) ErrorData in
      let GMMConfig :=
        {| EstimationAlgorithm := ErrorModelTuningType.VBI;
           RemoveSmallComponents := true;
           MergeSimiliarComponents := false;
           PriorWishartDOF := Some VBI_NU |} in
      GMMAdaptive ← call (estimate GMMAdaptive ErrorData GMMConfig);
      let GMMAdaptive := removeOffset GMMAdaptive in
      apply_error_model G Config GMMAdaptive;;
      mret {| GMM := GMM st;
              NoisePseudorangeMaxMix := NoisePseudorangeMaxMix st;
              NoisePseudorangeSumMix := NoisePseudorangeSumMix st;
              GMMAdaptive := GMMAdaptive |}
    else mret st
  else mret st.

(** ** [ParseErrorModel]

    [Some Config'] stands for [true] with [Config] updated, [None] for
    [false] with [Config] as it was. *)
Definition set_ErrorModel (Config : FactorGraphConfig)
    (ErrorModel : ErrorModelConfig) : FactorGraphConfig :=
  {| InputFile := InputFile Config; OutputFile := OutputFile Config;
     GNSS_ErrorModel := ErrorModel |}.

Definition ParseErrorModel (ErrorModel : string) (Config : FactorGraphConfig)
    : option FactorGraphConfig :=
  let Mixture := MixtureType (GNSS_ErrorModel Config) in
  if bool_decide (ErrorModel = "gauss") then
    Some (set_ErrorModel Config
            {| Type_ := ErrorModelType.Gaussian; MixtureType := Mixture;
               TuningType := ErrorModelTuningType.None |})
  else if bool_decide (ErrorModel = "dcs") then
    Some (set_ErrorModel Config
            {| Type_ := ErrorModelType.DCS; MixtureType := Mixture;
               TuningType := ErrorModelTuningType.None |})
  else if bool_decide (ErrorModel = "cdce") then
    Some (set_ErrorModel Config
            {| Type_ := ErrorModelType.cDCE; MixtureType := Mixture;
               TuningType := ErrorModelTuningType.None |})
  else if bool_decide (ErrorModel = "sm") then
    Some (set_ErrorModel Config
            {| Type_ := ErrorModelType.GMM;
               MixtureType := ErrorModelMixtureType.SumMix;
               TuningType := ErrorModelTuningType.None |})
  else if bool_decide (ErrorModel = "mm") then
    Some (set_ErrorModel Config
            {| Type_ := ErrorModelType.GMM;
               MixtureType := ErrorModelMixtureType.MaxMix;
               TuningType := ErrorModelTuningType.None |})
  else if bool_decide (ErrorModel = "stsm") then
    Some (set_ErrorModel Config
            {| Type_ := ErrorModelType.GMM;
               MixtureType := ErrorModelMixtureType.SumMix;
               TuningType := ErrorModelTuningType.EM |})
  else if bool_decide (ErrorModel = "stmm") then
    Some (set_ErrorModel Config
            {| Type_ := ErrorModelType.GMM;
               MixtureType := ErrorModelMixtureType.MaxMix;
               TuningType := ErrorModelTuningType.EM |})
  else if bool_decide (ErrorModel = "stsm_vbi") then
    Some (set_ErrorModel Config
            {| Type_ := ErrorModelType.GMM;
               MixtureType := ErrorModelMixtureType.SumMix;
               TuningType := ErrorModelTuningType.VBI |})
  else if bool_decide (ErrorModel = "stmm_vbi") then
    Some (set_ErrorModel Config
            {| Type_ := ErrorModelType.GMM;
               MixtureType := ErrorModelMixtureType.MaxMix;
               TuningType := ErrorModelTuningType.VBI |})
  else None.

(** ** [main] *)

(** [Arguments.at(n)] *)
Definition vector_at (Arguments : list string) (n : nat) : result string :=
  match Arguments !! n with
  | Some a => Ok a
  | None => Throw
  end.

(** "add fist variables and factors", "solve multiple times with refined
    model" and "safe result at first timestamp". *)
Definition main_init (InputData : SensorDataSet) (Config : FactorGraphConfig)
    (Options : SolverOptions) (TimestampFirst : Z) (Result : StateDataSet)
    (st : Statics) : Prog (StateDataSet * Statics) :=
  st ← InitGraph InputData Config Options TimestampFirst st;
  call (solve Graph Options);;
  st ← TuneErrorModel Graph Config st;
  call (solve Graph Options);;
  Element ← call (getStateData_getElement Graph POSITION_STATE TimestampFirst 0);
  mret (StateDataSet_addElement Result POSITION_STATE Element, st).

(** "iterate over timestamps": the [while] loop, unrolled at most [fuel]
    times; [None] is returned when the unrolling is used up. *)
Fixpoint main_loop (fuel : nat) (InputData : SensorDataSet)
    (Config : FactorGraphConfig) (Options : SolverOptions)
    (NoiseOdom4DOF NoiseCCED : NoiseModel) (Timestamp TimestampOld : Z)
    (Result : StateDataSet) (st : Statics) : Prog (option StateDataSet) :=
  match fuel with
  | O => mret None
  | S fuel =>
      next ← lift (getTimeNext InputData SensorType.Pseudorange3 Timestamp);
      match next with
      | None => mret (Some Result)
      | Some Timestamp =>
          call (addState Graph POSITION_STATE StateType.Point3 Timestamp);;
          call (addState Graph CLOCK_ERROR_STATE StateType.ClockError Timestamp);;
          call (addState Graph ORIENTATION_STATE StateType.Angle Timestamp);;
          call (addState Graph CLOCK_DRIFT_STATE StateType.ClockDrift Timestamp);;
          let MotionList :=
            [(POSITION_STATE, TimestampOld); (ORIENTATION_STATE, TimestampOld);
             (POSITION_STATE, Timestamp); (ORIENTATION_STATE, Timestamp)] in
          Odom ← lift (getElement_value InputData SensorType.Odom3 Timestamp 0);
          call (addFactor Graph FactorType.Odom4_ECEF MotionList (Some Odom)
                  NoiseOdom4DOF None);;
          let ClockList :=
            [(CLOCK_ERROR_STATE, TimestampOld); (CLOCK_DRIFT_STATE, TimestampOld);
             (CLOCK_ERROR_STATE, Timestamp); (CLOCK_DRIFT_STATE, Timestamp)] in
          call (addFactor Graph FactorType.ConstDrift1 ClockList None
                  NoiseCCED None);;
          st ← AddPseudorangeMeasurements Graph InputData Config Timestamp st;
          st ← TuneErrorModel Graph Config st;
          call (solve Graph Options);;
          Element ← call (getStateData_getElement Graph POSITION_STATE Timestamp 0);
          let Result := StateDataSet_addElement Result POSITION_STATE Element in
          call (removeAllStatesOutsideWindow Graph 60 Timestamp);;
          main_loop fuel InputData Config Options NoiseOdom4DOF NoiseCCED
            Timestamp Timestamp Result st
      end
  end.

(** The part of [main] after the error model is parsed.  The loop visits
    stored timestamps in increasing order, so one unrolling per stored
    pseudorange (and one to leave the loop) is enough. *)
Definition main_estimation (Config : FactorGraphConfig) : Prog (option Z) :=
  threads ← call hardware_concurrency;
  let SolverOptions :=
    {| minimizer_progress_to_stdout := false;
       use_nonmonotonic_steps := true;
       trust_region_strategy_DOGLEG := true;
       dogleg_type_SUBSPACE_DOGLEG := true;
       num_threads := threads;
       max_num_iterations := 100 |} in
  InputData ← call (ReadDataFromFile (InputFile Config));
  let Result : StateDataSet := DataSet_default StateData_default in
  found ← lift (getTimeFirst InputData SensorType.Pseudorange3);
  let TimestampFirst := default 0 found in
  lift (getTimeLast InputData SensorType.Pseudorange3);;
  let Timestamp := TimestampFirst in
  let TimestampOld := TimestampFirst in
  '(Result, st) ← main_init InputData Config SolverOptions TimestampFirst
                     Result Statics_initial;
  Odom ← lift (getElement_value InputData SensorType.Odom3 Timestamp 0);
  let StdDev := getStdDev Odom in
  if bool_decide (length StdDev < 3)%nat then Undef   (* [head(3)] out of range *)
  else
    let StdOdom4DOF := take 3 StdDev ++ drop (length StdDev - 1) StdDev in
    let NoiseOdom4DOF := GaussianDiagonal StdOdom4DOF in
    let StdCCED :=
      if bool_decide (InputFile Config = "Chemnitz_Input.txt")
      then [0.1; 0.009]%float
      else [0.05; 0.01]%float in
    let NoiseCCED := GaussianDiagonal StdCCED in
    let fuel :=
      S (length (default [] (_DataStreams InputData !! SensorType.Pseudorange3))) in
    Result ← main_loop fuel InputData Config SolverOptions NoiseOdom4DOF
               NoiseCCED Timestamp TimestampOld Result st;
    match Result with
    | None => mret None
    | Some Result =>
        call (printReport Graph);;
        call (WriteDataToFile (OutputFile Config) POSITION_STATE Result);;
        mret (Some 0)
    end.

(** [argv] is the argument vector with the program name first; the result
    is the exit code. *)
Definition main (argv : list string) : Prog (option Z) :=
  call (InitGoogleLogging (default String.EmptyString (argv !! 0%nat)));;
  let Arguments := drop 1 argv in
  InputFile ← lift (vector_at Arguments 0);
  OutputFile ← lift (vector_at Arguments 1);
  let Config :=
    {| InputFile := InputFile; OutputFile := OutputFile;
       GNSS_ErrorModel := GNSS_ErrorModel FactorGraphConfig_default |} in
  ErrorModel ← lift (vector_at Arguments 3);
  match ParseErrorModel ErrorModel Config with
  | None => mret (Some 1)
  | Some Config => main_estimation Config
  end.

(** ** Vocabulary of the properties *)

(** The ERROR_MODEL table of the specification: token, Type, MixtureType
    ([None] where the table has a dash) and TuningType. *)
Definition ERROR_MODEL_table
    : list (string * (ErrorModelType.t * option ErrorModelMixtureType.t
                      * ErrorModelTuningType.t)) :=
  [("gauss", (ErrorModelType.Gaussian, None, ErrorModelTuningType.None));
   ("dcs", (ErrorModelType.DCS, None, ErrorModelTuningType.None));
   ("cdce", (ErrorModelType.cDCE, None, ErrorModelTuningType.None));
   ("sm", (ErrorModelType.GMM, Some ErrorModelMixtureType.SumMix,
           ErrorModelTuningType.None));
   ("mm", (ErrorModelType.GMM, Some ErrorModelMixtureType.MaxMix,
           ErrorModelTuningType.None));
   ("stsm", (ErrorModelType.GMM, Some ErrorModelMixtureType.SumMix,
             ErrorModelTuningType.EM));
   ("stmm", (ErrorModelType.GMM, Some ErrorModelMixtureType.MaxMix,
             ErrorModelTuningType.EM));
   ("stsm_vbi", (ErrorModelType.GMM, Some ErrorModelMixtureType.SumMix,
                 ErrorModelTuningType.VBI));
   ("stmm_vbi", (ErrorModelType.GMM, Some ErrorModelMixtureType.MaxMix,
                 ErrorModelTuningType.VBI))].

(** The values a program can return, whatever the library answers. *)
Fixpoint all_returns {A} (P : A → Prop) (p : Prog A) : Prop :=
  match p with
  | Ret a => P a
  | Raise | Undef => True
  | Vis e k => ∀ r, all_returns P (k r)
  end.

(** The run of a program against a library returns. *)
Definition returns {A W} (h : ∀ e, W → answer e * W) (p : Prog A) (w : W) : Prop :=
  ∃ a w' trace, run h p w = Returned a w' trace.

(** The pseudoranges stored at [Timestamp], as the loop of
    [AddPseudorangeMeasurements] reads them. *)
Definition pseudoranges_read (Measurements : SensorDataSet) (Timestamp : Z)
    (Pseudoranges : list SensorData) : Prop :=
  Forall2 (λ SatCounter Pseudorange,
             getElement_value Measurements SensorType.Pseudorange3 Timestamp
               SatCounter = Ok Pseudorange)
    (seqZ 0 (countElement Measurements SensorType.Pseudorange3 Timestamp))
    Pseudoranges.

(** A pseudorange factor with plain Gaussian noise. *)
Definition Gaussian_pseudorange (G : GraphId) (Timestamp : Z)
    (Pseudorange : SensorData) : Event :=
  addFactor G FactorType.Pseudorange3_ECEF
    [(POSITION_STATE, Timestamp); (CLOCK_ERROR_STATE, Timestamp)]
    (Some Pseudorange) (GaussianDiagonal (getStdDev Pseudorange)) None.

(** The noise model and loss of a pseudorange factor under the error
    model of [Config], for the error models [ParseErrorModel] sets. *)
Definition under_error_model (Config : FactorGraphConfig)
    (Pseudorange : SensorData) (Noise : NoiseModel)
    (Loss : option LossFunction) : Prop :=
  match Type_ (GNSS_ErrorModel Config) with
  | ErrorModelType.Gaussian =>
      Noise = GaussianDiagonal (getStdDev Pseudorange) ∧ Loss = None
  | ErrorModelType.DCS =>
      Noise = GaussianDiagonal (getStdDev Pseudorange) ∧ Loss = Some (DCSLoss 1)
  | ErrorModelType.cDCE =>
      Noise = GaussianDiagonal [1%float]
      ∧ ∃ sigma, head (getStdDev Pseudorange) = Some sigma
                 ∧ Loss = Some (cDCELoss sigma)
  | ErrorModelType.GMM =>
      Loss = None
      ∧ match MixtureType (GNSS_ErrorModel Config) with
        | ErrorModelMixtureType.MaxMix => ∃ gmm, Noise = MaxMix1 gmm
        | ErrorModelMixtureType.SumMix => ∃ gmm, Noise = SumMix1 gmm
        | ErrorModelMixtureType.Other => False
        end
  | ErrorModelType.Other => False
  end.

Definition configured_pseudorange (Config : FactorGraphConfig) (Timestamp : Z)
    (Pseudorange : SensorData) (e : Event) : Prop :=
  ∃ Noise Loss,
    e = addFactor Graph FactorType.Pseudorange3_ECEF
          [(POSITION_STATE, Timestamp); (CLOCK_ERROR_STATE, Timestamp)]
          (Some Pseudorange) Noise Loss
    ∧ under_error_model Config Pseudorange Noise Loss.

(** The events of a tuning step. *)
Definition tuning_event (e : Event) : Prop :=
  match e with
  | computeUnweightedError Graph FactorType.Pseudorange3_ECEF => True
  | estimate _ _ _ => True
  | setNewErrorModel Graph FactorType.Pseudorange3_ECEF _ => True
  | _ => False
  end.

(** The error models [AddPseudorangeMeasurements] has a factor for; they
    are the ones [ParseErrorModel] sets. *)
Definition supported (Config : FactorGraphConfig) : Prop :=
  let ErrorModel := GNSS_ErrorModel Config in
  Type_ ErrorModel = ErrorModelType.Gaussian
  ∨ Type_ ErrorModel = ErrorModelType.DCS
  ∨ Type_ ErrorModel = ErrorModelType.cDCE
  ∨ (Type_ ErrorModel = ErrorModelType.GMM
     ∧ (MixtureType ErrorModel = ErrorModelMixtureType.MaxMix
        ∨ MixtureType ErrorModel = ErrorModelMixtureType.SumMix)).

End Application.

Arguments Ret {_ A} a.
Arguments Raise {_ A}.
Arguments Undef {_ A}.
Arguments Vis {_ A} e k.
Arguments Returned {_ A W} a w trace.
Arguments Raised {_ A W} trace.
Arguments Undefined_behaviour {_ A W} trace.

End IV19_GNSS.

Import IV19_GNSS.

Section TraceObservations.
Context `{Library}.

(** The timestamp at which an event reads an estimate from the main
    graph; the driver does so once per timestamp it has solved. *)
Definition recorded_at (e : Event) : option Z :=
  match e with
  | getStateData_getElement Graph _ Timestamp _ => Some Timestamp
  | _ => None
  end.

(** An event that prints the report or writes the result file. *)
Definition reports_or_writes (e : Event) : Prop :=
  match e with
  | printReport _ | WriteDataToFile _ _ _ => True
  | _ => False
  end.

Context {W : Type} (h : ∀ e, W → answer e * W).

(** The state of the library after it has answered the events of a trace,
    one after the other. *)
Definition world_after (w : W) (trace : list Event) : W :=
  foldl (λ w e, (h e w).2) w trace.


End TraceObservations.

(** * Sample inputs *)

(** A pseudorange stream with one satellite at the timestamps 1 and 2 and
    two at 3, and one with one satellite at 1 and two at 3. *)
Definition satellites_1233 : DataSet SensorType.t string :=
  add_all (DataSet_default "null")
    [(SensorType.Pseudorange3, 1, "a"); (SensorType.Pseudorange3, 2, "b");
     (SensorType.Pseudorange3, 3, "c"); (SensorType.Pseudorange3, 3, "d")].

Definition satellites_133 : DataSet SensorType.t string :=
  add_all (DataSet_default "null")
    [(SensorType.Pseudorange3, 1, "a"); (SensorType.Pseudorange3, 3, "c");
     (SensorType.Pseudorange3, 3, "d")].

Definition satellites_113 : DataSet SensorType.t string :=
  add_all (DataSet_default "null")
    [(SensorType.Pseudorange3, 1, "a"); (SensorType.Pseudorange3, 1, "b");
     (SensorType.Pseudorange3, 3, "c")].

(** A library whose measurements are their standard deviations and whose
    state variables are a timestamp and a mean. *)
Definition sample_library : Library := {|
  SensorData := list float;
  getStdDev := λ x, x;
  StateData := Z * list float;
  StateData_default := (0, []);
  getTimestamp := fst;
  FactorGraphConfig_default :=
    {| InputFile := ""; OutputFile := "";
       GNSS_ErrorModel :=
         {| Type_ := ErrorModelType.Other;
            MixtureType := ErrorModelMixtureType.Other;
            TuningType := ErrorModelTuningType.Other |} |};
  POSITION_STATE := "Position";
  CLOCK_ERROR_STATE := "ClockError";
  ORIENTATION_STATE := "Orientation";
  CLOCK_DRIFT_STATE := "ClockDrift";
  GMM_N := 2;
  VBI_N_MAX := 3;
  VBI_NU := 2%float
|}.

Section SampleInputs.
#[local] Existing Instance sample_library.

(** Two pseudoranges and an odometry record at 10, one of each at 11. *)
Definition sample_input : DataSet SensorType.t (list float) :=
  add_all (DataSet_default [])
    [(SensorType.Pseudorange3, 10, [1%float]);
     (SensorType.Pseudorange3, 10, [2%float]);
     (SensorType.Odom3, 10, [1; 1; 1; 1]%float);
     (SensorType.Pseudorange3, 11, [3%float]);
     (SensorType.Odom3, 11, [1; 1; 1; 1]%float)].

(** A library without state: it reads [sample_input], reports the
    residuals 2 and 6, and its estimator returns the mixture it is
    given. *)
Definition sample_handler (e : Event) (w : unit) : answer e * unit :=
  match e return answer e * unit with
  | InitGoogleLogging _ => (tt, tt)
  | hardware_concurrency => (4, tt)
  | ReadDataFromFile _ => (sample_input, tt)
  | WriteDataToFile _ _ _ => (tt, tt)
  | addState _ _ _ _ => (tt, tt)
  | addFactor _ _ _ _ _ _ => (tt, tt)
  | solve _ _ => (tt, tt)
  | getMean _ _ _ => ([0; 0; 0]%float, tt)
  | setMean _ _ _ _ => (tt, tt)
  | getStateData_getElement _ _ Timestamp _ => ((Timestamp, []), tt)
  | computeUnweightedError _ _ => ([2; 6]%float, tt)
  | setNewErrorModel _ _ _ => (tt, tt)
  | estimate gmm _ _ => (gmm, tt)
  | removeAllStatesOutsideWindow _ _ _ => (tt, tt)
  | printReport _ => (tt, tt)
  end.

Definition sample_Config (ErrorModel : string) : FactorGraphConfig :=
  default FactorGraphConfig_default
    (ParseErrorModel ErrorModel FactorGraphConfig_default).

Definition sample_Options : SolverOptions :=
  {| minimizer_progress_to_stdout := false;
     use_nonmonotonic_steps := true;
     trust_region_strategy_DOGLEG := true;
     dogleg_type_SUBSPACE_DOGLEG := true;
     num_threads := 4;
     max_num_iterations := 100 |}.

(** An adaptive mixture that holds [VBI_N_MAX] components. *)
Definition sample_GMMAdaptive : GaussianMixture :=
  [setParamsStdDev 1 0 0.5; setParamsStdDev 5 0 0.25;
   setParamsStdDev 9 0 0.375]%float.

End SampleInputs.

(** ** More sample inputs *)

(** An order of the sample keys: the enumerators as they are listed in
    [SensorType]. *)
Definition SensorType_index (x : SensorType.t) : Z :=
  match x with
  | SensorType.Pseudorange3 => 0
  | SensorType.Odom3 => 1
  | SensorType.Other => 2
  end.

Definition SensorType_le : relation SensorType.t :=
  λ a b, SensorType_index a ≤ SensorType_index b.

#[global] Instance SensorType_le_dec : RelDecision SensorType_le :=
  λ a b, decide (SensorType_index a ≤ SensorType_index b).

(** The timestamp of a double, in the unit 2^-1074. *)
Definition timestamp_of_double (x : float) : Z :=
  match Prim2SF x with
  | S754_finite s m e => (if s then -1 else 1) * Z.pos m * 2 ^ (e + 1074)
  | S754_infinity s => (if s then -1 else 1) * 2 ^ 2098
  | S754_zero _ | S754_nan => 0
  end.

(** A stream with one element at 0.1 s and one at 0.9 s. *)
Definition tenths_1_9 : DataSet SensorType.t string :=
  add_all (DataSet_default "null")
    [(SensorType.Pseudorange3, timestamp_of_double 0.1, "a");
     (SensorType.Pseudorange3, timestamp_of_double 0.9, "b")].

Section MoreSampleInputs.
#[local] Existing Instance sample_library.

(** Pseudoranges at 10 and 11 and no odometry; the [NullObject] has no
    standard deviation. *)
Definition sample_input_without_odometry : DataSet SensorType.t (list float) :=
  add_all (DataSet_default [])
    [(SensorType.Pseudorange3, 10, [1%float]);
     (SensorType.Pseudorange3, 11, [3%float])].

(** The library of [sample_handler], reading [sample_input_without_odometry]. *)
Definition sample_handler_without_odometry (e : Event) (w : unit) : answer e * unit :=
  match e return answer e * unit with
  | InitGoogleLogging _ => (tt, tt)
  | hardware_concurrency => (4, tt)
  | ReadDataFromFile _ => (sample_input_without_odometry, tt)
  | WriteDataToFile _ _ _ => (tt, tt)
  | addState _ _ _ _ => (tt, tt)
  | addFactor _ _ _ _ _ _ => (tt, tt)
  | solve _ _ => (tt, tt)
  | getMean _ _ _ => ([0; 0; 0]%float, tt)
  | setMean _ _ _ _ => (tt, tt)
  | getStateData_getElement _ _ Timestamp _ => ((Timestamp, []), tt)
  | computeUnweightedError _ _ => ([2; 6]%float, tt)
  | setNewErrorModel _ _ _ => (tt, tt)
  | estimate gmm _ _ => (gmm, tt)
  | removeAllStatesOutsideWindow _ _ _ => (tt, tt)
  | printReport _ => (tt, tt)
  end.

(** Statics whose MaxMix noise model has been constructed. *)
Definition sample_Statics : Statics :=
  {| GMM := sample_GMMAdaptive;
     NoisePseudorangeMaxMix := Some sample_GMMAdaptive;
     NoisePseudorangeSumMix := None;
     GMMAdaptive := [] |}.

End MoreSampleInputs.

(** * Properties *)

Lemma int_of_size_t_small (n : nat) : Z.of_nat n < 2 ^ 31 → int_of_size_t n = Z.of_nat n.
Proof.
  intros Hn. unfold int_of_size_t.
  rewrite Z.mod_small; lia.
Qed.

Lemma int_of_size_t_le (n : nat) : int_of_size_t n ≤ Z.of_nat n.
Proof.
  unfold int_of_size_t.
  pose proof (Z.mod_pos_bound (Z.of_nat n + 2 ^ 31) (2 ^ 32) ltac:(lia)) as Hb.
  destruct (Z_lt_ge_dec (Z.of_nat n) (2 ^ 31)) as [Hs|Hl].
  - rewrite Z.mod_small; lia.
  - lia.
Qed.

(** Rounding keeps the order of non-negative differences. *)
Lemma double_round_nonneg a :
  0 ≤ a → double_round a = Z.min (rounded_magnitude a) (2 ^ 2098).
Proof.
  intros Ha. unfold double_round. rewrite Z.abs_eq by done.
  destruct (Z.eq_dec a 0) as [->|Hne]; [reflexivity|].
  rewrite Z.sgn_pos by lia. lia.
Qed.

Lemma rounded_magnitude_bounds a :
  0 < Z.log2 a - 52 →
  2 ^ Z.log2 a ≤ rounded_magnitude a ≤ 2 ^ (Z.log2 a + 1).
Proof.
  intros Hs. unfold rounded_magnitude. cbv zeta.
  rewrite (proj2 (Z.leb_gt _ _)) by done.
  assert (0 < a) as Ha.
  { destruct (Z.lt_trichotomy a 0) as [?|[->|?]]; [|done|done].
    rewrite Z.log2_nonpos in Hs by lia. lia. }
  set (n := Z.log2 a) in *. set (s := n - 52) in *.
  destruct (Z.log2_spec a Ha) as [Hlo Hhi]. fold n in Hlo, Hhi.
  assert (0 < 2 ^ s) as Hpow by (apply Z.pow_pos_nonneg; lia).
  assert (2 ^ n = 2 ^ 52 * 2 ^ s) as Hn.
  { rewrite <-Z.pow_add_r by lia. f_equal. unfold s. lia. }
  assert (2 ^ (n + 1) = 2 ^ 53 * 2 ^ s) as Hn1.
  { rewrite <-Z.pow_add_r by lia. f_equal. unfold s. lia. }
  replace (Z.succ n) with (n + 1) in Hhi by lia.
  pose proof (Z.div_mod a (2 ^ s) ltac:(lia)) as Hdm.
  pose proof (Z.mod_pos_bound a (2 ^ s) Hpow) as Hr.
  set (q := a / 2 ^ s) in *. set (r := a mod 2 ^ s) in *.
  assert (2 ^ 52 ≤ q < 2 ^ 53) as Hq by nia.
  rewrite Hn, Hn1.
  destruct ((r <? 2 ^ (s - 1)) || ((r =? 2 ^ (s - 1)) && Z.even q)); nia.
Qed.

Lemma rounded_magnitude_mono a b :
  0 ≤ a ≤ b → rounded_magnitude a ≤ rounded_magnitude b.
Proof.
  intros [Ha Hab].
  pose proof (Z.log2_le_mono a b Hab) as Hlog.
  destruct (Z.leb_spec (Z.log2 b - 52) 0) as [Hsb|Hsb].
  { unfold rounded_magnitude. cbv zeta.
    rewrite !(proj2 (Z.leb_le _ _)) by lia. done. }
  destruct (Z.leb_spec (Z.log2 a - 52) 0) as [Hsa|Hsa].
  { pose proof (rounded_magnitude_bounds b Hsb) as [Hb _].
    unfold rounded_magnitude at 1. cbv zeta. rewrite (proj2 (Z.leb_le _ _)) by lia.
    destruct (Z.eq_dec a 0) as [->|Hne]; [by etrans; [|exact Hb]; lia|].
    destruct (Z.log2_spec a ltac:(lia)) as [_ Hhi].
    assert (2 ^ Z.succ (Z.log2 a) ≤ 2 ^ Z.log2 b).
    { apply Z.pow_le_mono_r; lia. }
    lia. }
  destruct (Z.eq_dec (Z.log2 a) (Z.log2 b)) as [Heq|Hne].
  2:{ pose proof (rounded_magnitude_bounds a Hsa) as [_ Ha'].
      pose proof (rounded_magnitude_bounds b Hsb) as [Hb' _].
      assert (2 ^ (Z.log2 a + 1) ≤ 2 ^ Z.log2 b).
      { apply Z.pow_le_mono_r; lia. }
      lia. }
  unfold rounded_magnitude. cbv zeta.
  rewrite !(proj2 (Z.leb_gt _ _)) by done. rewrite Heq.
  set (s := Z.log2 b - 52) in *.
  assert (0 < 2 ^ s) as Hpow by (apply Z.pow_pos_nonneg; lia).
  pose proof (Z.div_mod a (2 ^ s) ltac:(lia)) as Hdma.
  pose proof (Z.div_mod b (2 ^ s) ltac:(lia)) as Hdmb.
  pose proof (Z.mod_pos_bound a (2 ^ s) Hpow) as Hra.
  pose proof (Z.mod_pos_bound b (2 ^ s) Hpow) as Hrb.
  pose proof (Z.div_le_mono a b (2 ^ s) Hpow Hab) as Hq.
  set (qa := a / 2 ^ s) in *. set (ra := a mod 2 ^ s) in *.
  set (qb := b / 2 ^ s) in *. set (rb := b mod 2 ^ s) in *.
  set (half := 2 ^ (s - 1)).
  destruct (Z.eq_dec qa qb) as [Hqq|Hqq].
  - rewrite Hqq in *. assert (ra ≤ rb) by nia.
    destruct (Z.ltb_spec ra half), (Z.ltb_spec rb half),
      (Z.eqb_spec ra half), (Z.eqb_spec rb half), (Z.even qb); simpl; nia.
  - assert (qa + 1 ≤ qb) by lia.
    destruct ((ra <? half) || ((ra =? half) && Z.even qa)),
      ((rb <? half) || ((rb =? half) && Z.even qb)); nia.
Qed.

Lemma double_round_mono a b :
  0 ≤ a ≤ b → double_round a ≤ double_round b.
Proof.
  intros Hab. rewrite !double_round_nonneg by lia.
  pose proof (rounded_magnitude_mono a b Hab). lia.
Qed.

Section StreamFacts.
Context {ObjectType : Type}.
Implicit Types (s A F B : list (Z * ObjectType)) (k t : Z) (e : Z * ObjectType).

Lemma chronological_cons e s :
  chronological (e :: s) = true ↔ Forall (λ e', e.1 ≤ e'.1) s ∧ chronological s = true.
Proof.
  simpl. rewrite andb_true_iff, forallb_forall, Forall_forall.
  split; intros [Hall Hs]; split; try done.
  - intros x Hx. apply Z.leb_le, Hall. by apply list_elem_of_In.
  - intros x Hx. apply Z.leb_le, Hall. by apply list_elem_of_In.
Qed.

Lemma lower_bound_app A s t :
  Forall (λ e, e.1 < t) A → lower_bound (A ++ s) t = (length A + lower_bound s t)%nat.
Proof.
  induction 1 as [|e A He _ IH]; simpl; [done|].
  apply Z.ltb_lt in He. by rewrite He, IH.
Qed.

Lemma lower_bound_ge s t :
  Forall (λ e, t ≤ e.1) s → lower_bound s t = 0%nat.
Proof.
  destruct 1 as [|e s He _]; simpl; [done|].
  apply Z.ltb_ge in He. by rewrite He.
Qed.

Lemma upper_bound_app A s t :
  Forall (λ e, e.1 ≤ t) A → upper_bound (A ++ s) t = (length A + upper_bound s t)%nat.
Proof.
  induction 1 as [|e A He _ IH]; simpl; [done|].
  apply Z.leb_le in He. by rewrite He, IH.
Qed.

Lemma upper_bound_gt s t :
  Forall (λ e, t < e.1) s → upper_bound s t = 0%nat.
Proof.
  destruct 1 as [|e s He _]; simpl; [done|].
  apply Z.leb_gt in He. by rewrite He.
Qed.

Lemma filter_key_all (P : Z * ObjectType → Prop) `{!∀ e, Decision (P e)} s :
  Forall P s → filter P s = s.
Proof.
  induction 1 as [|e s He _ IH]; [done|].
  by rewrite filter_cons_True, IH.
Qed.

Lemma filter_key_none (P : Z * ObjectType → Prop) `{!∀ e, Decision (P e)} s :
  Forall (λ e, ¬ P e) s → filter P s = [].
Proof.
  induction 1 as [|e s He _ IH]; [done|].
  by rewrite filter_cons_False.
Qed.

(** A chronological stream splits around any key into the entries before
    it, its equal range and the entries after it. *)
Record split_at s t A F B : Prop := {
  split_eq : s = A ++ F ++ B;
  split_lt : Forall (λ e, e.1 < t) A;
  split_eqv : Forall (λ e, e.1 = t) F;
  split_gt : Forall (λ e, t < e.1) B
}.

Lemma chronological_split s t :
  chronological s = true → ∃ A F B, split_at s t A F B.
Proof.
  induction s as [|e s IH]; intros Hs.
  - exists [], [], []. by split.
  - apply chronological_cons in Hs as [Hall Hs].
    destruct (IH Hs) as (A & F & B & [-> HA HF HB]).
    destruct (Z.lt_trichotomy e.1 t) as [Hlt|[Heq|Hgt]].
    + exists (e :: A), F, B. split; auto.
    + assert (A = []) as ->.
      { destruct A as [|a A]; [done|]. exfalso.
        apply Forall_cons in HA as [Ha _]. apply Forall_cons in Hall as [Hle _]. lia. }
      exists [], (e :: F), B. split; auto.
    + assert (A = []) as ->.
      { destruct A as [|a A]; [done|]. exfalso.
        apply Forall_cons in HA as [Ha _]. apply Forall_cons in Hall as [Hle _]. lia. }
      assert (F = []) as ->.
      { destruct F as [|f F]; [done|]. exfalso.
        apply Forall_cons in HF as [Hf _]. apply Forall_cons in Hall as [Hle _]. lia. }
      exists [], [], (e :: B). split; auto.
Qed.

Lemma split_lower_bound s t A F B : split_at s t A F B → lower_bound s t = length A.
Proof.
  intros [-> HA HF HB].
  rewrite lower_bound_app by done. rewrite lower_bound_ge; [lia|].
  apply Forall_app; split; eapply Forall_impl; eauto; simpl; lia.
Qed.

Lemma split_upper_bound s t A F B :
  split_at s t A F B → upper_bound s t = (length A + length F)%nat.
Proof.
  intros [-> HA HF HB].
  rewrite upper_bound_app by (eapply Forall_impl; eauto; simpl; lia).
  rewrite upper_bound_app by (eapply Forall_impl; eauto; simpl; lia).
  rewrite upper_bound_gt by done. lia.
Qed.

Lemma split_filter s t A F B : split_at s t A F B → filter (λ e, e.1 = t) s = F.
Proof.
  intros [-> HA HF HB].
  rewrite !filter_app.
  rewrite (filter_key_none _ A), (filter_key_none _ B), (filter_key_all _ F); try done.
  - by rewrite app_nil_r.
  - eapply Forall_impl; eauto; simpl; lia.
  - eapply Forall_impl; eauto; simpl; lia.
Qed.

Lemma split_count s t A F B : split_at s t A F B → count s t = length F.
Proof. intros Hsp. unfold count. by rewrite (split_filter _ _ _ _ _ Hsp). Qed.

Lemma split_find s t A F B :
  split_at s t A F B → find s t = if decide (F = []) then length s else length A.
Proof.
  intros Hsp. unfold find. rewrite (split_lower_bound _ _ _ _ _ Hsp).
  destruct Hsp as [-> _ HF HB].
  rewrite lookup_app_r by lia. rewrite Nat.sub_diag.
  destruct F as [|f F']; simpl.
  - destruct B as [|b B']; simpl; [done|].
    apply Forall_cons in HB as [Hb _]. apply Z.ltb_lt in Hb. by rewrite Hb.
  - apply Forall_cons in HF as [<- _]. by rewrite Z.ltb_irrefl.
Qed.

Lemma split_equal_range s t A F B :
  split_at s t A F B →
  take (upper_bound s t - lower_bound s t) (drop (lower_bound s t) s) = F.
Proof.
  intros Hsp.
  rewrite (split_upper_bound _ _ _ _ _ Hsp), (split_lower_bound _ _ _ _ _ Hsp).
  destruct Hsp as [-> _ _ _].
  rewrite drop_app_length.
  replace (length A + length F - length A)%nat with (length F) by lia.
  by rewrite take_app_length.
Qed.

Lemma Forall_emplace (P : Z * ObjectType → Prop) s k o :
  Forall P (emplace s k o) ↔ P (k, o) ∧ Forall P s.
Proof.
  induction s as [|e s IH]; simpl.
  - rewrite Forall_singleton. split; [intros ?|intros [? _]]; auto.
  - destruct (e.1 <=? k); rewrite !Forall_cons; [rewrite IH|]; tauto.
Qed.

Lemma emplace_chronological s k o :
  chronological s = true → chronological (emplace s k o) = true.
Proof.
  induction s as [|e s IH]; intros Hs; [done|].
  apply chronological_cons in Hs as [Hall Hs]. simpl emplace.
  destruct (e.1 <=? k) eqn:Hle.
  - apply chronological_cons. split; [|auto].
    apply Forall_emplace. split; [simpl; lia | done].
  - apply Z.leb_gt in Hle. apply chronological_cons. split.
    + constructor; [simpl; lia|]. eapply Forall_impl; eauto. simpl. lia.
    + apply chronological_cons. auto.
Qed.

Lemma emplace_app_le A s k o :
  Forall (λ e, e.1 ≤ k) A → emplace (A ++ s) k o = A ++ emplace s k o.
Proof.
  induction 1 as [|a A Ha _ IH]; simpl; [done|].
  apply Z.leb_le in Ha. by rewrite Ha, IH.
Qed.

Lemma emplace_gt s k o :
  Forall (λ e, k < e.1) s → emplace s k o = (k, o) :: s.
Proof.
  destruct 1 as [|e s He _]; simpl; [done|].
  apply Z.leb_gt in He. by rewrite He.
Qed.

(** The new entry lands at the end of its equal range. *)
Lemma emplace_split s k o A F B :
  split_at s k A F B → emplace s k o = A ++ (F ++ [(k, o)]) ++ B.
Proof.
  intros [-> HA HF HB].
  rewrite emplace_app_le by (eapply Forall_impl; eauto; simpl; lia).
  rewrite emplace_app_le by (eapply Forall_impl; eauto; simpl; lia).
  rewrite emplace_gt by done. by rewrite <-app_assoc.
Qed.

Lemma emplace_filter_eq s k o :
  chronological s = true →
  filter (λ e, e.1 = k) (emplace s k o) = filter (λ e, e.1 = k) s ++ [(k, o)].
Proof.
  intros Hs. destruct (chronological_split s k Hs) as (A & F & B & Hsp).
  rewrite (split_filter _ _ _ _ _ Hsp).
  apply (split_filter _ k A _ B). destruct Hsp as [-> HA HF HB].
  split; auto.
  - by apply emplace_split.
  - apply Forall_app. split; [done|]. by constructor.
Qed.

Lemma emplace_filter_ne s k k' o :
  k' ≠ k → filter (λ e, e.1 = k') (emplace s k o) = filter (λ e, e.1 = k') s.
Proof.
  intros Hne. induction s as [|e s IH]; simpl.
  - by rewrite filter_cons_False.
  - destruct (e.1 <=? k).
    + rewrite !filter_cons, IH. done.
    + by rewrite (filter_cons_False _ (k, o)).
Qed.

Lemma delete_app_r A s (i : nat) : delete (length A + i)%nat (A ++ s) = A ++ delete i s.
Proof. induction A as [|a A IH]; simpl; [done|]. by rewrite IH. Qed.

Lemma delete_app_l F B (i : nat) : (i < length F)%nat → delete i (F ++ B) = delete i F ++ B.
Proof.
  revert i. induction F as [|f F IH]; intros [|i] Hi; simpl in *; try lia; [done|].
  rewrite IH by lia. done.
Qed.

Lemma delete_chronological s (i : nat) :
  chronological s = true → chronological (delete i s) = true.
Proof.
  revert i. induction s as [|e s IH]; intros i Hs; [done|].
  apply chronological_cons in Hs as [Hall Hs].
  destruct i as [|i]; simpl; [done|].
  change (chronological (e :: delete i s) = true).
  apply chronological_cons. split; [by apply Forall_delete | by apply IH].
Qed.

Lemma delete_split s t A F B (i : nat) :
  split_at s t A F B → (i < length F)%nat →
  split_at (delete (length A + i)%nat s) t A (delete i F) B.
Proof.
  intros [-> HA HF HB] Hi. split; auto.
  - by rewrite delete_app_r, delete_app_l.
  - by apply Forall_delete.
Qed.

Lemma chronological_app_le A e s :
  chronological (A ++ e :: s) = true → Forall (λ a, a.1 ≤ e.1) A.
Proof.
  induction A as [|a A IH]; intros Hs; [done|].
  simpl app in Hs. apply chronological_cons in Hs as [Hall Hs].
  constructor; [|auto].
  apply Forall_app in Hall as [_ Hall]. by apply Forall_cons in Hall as [? _].
Qed.

Lemma chronological_app_r A s : chronological (A ++ s) = true → chronological s = true.
Proof.
  induction A as [|a A IH]; intros Hs; [done|].
  simpl app in Hs. apply chronological_cons in Hs as [_ Hs]. auto.
Qed.

Lemma chronological_head_le e s :
  chronological (e :: s) = true → Forall (λ e', e.1 ≤ e'.1) (e :: s).
Proof. intros [? _]%chronological_cons. constructor; [lia | done]. Qed.

End StreamFacts.

Section DataSetFacts.
Context {KeyType : Type} `{Countable KeyType} {ObjectType : Type}.
Implicit Types (ds : DataSet KeyType ObjectType).
Implicit Types (s : list (Z * ObjectType)) (ID : KeyType) (t : Z).

Lemma wf_lookup ds ID s :
  wf ds → _DataStreams ds !! ID = Some s → chronological s = true ∧ s ≠ [].
Proof. intros Hwf Hs. exact (Hwf ID s Hs). Qed.

Lemma wf_default (o : ObjectType) : wf (DataSet_default (KeyType:=KeyType) o).
Proof. unfold wf, DataSet_default. simpl. apply map_Forall_empty. Qed.

Lemma checkID_lookup ds ID : checkID ds ID = bool_decide (_DataStreams ds !! ID ≠ None).
Proof.
  unfold checkID. apply bool_decide_ext. rewrite <-not_eq_None_Some. done.
Qed.

Lemma addElement_streams ds ID t o :
  _DataStreams (addElement ds ID t o)
  = <[ID := emplace (default [] (_DataStreams ds !! ID)) t o]> (_DataStreams ds).
Proof.
  unfold addElement, checkID. simpl.
  destruct (_DataStreams ds !! ID) as [s|] eqn:Hs.
  - rewrite bool_decide_eq_true_2 by eauto. by rewrite Hs.
  - rewrite bool_decide_eq_false_2 by (intros [? ?]; done).
    rewrite lookup_insert_eq. simpl. by rewrite insert_insert_eq.
Qed.

Lemma emplace_not_nil s t o : emplace s t o ≠ [].
Proof. destruct s as [|e s]; simpl; [done|]. by destruct (e.1 <=? t). Qed.

Lemma addElement_wf ds ID t o : wf ds → wf (addElement ds ID t o).
Proof.
  intros Hwf. unfold wf. rewrite addElement_streams.
  apply map_Forall_insert_2; [|done].
  split; [|apply emplace_not_nil].
  apply emplace_chronological.
  destruct (_DataStreams ds !! ID) as [s|] eqn:Hs; simpl; [|done].
  by destruct (wf_lookup _ _ _ Hwf Hs).
Qed.

Lemma addElement_elements_at ds ID t o ID' t' :
  wf ds →
  elements_at (addElement ds ID t o) ID' t'
  = elements_at ds ID' t' ++ (if decide (ID = ID' ∧ t = t') then [o] else []).
Proof.
  intros Hwf. unfold elements_at. rewrite addElement_streams.
  destruct (decide (ID = ID')) as [<-|Hne].
  - rewrite lookup_insert_eq.
    assert (chronological (default [] (_DataStreams ds !! ID)) = true) as Hc.
    { destruct (_DataStreams ds !! ID) as [s|] eqn:Hs; simpl; [|done].
      by destruct (wf_lookup _ _ _ Hwf Hs). }
    assert (∀ k, (filter (λ e, e.1 = k) (default [] (_DataStreams ds !! ID))).*2
                 = match _DataStreams ds !! ID with
                   | Some s => (filter (λ e, e.1 = k) s).*2 | None => [] end) as Hd.
    { intros k. by destruct (_DataStreams ds !! ID). }
    destruct (decide (t = t')) as [<-|Hnt].
    + rewrite decide_True by done. rewrite emplace_filter_eq by done.
      by rewrite fmap_app, Hd.
    + rewrite decide_False by tauto. rewrite emplace_filter_ne by done.
      by rewrite Hd, app_nil_r.
  - rewrite lookup_insert_ne by done. rewrite decide_False by tauto.
    by rewrite app_nil_r.
Qed.

Lemma add_all_snoc ds ops op :
  add_all ds (ops ++ [op]) = addElement (add_all ds ops) op.1.1 op.1.2 op.2.
Proof. unfold add_all. by rewrite foldl_snoc. Qed.

Lemma add_all_wf ds ops : wf ds → wf (add_all ds ops).
Proof.
  intros Hwf. induction ops as [|op ops IH] using rev_ind; [done|].
  rewrite add_all_snoc. by apply addElement_wf.
Qed.

Lemma add_all_elements_at ds ops ID t :
  wf ds →
  elements_at (add_all ds ops) ID t = elements_at ds ID t ++ inserted_at ops ID t.
Proof.
  intros Hwf. induction ops as [|op ops IH] using rev_ind.
  - unfold inserted_at. simpl. by rewrite app_nil_r.
  - rewrite add_all_snoc, addElement_elements_at by by apply add_all_wf.
    rewrite IH. unfold inserted_at. rewrite filter_app, fmap_app, app_assoc.
    f_equal. rewrite filter_singleton by done. simpl.
    repeat case_decide; done.
Qed.

Lemma bind_Ok {X Y} (x : X) (f : X → result Y) : (Ok x ≫= f) = f x.
Proof. reflexivity. Qed.

Lemma map_at_lookup ds ID s : _DataStreams ds !! ID = Some s → map_at ds ID = Ok s.
Proof. unfold map_at. by intros ->. Qed.

Lemma advance_Ok s (It : nat) (n : Z) :
  0 ≤ Z.of_nat It + n ≤ Z.of_nat (length s) → advance s It n = Ok (Z.to_nat (Z.of_nat It + n)).
Proof.
  intros Hn. unfold advance.
  by rewrite (proj2 (Z.leb_le _ _)), (proj2 (Z.leb_le _ _)) by lia.
Qed.

Lemma elements_at_split ds ID t s A F B :
  _DataStreams ds !! ID = Some s → split_at s t A F B → elements_at ds ID t = F.*2.
Proof. intros Hs Hsp. unfold elements_at. by rewrite Hs, (split_filter _ _ _ _ _ Hsp). Qed.

Lemma countElement_split ds ID t s A F B :
  _DataStreams ds !! ID = Some s → split_at s t A F B →
  countElement ds ID t = int_of_size_t (length F).
Proof. intros Hs Hsp. unfold countElement. by rewrite Hs, (split_count _ _ _ _ _ Hsp). Qed.

Lemma getElements_elements_at ds ID t :
  wf ds → getElements ds ID t = elements_at ds ID t.
Proof.
  intros Hwf. unfold getElements, elements_at.
  destruct (_DataStreams ds !! ID) as [s|] eqn:Hs; [|done].
  destruct (wf_lookup _ _ _ Hwf Hs) as [Hc _].
  destruct (chronological_split s t Hc) as (A & F & B & Hsp).
  by rewrite (split_equal_range _ _ _ _ _ Hsp), (split_filter _ _ _ _ _ Hsp).
Qed.

(** With a stored element at index [i], both accessors reach it. *)
Lemma getElement_stored ds ID t (i : nat) o :
  wf ds →
  Z.of_nat (length (elements_at ds ID t)) < 2 ^ 31 →
  elements_at ds ID t !! i = Some o →
  ∃ It, getElement ds ID t (Z.of_nat i) = Ok (Stored ID It)
        ∧ deref ds (Stored ID It) = Some o
        ∧ ∀ Element, getElement_copy ds ID t (Z.of_nat i) Element = Ok (true, o).
Proof.
  intros Hwf Hlen Hi.
  destruct (_DataStreams ds !! ID) as [s|] eqn:Hs;
    [|by unfold elements_at in Hi; rewrite Hs in Hi].
  destruct (wf_lookup _ _ _ Hwf Hs) as [Hc _].
  destruct (chronological_split s t Hc) as (A & F & B & Hsp).
  rewrite (elements_at_split _ _ _ _ _ _ _ Hs Hsp) in Hi, Hlen.
  rewrite length_fmap in Hlen.
  pose proof (lookup_lt_Some _ _ _ Hi) as Hlt. rewrite length_fmap in Hlt.
  assert (checkElement ds ID t (Z.of_nat i) = true) as Hck.
  { unfold checkElement. rewrite (countElement_split _ _ _ _ _ _ _ Hs Hsp).
    rewrite int_of_size_t_small by done. apply Z.gtb_lt. lia. }
  assert (length s = length A + length F + length B)%nat as Hls.
  { destruct Hsp as [-> _ _ _]. rewrite !length_app. lia. }
  assert (find s t = length A) as Hfind.
  { rewrite (split_find _ _ _ _ _ Hsp). rewrite decide_False; [done|].
    intros ->. simpl in Hlt. lia. }
  assert (snd <$> s !! (length A + i)%nat = Some o) as Hread.
  { destruct Hsp as [-> _ _ _].
    rewrite lookup_app_r by lia. rewrite lookup_app_l by lia.
    replace (length A + i - length A)%nat with i by lia.
    by rewrite <-list_lookup_fmap. }
  exists (length A + i)%nat. split; [|split].
  - unfold getElement. rewrite Hck, (map_at_lookup _ _ _ Hs), bind_Ok, Hfind.
    rewrite advance_Ok by lia. rewrite bind_Ok.
    replace (Z.to_nat (Z.of_nat (length A) + Z.of_nat i)) with (length A + i)%nat by lia.
    by rewrite bool_decide_eq_true_2 by lia.
  - simpl. rewrite Hs. simpl. done.
  - intros Element. unfold getElement_copy.
    rewrite Hck, (map_at_lookup _ _ _ Hs), bind_Ok, Hfind.
    rewrite advance_Ok by lia. rewrite bind_Ok.
    replace (Z.to_nat (Z.of_nat (length A) + Z.of_nat i)) with (length A + i)%nat by lia.
    destruct (s !! (length A + i)%nat) as [e|]; simpl in Hread; [|done].
    by injection Hread as ->.
Qed.

(** Erasing a stored element by index keeps the others in place. *)
Lemma removeElement_stored ds ID t (i : nat) :
  wf ds →
  Z.of_nat (length (elements_at ds ID t)) < 2 ^ 31 →
  (i < length (elements_at ds ID t))%nat →
  ∃ ds', removeElement ds ID t (Z.of_nat i) = Ok ds'
         ∧ wf ds'
         ∧ elements_at ds' ID t = delete i (elements_at ds ID t).
Proof.
  intros Hwf Hlen Hlt.
  destruct (_DataStreams ds !! ID) as [s|] eqn:Hs;
    [|by unfold elements_at in Hlt; rewrite Hs in Hlt; simpl in Hlt; lia].
  destruct (wf_lookup _ _ _ Hwf Hs) as [Hc _].
  destruct (chronological_split s t Hc) as (A & F & B & Hsp).
  rewrite (elements_at_split _ _ _ _ _ _ _ Hs Hsp) in Hlt, Hlen |- *.
  rewrite length_fmap in Hlen, Hlt.
  assert (checkElement ds ID t (Z.of_nat i) = true) as Hck.
  { unfold checkElement. rewrite (countElement_split _ _ _ _ _ _ _ Hs Hsp).
    rewrite int_of_size_t_small by done. apply Z.gtb_lt. lia. }
  assert (length s = length A + length F + length B)%nat as Hls.
  { destruct Hsp as [-> _ _ _]. rewrite !length_app. lia. }
  assert (find s t = length A) as Hfind.
  { rewrite (split_find _ _ _ _ _ Hsp). rewrite decide_False; [done|].
    intros ->. simpl in Hlt. lia. }
  pose proof (delete_split _ _ _ _ _ i Hsp Hlt) as Hsp'.
  eexists. split; [|split].
  - unfold removeElement. rewrite Hck, (map_at_lookup _ _ _ Hs), bind_Ok, Hfind.
    rewrite advance_Ok by lia. rewrite bind_Ok.
    replace (Z.to_nat (Z.of_nat (length A) + Z.of_nat i)) with (length A + i)%nat by lia.
    rewrite bool_decide_eq_true_2 by lia. reflexivity.
  - unfold wf. simpl. unfold erase_empty.
    destruct (delete (length A + i)%nat s) as [|e s'] eqn:Hd.
    + by apply map_Forall_delete.
    + apply map_Forall_insert_2; [|done]. split; [|done].
      rewrite <-Hd. by apply delete_chronological.
  - unfold elements_at. simpl. unfold erase_empty.
    rewrite <-list_fmap_delete, <-(split_filter _ _ _ _ _ Hsp').
    destruct (delete (length A + i)%nat s) as [|e s'] eqn:Hd.
    + by rewrite lookup_delete_eq.
    + by rewrite lookup_insert_eq.
Qed.

(** C4: objects added at one key and timestamp are read back by
    [getElement] at the index of their insertion, after those already
    stored there; erasing one of them by index leaves the others in their
    order. The element count at the timestamp is within [int]. *)
Theorem addElement_getElement_in_insertion_order
    ds (ops : list (KeyType * Z * ObjectType)) ID t :
  wf ds →
  let ds1 := add_all ds ops in
  let objs := elements_at ds ID t ++ inserted_at ops ID t in
  Z.of_nat (length objs) < 2 ^ 31 →
  (∀ (i : nat) o, objs !! i = Some o →
     ∃ r, getElement ds1 ID t (Z.of_nat i) = Ok r ∧ deref ds1 r = Some o)
  ∧ (∀ j : nat, (j < length objs)%nat →
     ∃ ds2, removeElement ds1 ID t (Z.of_nat j) = Ok ds2
            ∧ getElements ds2 ID t = delete j objs
            ∧ ∀ (i : nat) o, delete j objs !! i = Some o →
                ∃ r, getElement ds2 ID t (Z.of_nat i) = Ok r ∧ deref ds2 r = Some o).
Proof.
  intros Hwf ds1 objs Hlen.
  assert (wf ds1) as Hwf1 by by apply add_all_wf.
  assert (elements_at ds1 ID t = objs) as Hobjs by by apply add_all_elements_at.
  split.
  - intros i o Hi. rewrite <-Hobjs in Hi, Hlen.
    destruct (getElement_stored _ _ _ _ _ Hwf1 Hlen Hi) as (It & Hget & Hd & _).
    eauto.
  - intros j Hj. rewrite <-Hobjs in Hj, Hlen.
    destruct (removeElement_stored _ _ _ _ Hwf1 Hlen Hj) as (ds2 & Hrm & Hwf2 & Hel).
    exists ds2. rewrite Hobjs in Hel. split; [done|]. split.
    + by rewrite getElements_elements_at.
    + intros i o Hi. rewrite <-Hel in Hi.
      assert (Z.of_nat (length (elements_at ds2 ID t)) < 2 ^ 31) as Hlen2.
      { rewrite Hel. rewrite Hobjs in Hlen.
        pose proof (sublist_length _ _ (sublist_delete objs j)). lia. }
      destruct (getElement_stored _ _ _ _ _ Hwf2 Hlen2 Hi) as (It & Hget & Hd & _).
      eauto.
Qed.

Lemma countElement_le ds ID t :
  countElement ds ID t ≤ Z.of_nat (length (elements_at ds ID t)).
Proof.
  unfold countElement, elements_at. destruct (_DataStreams ds !! ID) as [s|]; [|done].
  rewrite length_fmap. apply int_of_size_t_le.
Qed.

(** C1 (amended): where nothing is stored at a non-negative index, the
    copying accessor returns [false] and leaves its output alone, and the
    reference accessor returns a reference to the data set's [NullObject]:
    an object of its own that can be read and written, a write changing
    no stream. *)
Theorem getElement_absent ds ID t Number :
  0 ≤ Number →
  elements_at ds ID t !! Z.to_nat Number = None →
  (∀ Element, getElement_copy ds ID t Number Element = Ok (false, Element))
  ∧ getElement ds ID t Number = Ok Null
  ∧ deref ds Null = Some (NullObject ds)
  ∧ ∀ f, deref (assign ds Null f) Null = Some (f (NullObject ds))
         ∧ _DataStreams (assign ds Null f) = _DataStreams ds.
Proof.
  intros Hn Habs. apply lookup_ge_None in Habs.
  assert (checkElement ds ID t Number = false) as Hck.
  { unfold checkElement. pose proof (countElement_le ds ID t).
    destruct (countElement ds ID t >? Number) eqn:Hgt; [|done].
    apply Z.gtb_lt in Hgt. lia. }
  unfold getElement_copy, getElement. rewrite Hck. done.
Qed.

(** C10: in [getTimeCloseTo] the key at the lower bound is read before the
    iterator is compared with [end()]; when every stored timestamp is
    below the query the lower bound is [end()], the read has no entry to
    read, and the call is undefined. *)
Theorem getTimeCloseTo_reads_past_the_end ds ID s t :
  _DataStreams ds !! ID = Some s →
  s ≠ [] →
  Forall (λ e, e.1 < t) s →
  lower_bound s t = length s
  ∧ key_at s (lower_bound s t) = None
  ∧ getTimeCloseTo ds ID t = Undefined.
Proof.
  intros Hs Hne Hall.
  assert (lower_bound s t = length s) as Hlb.
  { pose proof (lower_bound_app s [] t Hall) as Hlb.
    rewrite app_nil_r in Hlb. simpl in Hlb. lia. }
  assert (key_at s (length s) = None) as Hkey.
  { unfold key_at. by rewrite lookup_ge_None_2. }
  rewrite Hlb. split; [done|]. split; [done|].
  unfold getTimeCloseTo, checkID.
  rewrite bool_decide_eq_true_2 by (rewrite Hs; eauto). simpl.
  rewrite (map_at_lookup _ _ _ Hs), bind_Ok, Hlb.
  unfold first. by rewrite Hkey.
Qed.

Lemma first_lookup s (It : nat) e : s !! It = Some e → first s It = Ok e.1.
Proof. intros Hs. unfold first, key_at. by rewrite Hs. Qed.

(** Where [countElement] is 1, [getTimePrev] returns the key of the entry
    before the equal range. *)
Lemma getTimePrev_single ds ID t s A F B :
  _DataStreams ds !! ID = Some s → split_at s t A F B →
  countElement ds ID t = 1 →
  getTimePrev ds ID t = Ok (fst <$> last A).
Proof.
  intros Hs Hsp Hc. unfold getTimePrev. rewrite Hc. simpl.
  rewrite (map_at_lookup _ _ _ Hs), bind_Ok.
  assert (F ≠ []) as HF.
  { intros ->. by rewrite (countElement_split _ _ _ _ _ _ _ Hs Hsp) in Hc. }
  rewrite (split_find _ _ _ _ _ Hsp), decide_False by done.
  assert (length s = length A + length F + length B)%nat as Hls.
  { destruct Hsp as [-> _ _ _]. rewrite !length_app. lia. }
  rewrite advance_Ok by lia. rewrite bind_Ok, Z.add_0_r, Nat2Z.id.
  destruct A as [|a A] using rev_ind; [done|]. clear IHA.
  rewrite length_app in *. simpl in *.
  rewrite bool_decide_eq_true_2 by lia.
  rewrite advance_Ok by lia. rewrite bind_Ok.
  replace (Z.to_nat (Z.of_nat (length A + 1) + -1)) with (length A) by lia.
  rewrite last_snoc. simpl.
  rewrite (first_lookup _ _ a); [done|].
  destruct Hsp as [-> _ _ _].
  rewrite <-app_assoc. by apply list_lookup_middle.
Qed.

(** X1: where [t] carries one element, the successor of its predecessor
    is [t] again. *)
Lemma getTimeNext_getTimePrev_single ds ID t p n :
  wf ds →
  countElement ds ID t = 1 →
  getTimePrev ds ID t = Ok (Some p) →
  getTimeNext ds ID p = Ok (Some n) →
  n = t.
Proof.
  intros Hwf Hc Hprev Hnext.
  destruct (_DataStreams ds !! ID) as [s|] eqn:Hs;
    [|by unfold countElement in Hc; rewrite Hs in Hc].
  destruct (wf_lookup _ _ _ Hwf Hs) as [Hchr _].
  destruct (chronological_split s t Hchr) as (A & F & B & Hsp).
  rewrite (getTimePrev_single _ _ _ _ _ _ _ Hs Hsp Hc) in Hprev.
  destruct A as [|a A _] using rev_ind; [done|].
  rewrite last_snoc in Hprev. simpl in Hprev. injection Hprev as Hp.
  assert (F ≠ []) as HF.
  { intros ->. by rewrite (countElement_split _ _ _ _ _ _ _ Hs Hsp) in Hc. }
  destruct F as [|f F]; [done|].
  destruct Hsp as [-> HA HFt HB].
  apply Forall_app in HA as [HA Ha]. rewrite Forall_singleton in Ha.
  apply Forall_cons in HFt as [Hf HFt].
  rewrite <-app_assoc in Hchr. simpl in Hchr.
  pose proof (chronological_app_le _ _ _ Hchr) as HAle.
  assert (upper_bound ((A ++ [a]) ++ (f :: F) ++ B) p = length (A ++ [a])) as Hub.
  { rewrite upper_bound_app.
    - rewrite upper_bound_gt; [lia|].
      apply Forall_app. split.
      + constructor; [simpl; lia|]. eapply Forall_impl; eauto. simpl. lia.
      + eapply Forall_impl; eauto. simpl. lia.
    - apply Forall_app. split; [|apply Forall_singleton; simpl; lia].
      eapply Forall_impl; eauto. simpl. lia. }
  unfold getTimeNext in Hnext.
  destruct (checkElement ds ID p 0); [|done].
  rewrite (map_at_lookup _ _ _ Hs), bind_Ok, Hub in Hnext.
  rewrite bool_decide_eq_true_2 in Hnext
    by (rewrite !length_app; simpl; lia).
  rewrite (first_lookup _ _ f) in Hnext by (by apply list_lookup_middle).
  rewrite bind_Ok in Hnext. injection Hnext as <-. done.
Qed.

Local Ltac key_stored :=
  rewrite ?fmap_app, ?fmap_cons, ?elem_of_app, ?elem_of_cons; auto 6.

(** X2: between two adjacent timestamps at equal distance,
    [getTimeCloseTo] returns the newer one where that one carries one
    element. *)
Lemma getTimeCloseTo_tie_single ds ID s t lo hi :
  wf ds →
  _DataStreams ds !! ID = Some s →
  lo ∈ s.*1 → hi ∈ s.*1 →
  (∀ k, k ∈ s.*1 → ¬ (lo < k < hi)) →
  lo < t < hi →
  hi - t = t - lo →
  countElement ds ID hi = 1 →
  getTimeCloseTo ds ID t = Ok (Some hi).
Proof.
  intros Hwf Hs Hlo Hhi Hadj Ht Htie Hc.
  destruct (wf_lookup _ _ _ Hwf Hs) as [Hchr _].
  destruct (chronological_split s t Hchr) as (A & F & B & Hsp).
  pose proof (split_lower_bound _ _ _ _ _ Hsp) as Hlb.
  destruct Hsp as [Heq HA HF HB].
  assert (F = []) as ->.
  { destruct F as [|f F]; [done|]. exfalso.
    apply Forall_cons in HF as [Hf _].
    apply (Hadj f.1); [|lia]. subst s. key_stored. }
  simpl in Heq.
  assert (∀ k, k ∈ s.*1 → k < t → k ∈ A.*1) as HinA.
  { intros k Hk Hkt. subst s. rewrite fmap_app in Hk.
    apply elem_of_app in Hk as [?|Hk]; [done|]. exfalso.
    apply list_elem_of_fmap in Hk as (e & -> & He).
    rewrite Forall_forall in HB. specialize (HB e He). lia. }
  assert (∀ k, k ∈ s.*1 → t < k → k ∈ B.*1) as HinB.
  { intros k Hk Hkt. subst s. rewrite fmap_app in Hk.
    apply elem_of_app in Hk as [Hk|?]; [|done]. exfalso.
    apply list_elem_of_fmap in Hk as (e & -> & He).
    rewrite Forall_forall in HA. specialize (HA e He). lia. }
  specialize (HinA lo Hlo ltac:(lia)). specialize (HinB hi Hhi ltac:(lia)).
  destruct B as [|b B]; [by apply elem_of_nil in HinB|].
  destruct A as [|a A _] using rev_ind; [by apply elem_of_nil in HinA|].
  assert (b.1 = hi) as Hb.
  { pose proof (chronological_head_le _ _
      (chronological_app_r (A ++ [a]) (b :: B) ltac:(by rewrite <-Heq))) as Hle.
    apply list_elem_of_fmap in HinB as (e & -> & He).
    rewrite Forall_forall in Hle. specialize (Hle e He).
    apply Forall_cons in HB as [Hbt _].
    assert (¬ (lo < b.1 < e.1)) as Hn.
    { apply Hadj. subst s. key_stored. }
    simpl in *. lia. }
  assert (a.1 = lo) as Ha.
  { rewrite Heq, <-app_assoc in Hchr. simpl in Hchr.
    pose proof (chronological_app_le _ _ _ Hchr) as Hle.
    apply Forall_app in HA as [_ Hat]. rewrite Forall_singleton in Hat.
    assert (¬ (lo < a.1 < hi)) as Hn.
    { apply Hadj. subst s. key_stored. }
    assert (lo ≤ a.1); [|lia].
    rewrite fmap_app in HinA. apply elem_of_app in HinA as [Hin|Hin].
    - apply list_elem_of_fmap in Hin as (e & -> & He).
      rewrite Forall_forall in Hle. by apply Hle.
    - apply list_elem_of_fmap in Hin as (e & -> & He).
      apply list_elem_of_singleton in He as ->. lia. }
  (* the split around [hi] has the same entries before it *)
  destruct (chronological_split s hi Hchr) as (A2 & F2 & B2 & Hsp2).
  assert (A2 = A ++ [a]) as ->.
  { pose proof (split_lower_bound _ _ _ _ _ Hsp2) as Hlb2.
    assert (lower_bound s hi = length (A ++ [a])) as Hlb3.
    { rewrite Heq, lower_bound_app; [|eapply Forall_impl; eauto; simpl; lia].
      simpl. rewrite Hb, Z.ltb_irrefl. lia. }
    destruct Hsp2 as [Heq2 _ _ _]. rewrite Heq in Heq2.
    by apply app_inj_1 in Heq2 as [-> _]; [|lia]. }
  pose proof (getTimePrev_single _ _ _ _ _ _ _ Hs Hsp2 Hc) as Hprev.
  rewrite last_snoc in Hprev. simpl in Hprev.
  unfold getTimeCloseTo, checkID.
  rewrite bool_decide_eq_true_2 by (rewrite Hs; eauto). simpl.
  rewrite (map_at_lookup _ _ _ Hs), bind_Ok, Hlb.
  rewrite (first_lookup _ _ b) by (rewrite Heq; by apply list_lookup_middle).
  rewrite bind_Ok, Hb.
  rewrite (bool_decide_eq_false_2 (hi = t)) by lia.
  assert (length (A ++ [a]) ≠ length s) as Hne.
  { rewrite Heq, !length_app. simpl. lia. }
  assert (length (A ++ [a]) ≠ 0%nat) as Hne0.
  { rewrite length_app. simpl. lia. }
  rewrite (bool_decide_eq_false_2 (length (A ++ [a]) = length s)) by done.
  rewrite (bool_decide_eq_true_2 (length (A ++ [a]) ≠ length s)) by done.
  rewrite (bool_decide_eq_false_2 (length (A ++ [a]) = 0%nat)) by done.
  rewrite (bool_decide_eq_true_2 (length (A ++ [a]) ≠ 0%nat)) by done.
  simpl. rewrite Hprev, bind_Ok, Ha.
  unfold double_sub. rewrite Htie. by rewrite Z.leb_refl.
Qed.

Lemma countElement_elements_at ds ID t :
  countElement ds ID t = int_of_size_t (length (elements_at ds ID t)).
Proof.
  unfold countElement, elements_at, count.
  destruct (_DataStreams ds !! ID); [|done]. by rewrite length_fmap.
Qed.

Lemma getElement_value_stored ds ID t (i : nat) o :
  wf ds →
  Z.of_nat (length (elements_at ds ID t)) < 2 ^ 31 →
  elements_at ds ID t !! i = Some o →
  getElement_value ds ID t (Z.of_nat i) = Ok o.
Proof.
  intros Hwf Hlen Hi.
  destruct (getElement_stored _ _ _ _ _ Hwf Hlen Hi) as (It & Hget & Hd & _).
  unfold getElement_value. by rewrite Hget, bind_Ok, Hd.
Qed.
End DataSetFacts.

Section ProgFacts.
Context `{Library}.
Context {W : Type} (h : ∀ e, W → answer e * W).

Lemma after_nil {A} (o : outcome A W) : after [] o = o.
Proof. by destruct o. Qed.

Lemma after_app {A} (l1 l2 : list Event) (o : outcome A W) :
  after l1 (after l2 o) = after (l1 ++ l2) o.
Proof. destruct o; simpl; by rewrite app_assoc. Qed.

Lemma run_bind {A B} (p : Prog A) (f : A → Prog B) (w : W) :
  run h (p ≫= f) w =
  match run h p w with
  | Returned a w' trace => after trace (run h (f a) w')
  | Raised trace => Raised trace
  | Undefined_behaviour trace => Undefined_behaviour trace
  end.
Proof.
  revert w. induction p as [a| | |e k IH]; intros w; simpl; try done.
  - by rewrite after_nil.
  - destruct (h e w) as [r w']. 
    change (after [e] (run h (k r ≫= f) w') = 
       match after [e] (run h (k r) w') with
       | Returned a w'0 trace => after trace (run h (f a) w'0)
       | Raised trace => Raised trace
       | Undefined_behaviour trace => Undefined_behaviour trace
       end).
    rewrite IH. destruct (run h (k r) w'); simpl; try done.
    by rewrite after_app.
Qed.

Lemma run_call_bind {B} (e : Event) (f : answer e → Prog B) w :
  run h (call e ≫= f) w = after [e] (run h (f (h e w).1) (h e w).2).
Proof.
  rewrite run_bind. simpl. destruct (h e w) as [r w']. simpl.
  by destruct (run h (f r) w').
Qed.

Lemma run_bind_Returned {A B} (p : Prog A) (f : A → Prog B) w b w2 trace :
  run h (p ≫= f) w = Returned b w2 trace →
  ∃ a w1 trace1 trace2,
    run h p w = Returned a w1 trace1
    ∧ run h (f a) w1 = Returned b w2 trace2
    ∧ trace = trace1 ++ trace2.
Proof.
  rewrite run_bind. destruct (run h p w) as [a w1 trace1| |]; try done.
  destruct (run h (f a) w1) as [b' w2' trace2| |] eqn:Hf; try done.
  simpl. intros [= -> -> <-]. eauto 10.
Qed.

Lemma run_call_Returned {B} (e : Event) (f : answer e → Prog B) w b w2 trace :
  run h (call e ≫= f) w = Returned b w2 trace →
  ∃ trace2, run h (f (h e w).1) (h e w).2 = Returned b w2 trace2
            ∧ trace = e :: trace2.
Proof.
  intros Hr. apply run_bind_Returned in Hr as (a & w1 & t1 & t2 & Hc & Hf & ->).
  simpl in Hc. destruct (h e w) as [r w']. simpl in *.
  injection Hc as <- <- <-. eauto.
Qed.

Lemma run_lift_Returned {A B} (r : result A) (f : A → Prog B) w b w2 trace :
  run h (lift r ≫= f) w = Returned b w2 trace →
  ∃ a, r = Ok a ∧ run h (f a) w = Returned b w2 trace.
Proof.
  intros Hr. apply run_bind_Returned in Hr as (a & w1 & t1 & t2 & Hc & Hf & ->).
  destruct r; simpl in Hc; try done. injection Hc as <- <- <-. eauto.
Qed.

Lemma run_ret_Returned {A} (a : A) w b w2 trace :
  run h (mret a) w = Returned b w2 trace → b = a ∧ w2 = w ∧ trace = [].
Proof. simpl. by intros [= <- <- <-]. Qed.

End ProgFacts.

Section TuneFacts.
Context `{Library}.

Lemma length_insert_by_weight c (gmm : GaussianMixture) :
  length (insert_by_weight c gmm) = S (length gmm).
Proof.
  induction gmm as [|d gmm IH]; simpl; [done|].
  destruct (PrimFloat.ltb (Weight d) (Weight c)); simpl; by rewrite ?IH.
Qed.

Lemma length_sortComponentsByWeight (gmm : GaussianMixture) :
  length (sortComponentsByWeight gmm) = length gmm.
Proof.
  unfold sortComponentsByWeight.
  assert (∀ acc : GaussianMixture,
    length (foldl (λ sorted c, insert_by_weight c sorted) acc gmm)
    = (length acc + length gmm)%nat) as Hgen.
  { induction gmm as [|c gmm IH]; intros acc; simpl; [lia|].
    rewrite IH, length_insert_by_weight. lia. }
  by rewrite Hgen.
Qed.

(** [<] on doubles is a strict order, NaN included: it compares no NaN. *)
Local Ltac compare_cases :=
  repeat match goal with
  | |- context [Z.compare ?a ?b] => destruct (Z.compare_spec a b)
  | H : context [Z.compare ?a ?b] |- _ => destruct (Z.compare_spec a b)
  | |- context [Pos.compare_cont Eq ?a ?b] =>
      change (Pos.compare_cont Eq a b) with (Pos.compare a b);
      destruct (Pos.compare_spec a b)
  | H : context [Pos.compare_cont Eq ?a ?b] |- _ =>
      change (Pos.compare_cont Eq a b) with (Pos.compare a b) in H;
      destruct (Pos.compare_spec a b)
  end.

Lemma SFltb_trans x y z :
  SFltb x y = true → SFltb y z = true → SFltb x z = true.
Proof.
  unfold SFltb, SFcompare.
  destruct x as [[]|[]| |[] mx ex], y as [[]|[]| |[] my ey], z as [[]|[]| |[] mz ez];
    try done; compare_cases; simpl; try done; try lia.
Qed.

Lemma SFltb_asym x y : SFltb x y = true → SFltb y x = false.
Proof.
  unfold SFltb, SFcompare.
  destruct x as [[]|[]| |[] mx ex], y as [[]|[]| |[] my ey];
    try done; compare_cases; simpl; try done; try lia.
Qed.

Lemma ltb_trans (x y z : float) :
  PrimFloat.ltb x y = true → PrimFloat.ltb y z = true → PrimFloat.ltb x z = true.
Proof. rewrite !ltb_spec. apply SFltb_trans. Qed.

Lemma ltb_asym (x y : float) :
  PrimFloat.ltb x y = true → PrimFloat.ltb y x = false.
Proof. rewrite !ltb_spec. apply SFltb_asym. Qed.

(** [d] may stand in front of [c] in a mixture sorted by weight: it is
    not the lighter one. *)
Definition not_lighter (d c : GaussianComponent) : Prop :=
  PrimFloat.ltb (Weight d) (Weight c) = false.

Lemma insert_by_weight_Permutation c (gmm : GaussianMixture) :
  insert_by_weight c gmm ≡ₚ c :: gmm.
Proof.
  induction gmm as [|d gmm IH]; simpl; [done|].
  destruct (PrimFloat.ltb (Weight d) (Weight c)); [done|].
  rewrite IH. apply Permutation_swap.
Qed.

Lemma sortComponentsByWeight_Permutation (gmm : GaussianMixture) :
  sortComponentsByWeight gmm ≡ₚ gmm.
Proof.
  unfold sortComponentsByWeight.
  assert (∀ acc : GaussianMixture,
    foldl (λ sorted c, insert_by_weight c sorted) acc gmm ≡ₚ acc ++ gmm) as Hgen.
  { induction gmm as [|c gmm IH]; intros acc; simpl; [by rewrite app_nil_r|].
    rewrite IH, insert_by_weight_Permutation. simpl. apply Permutation_middle. }
  by rewrite Hgen.
Qed.

Lemma insert_by_weight_sorted c (gmm : GaussianMixture) :
  StronglySorted not_lighter gmm →
  StronglySorted not_lighter (insert_by_weight c gmm).
Proof.
  induction 1 as [|d gmm Hsorted IH Hd]; simpl; [repeat constructor|].
  destruct (PrimFloat.ltb (Weight d) (Weight c)) eqn:Hlt.
  - constructor; [by constructor|]. constructor; [by apply ltb_asym|].
    eapply Forall_impl; [exact Hd|]. intros x Hx. unfold not_lighter in *.
    destruct (PrimFloat.ltb (Weight c) (Weight x)) eqn:Hcx; [|done].
    by rewrite (ltb_trans _ _ _ Hlt Hcx) in Hx.
  - constructor; [done|].
    rewrite insert_by_weight_Permutation. by constructor.
Qed.

Lemma sortComponentsByWeight_sorted (gmm : GaussianMixture) :
  StronglySorted not_lighter (sortComponentsByWeight gmm).
Proof.
  unfold sortComponentsByWeight.
  assert (∀ acc : GaussianMixture,
    StronglySorted not_lighter acc →
    StronglySorted not_lighter
      (foldl (λ sorted c, insert_by_weight c sorted) acc gmm)) as Hgen.
  { induction gmm as [|c gmm IH]; intros acc Hacc; simpl; [done|].
    by apply IH, insert_by_weight_sorted. }
  apply Hgen. constructor.
Qed.

(** What [sortComponentsByWeight] and [removeLastComponent] do to a
    mixture that holds a component: the component removed is one of the
    mixture and no component that is kept is lighter. *)
Lemma removeLastComponent_sorted (gmm : GaussianMixture) :
  gmm ≠ [] →
  ∃ removed,
    sortComponentsByWeight gmm
    = removeLastComponent (sortComponentsByWeight gmm) ++ [removed]
    ∧ gmm ≡ₚ removed :: removeLastComponent (sortComponentsByWeight gmm)
    ∧ ∀ d, d ∈ removeLastComponent (sortComponentsByWeight gmm) →
           PrimFloat.ltb (Weight d) (Weight removed) = false.
Proof.
  intros Hne.
  pose proof (sortComponentsByWeight_Permutation gmm) as Hperm.
  pose proof (sortComponentsByWeight_sorted gmm) as Hsorted.
  destruct (sortComponentsByWeight gmm) as [|c0 sorted _] eqn:Hs using rev_ind.
  { symmetry in Hperm. by apply Permutation_nil_r in Hperm. }
  unfold removeLastComponent. rewrite removelast_last.
  exists c0. split; [done|]. split.
  - by rewrite <-Hperm, Permutation_app_comm.
  - intros d Hd.
    eapply (StronglySorted_app_1_elem_of not_lighter); [exact Hsorted|exact Hd|].
    apply list_elem_of_here.
Qed.

Lemma length_removeLastComponent (gmm : GaussianMixture) :
  length (removeLastComponent gmm) = (length gmm - 1)%nat.
Proof.
  unfold removeLastComponent.
  induction gmm as [|c [|d gmm] IH]; simpl in *; try done.
  rewrite IH. lia.
Qed.

Lemma length_removeOffset (gmm : GaussianMixture) :
  length (removeOffset gmm) = length gmm.
Proof. unfold removeOffset. destruct (heaviest gmm); by rewrite ?length_fmap. Qed.

Lemma length_initSpread K range : length (initSpread K range) = Z.to_nat K.
Proof. unfold initSpread. by rewrite length_fmap, length_seqZ. Qed.

(** The mixture of the VBI branch before the new component is appended. *)
Lemma GMMAdaptive_grown_eq (gmm : GaussianMixture) (ErrorData : list float) :
  let started :=
    if getNumberOfComponents gmm =? 0 then initSpread 1 10 else gmm in
  let kept :=
    if getNumberOfComponents started >=? VBI_N_MAX
    then removeLastComponent (sortComponentsByWeight started) else started in
  GMMAdaptive_grown gmm ErrorData
  = kept ++ [setParamsStdDev (residual_stdev ErrorData) 0%float
               (1 / double_of_int (getNumberOfComponents kept))%float].
Proof. reflexivity. Qed.

Lemma length_GMMAdaptive_grown (gmm : GaussianMixture) (ErrorData : list float) :
  1 ≤ VBI_N_MAX →
  getNumberOfComponents gmm ≤ VBI_N_MAX →
  getNumberOfComponents (GMMAdaptive_grown gmm ErrorData) ≤ VBI_N_MAX.
Proof.
  intros Hmax Hlen. rewrite GMMAdaptive_grown_eq. cbv zeta.
  set (started := if getNumberOfComponents gmm =? 0 then initSpread 1 10 else gmm).
  assert (1 ≤ getNumberOfComponents started ≤ VBI_N_MAX) as Hs.
  { unfold started, getNumberOfComponents in *.
    destruct (Z.of_nat (length gmm) =? 0) eqn:H0.
    - rewrite length_initSpread. simpl. lia.
    - apply Z.eqb_neq in H0. lia. }
  unfold getNumberOfComponents in *. rewrite length_app. simpl.
  rewrite Z.geb_leb. destruct (Z.leb_spec VBI_N_MAX (Z.of_nat (length started))).
  - rewrite length_removeLastComponent, length_sortComponentsByWeight. lia.
  - lia.
Qed.

Lemma run_apply_error_model {W} (h : ∀ e, W → answer e * W) G Config gmm w :
  ∃ w' rest,
    run h (apply_error_model G Config gmm) w = Returned tt w' rest
    ∧ Forall (λ e, ∃ Model, e = setNewErrorModel G FactorType.Pseudorange3_ECEF Model) rest.
Proof.
  unfold apply_error_model. repeat case_decide; simpl.
  - destruct (h _ w) as [[] w']. simpl. eauto 10.
  - destruct (h _ w) as [[] w']. simpl. eauto 10.
  - eauto.
Qed.

Lemma TuneErrorModel_None G Config st :
  TuningType (GNSS_ErrorModel Config) = ErrorModelTuningType.None →
  TuneErrorModel G Config st = Ret st.
Proof. intros Ht. unfold TuneErrorModel. rewrite Ht. by rewrite decide_False by auto. Qed.

(** C9: with [TuningType::None], as the tokens gauss, dcs, cdce, sm and mm
    set it, [TuneErrorModel] is the program that returns at once: it calls
    nothing (no residual is computed, no mixture estimated, no error model
    replaced) and leaves the statics and the library's state as they
    were. *)
Theorem TuneErrorModel_None_changes_nothing G Config st :
  TuningType (GNSS_ErrorModel Config) = ErrorModelTuningType.None
  ∨ (∃ token Config0,
       token ∈ ["gauss"; "dcs"; "cdce"; "sm"; "mm"]
       ∧ ParseErrorModel token Config0 = Some Config) →
  TuneErrorModel G Config st = Ret st
  ∧ ∀ W (h : ∀ e, W → answer e * W) w,
      run h (TuneErrorModel G Config st) w = Returned st w [].
Proof.
  intros Hnone.
  assert (TuningType (GNSS_ErrorModel Config) = ErrorModelTuningType.None) as Ht.
  { destruct Hnone as [?|(token & Config0 & Hin & Hp)]; [done|].
    repeat (apply elem_of_cons in Hin as [->|Hin]); [..|by apply elem_of_nil in Hin];
      vm_compute in Hp; by injection Hp as <-. }
  pose proof (TuneErrorModel_None G Config st Ht) as Heq.
  split; [done|]. intros W h w. by rewrite Heq.
Qed.

Lemma TuneErrorModel_VBI G Config st :
  TuningType (GNSS_ErrorModel Config) = ErrorModelTuningType.VBI →
  TuneErrorModel G Config st =
  (ErrorData ← call (computeUnweightedError G FactorType.Pseudorange3_ECEF);
   GMMAdaptive' ← call (estimate (GMMAdaptive_grown (GMMAdaptive st) ErrorData)
                          ErrorData
                          {| EstimationAlgorithm := ErrorModelTuningType.VBI;
                             RemoveSmallComponents := true;
                             MergeSimiliarComponents := false;
                             PriorWishartDOF := Some VBI_NU |});
   apply_error_model G Config (removeOffset GMMAdaptive');;
   mret {| GMM := GMM st;
           NoisePseudorangeMaxMix := NoisePseudorangeMaxMix st;
           NoisePseudorangeSumMix := NoisePseudorangeSumMix st;
           GMMAdaptive := removeOffset GMMAdaptive' |}).
Proof.
  destruct Config as [fin fout [ty mix tun]]. simpl. by intros ->.
Qed.

Lemma TuneErrorModel_EM G Config st :
  TuningType (GNSS_ErrorModel Config) = ErrorModelTuningType.EM →
  TuneErrorModel G Config st =
  (ErrorData ← call (computeUnweightedError G FactorType.Pseudorange3_ECEF);
   GMM' ← call (estimate (initSpread GMM_N 10) ErrorData
                  {| EstimationAlgorithm := ErrorModelTuningType.EM;
                     RemoveSmallComponents := false;
                     MergeSimiliarComponents := false;
                     PriorWishartDOF := None |});
   apply_error_model G Config (removeOffset GMM');;
   mret st).
Proof.
  destruct Config as [fin fout [ty mix tun]]. simpl. by intros ->.
Qed.

Lemma TuneErrorModel_Other G Config st :
  TuningType (GNSS_ErrorModel Config) = ErrorModelTuningType.Other →
  TuneErrorModel G Config st =
  (call (computeUnweightedError G FactorType.Pseudorange3_ECEF);; mret st).
Proof.
  destruct Config as [fin fout [ty mix tun]]. simpl. by intros ->.
Qed.

(** C2 (amended): a VBI tuning step reads the residuals, then calls the
    estimator once, on the adaptive mixture with exactly one component
    appended; that component has mean 0, the standard deviation of the
    residuals about their mean, and weight 1/K, K being the number of
    components at the moment of appending; nothing but the replacement of
    the error model follows. *)
Theorem TuneErrorModel_VBI_appends_one_component
    G Config st {W} (h : ∀ e, W → answer e * W) w :
  TuningType (GNSS_ErrorModel Config) = ErrorModelTuningType.VBI →
  let ErrorData : list float :=
    (h (computeUnweightedError G FactorType.Pseudorange3_ECEF) w).1 in
  let started :=
    if getNumberOfComponents (GMMAdaptive st) =? 0 then initSpread 1 10
    else GMMAdaptive st in
  let kept :=
    if getNumberOfComponents started >=? VBI_N_MAX
    then removeLastComponent (sortComponentsByWeight started) else started in
  let Component :=
    {| StdDev := residual_stdev ErrorData;
       Mean := 0;
       Weight := 1 / double_of_int (getNumberOfComponents kept) |} in
  ∃ GMMConfig st' w' rest,
    run h (TuneErrorModel G Config st) w
    = Returned st' w'
        (computeUnweightedError G FactorType.Pseudorange3_ECEF
         :: estimate (kept ++ [Component]) ErrorData GMMConfig :: rest)
    ∧ EstimationAlgorithm GMMConfig = ErrorModelTuningType.VBI
    ∧ Forall (λ e, ∃ Model,
                e = setNewErrorModel G FactorType.Pseudorange3_ECEF Model) rest.
Proof.
  intros Hvbi ErrorData started kept Component.
  rewrite TuneErrorModel_VBI by done.
  rewrite (run_call_bind h (computeUnweightedError G FactorType.Pseudorange3_ECEF)).
  fold ErrorData.
  set (GMMConfig := mkEstimationConfig _ _ _ _).
  rewrite (run_call_bind h (estimate (GMMAdaptive_grown (GMMAdaptive st) ErrorData)
                              ErrorData GMMConfig)).
  rewrite GMMAdaptive_grown_eq. cbv zeta.
  fold started. fold kept. fold Component.
  destruct (h (estimate (kept ++ [Component]) ErrorData GMMConfig) _) as [gmm w2].
  simpl fst. simpl snd. rewrite run_bind.
  destruct (run_apply_error_model h G Config (removeOffset gmm) w2)
    as (w3 & rest & -> & Hrest).
  simpl. rewrite app_nil_r. eexists GMMConfig, _, w3, rest. done.
Qed.

(** C6 (amended): before a VBI fit the mixture is sorted by weight and
    loses its last component whenever it holds at least [VBI_N_MAX]
    components, so also when it holds exactly that many, and is left as it
    is below that.  The component removed is one of the mixture, the
    others are kept, and none of those kept is lighter than it.  With a
    cap of at least one and an estimator that adds no component, the
    component count is at most [VBI_N_MAX] after every tuning step. *)
Theorem GMMAdaptive_capped {W} (h : ∀ e, W → answer e * W) :
  1 ≤ VBI_N_MAX →
  (∀ gmm ErrorData GMMConfig w,
     (length (h (estimate gmm ErrorData GMMConfig) w).1 ≤ length gmm)%nat) →
  (∀ gmm ErrorData,
     let started :=
       if getNumberOfComponents gmm =? 0 then initSpread 1 10 else gmm in
     (VBI_N_MAX ≤ getNumberOfComponents started →
        ∃ kept removed,
          kept = removeLastComponent (sortComponentsByWeight started)
          ∧ sortComponentsByWeight started = kept ++ [removed]
          ∧ started ≡ₚ removed :: kept
          ∧ (∀ d, d ∈ kept → PrimFloat.ltb (Weight d) (Weight removed) = false)
          ∧ GMMAdaptive_grown gmm ErrorData
            = kept ++ [setParamsStdDev (residual_stdev ErrorData) 0%float
                         (1 / double_of_int (getNumberOfComponents kept))%float])
     ∧ (getNumberOfComponents started < VBI_N_MAX →
        ∃ c, GMMAdaptive_grown gmm ErrorData = started ++ [c]))
  ∧ getNumberOfComponents (GMMAdaptive Statics_initial) ≤ VBI_N_MAX
  ∧ ∀ G Config st w,
      getNumberOfComponents (GMMAdaptive st) ≤ VBI_N_MAX →
      ∃ st' w' trace,
        run h (TuneErrorModel G Config st) w = Returned st' w' trace
        ∧ getNumberOfComponents (GMMAdaptive st') ≤ VBI_N_MAX.
Proof.
  intros Hmax Hest. split; [|split].
  - intros gmm ErrorData started. rewrite GMMAdaptive_grown_eq. cbv zeta.
    fold started. rewrite Z.geb_leb.
    split; intros Hc.
    + rewrite (proj2 (Z.leb_le _ _)) by done.
      assert (started ≠ []) as Hne.
      { intros Hnil. rewrite Hnil in Hc. unfold getNumberOfComponents in Hc.
        simpl in Hc. lia. }
      destruct (removeLastComponent_sorted started Hne)
        as (removed & Hsort & Hperm & Hlight).
      exists (removeLastComponent (sortComponentsByWeight started)), removed.
      done.
    + rewrite (proj2 (Z.leb_gt _ _)) by done. eauto.
  - simpl. unfold getNumberOfComponents. simpl. lia.
  - intros G Config st w Hst.
    destruct (TuningType (GNSS_ErrorModel Config)) eqn:Htun.
    + rewrite TuneErrorModel_None by done. simpl. eauto.
    + destruct Config as [fin fout [ty mix tun]]. simpl in Htun. subst tun.
      unfold TuneErrorModel. simpl.
      destruct (h (computeUnweightedError G FactorType.Pseudorange3_ECEF) w)
        as [data w1].
      destruct (h (estimate _ data _) w1) as [gmm w2].
      rewrite run_bind.
      destruct (run_apply_error_model h G
                  (mkFactorGraphConfig fin fout
                     (mkErrorModelConfig ty mix ErrorModelTuningType.EM))
                  (removeOffset gmm) w2) as (w3 & rest & -> & _).
      simpl. eauto.
    + rewrite TuneErrorModel_VBI by done.
      rewrite (run_call_bind h (computeUnweightedError G FactorType.Pseudorange3_ECEF)).
      set (ErrorData := (h (computeUnweightedError G FactorType.Pseudorange3_ECEF) w).1).
      set (GMMConfig := mkEstimationConfig _ _ _ _).
      rewrite (run_call_bind h (estimate (GMMAdaptive_grown (GMMAdaptive st) ErrorData)
                                  ErrorData GMMConfig)).
      pose proof (Hest (GMMAdaptive_grown (GMMAdaptive st) ErrorData) ErrorData
                    GMMConfig
                    (h (computeUnweightedError G FactorType.Pseudorange3_ECEF) w).2)
        as Hle.
      pose proof (length_GMMAdaptive_grown (GMMAdaptive st) ErrorData Hmax Hst) as Hg.
      destruct (h (estimate _ ErrorData GMMConfig) _) as [gmm w2].
      simpl fst in *. simpl snd. rewrite run_bind.
      destruct (run_apply_error_model h G Config (removeOffset gmm) w2)
        as (w3 & rest & -> & _).
      simpl. eexists _, _, _. split; [done|]. simpl.
      unfold getNumberOfComponents in *. rewrite length_removeOffset. lia.
    + destruct Config as [fin fout [ty mix tun]]. simpl in Htun. subst tun.
      unfold TuneErrorModel. simpl.
      destruct (h (computeUnweightedError G FactorType.Pseudorange3_ECEF) w)
        as [data w1]. simpl. eauto.
Qed.

End TuneFacts.

Section LoopFacts.
Context {KeyType : Type} `{Countable KeyType} {ObjectType : Type}.
Implicit Types (s : list (Z * ObjectType)) (t : Z).

Lemma upper_bound_lookup s t e : s !! upper_bound s t = Some e → t < e.1.
Proof.
  induction s as [|x s IH]; simpl; [done|].
  destruct (x.1 <=? t) eqn:Hle; simpl; [done|].
  intros [= <-]. by apply Z.leb_gt.
Qed.

Lemma remaining_mono s t t' : t ≤ t' → (remaining s t' ≤ remaining s t)%nat.
Proof.
  intros Ht. unfold remaining. induction s as [|x s IH]; simpl; [done|].
  rewrite !filter_cons. repeat case_decide; simpl; lia.
Qed.

Lemma remaining_lt s t t' :
  t < t' → t' ∈ s.*1 → (remaining s t' < remaining s t)%nat.
Proof.
  intros Ht Hin. unfold remaining. induction s as [|x s IH]; simpl in *.
  - by apply elem_of_nil in Hin.
  - pose proof (remaining_mono s t t' ltac:(lia)) as Hm. unfold remaining in Hm.
    rewrite !filter_cons. apply elem_of_cons in Hin as [->|Hin].
    + rewrite decide_False by lia. rewrite decide_True by lia. simpl. lia.
    + specialize (IH Hin). repeat case_decide; simpl; lia.
Qed.

Lemma remaining_le_length s t : (remaining s t ≤ length s)%nat.
Proof. apply length_filter. Qed.

Lemma getTimeNext_Some (ds : DataSet KeyType ObjectType) ID t t' :
  getTimeNext ds ID t = Ok (Some t') →
  ∃ s, _DataStreams ds !! ID = Some s ∧ t < t' ∧ t' ∈ s.*1.
Proof.
  unfold getTimeNext, checkElement, countElement, map_at.
  destruct (_DataStreams ds !! ID) as [s|]; [|done].
  destruct (int_of_size_t (count s t) >? 0); [|done].
  rewrite bind_Ok. case_bool_decide; [|done].
  unfold first, key_at.
  destruct (s !! upper_bound s t) as [e|] eqn:He; simpl; [|done].
  intros [= <-]. exists s. split; [done|]. split.
  - by eapply upper_bound_lookup.
  - apply list_elem_of_fmap. exists e. split; [done|]. by eapply list_elem_of_lookup_2.
Qed.

End LoopFacts.

Section MainFacts.
Context `{Library}.

Lemma all_returns_bind {A B} (Q : A → Prop) (P : B → Prop) (p : Prog A) (f : A → Prog B) :
  all_returns Q p → (∀ a, Q a → all_returns P (f a)) → all_returns P (p ≫= f).
Proof.
  intros Hp Hf. induction p as [a| | |e k IH]; simpl in *; auto.
  intros r. apply IH, Hp.
Qed.

Lemma all_returns_bind_any {A B} (P : B → Prop) (p : Prog A) (f : A → Prog B) :
  (∀ a, all_returns P (f a)) → all_returns P (p ≫= f).
Proof.
  intros Hf. induction p as [a| | |e k IH]; simpl in *; auto.
Qed.

Lemma all_returns_run {A W} (P : A → Prop) (p : Prog A)
    (h : ∀ e, W → answer e * W) w a w' trace :
  all_returns P p → run h p w = Returned a w' trace → P a.
Proof.
  revert w trace. induction p as [b| | |e k IH]; simpl; intros w trace Hp; try done.
  - by intros [= <- _ _].
  - destruct (h e w) as [r w1]. specialize (IH r w1).
    destruct (run h (k r) w1) eqn:Hr; simpl; try done.
    intros [= <- <- <-]. eapply IH; eauto.
Qed.

(** With one unrolling more than there are entries left, the loop of
    [main] ends by its own test. *)
Lemma main_loop_fuel fuel InputData Config Options NoiseOdom4DOF NoiseCCED
    Timestamp TimestampOld Result st :
  (remaining (default [] (_DataStreams InputData !! SensorType.Pseudorange3)) Timestamp
   < fuel)%nat →
  all_returns (λ r, r ≠ None)
    (main_loop fuel InputData Config Options NoiseOdom4DOF NoiseCCED
       Timestamp TimestampOld Result st).
Proof.
  revert Timestamp TimestampOld Result st.
  induction fuel as [|fuel IH]; intros Timestamp TimestampOld Result st Hfuel; [lia|].
  simpl main_loop.
  destruct (getTimeNext InputData SensorType.Pseudorange3 Timestamp)
    as [[Timestamp'|]| |] eqn:Hnext; simpl; try done.
  apply getTimeNext_Some in Hnext as (s & Hs & Hlt & Hin).
  rewrite Hs in Hfuel. simpl in Hfuel.
  pose proof (remaining_lt s Timestamp Timestamp' Hlt Hin).
  intros _ _ _ _.
  apply all_returns_bind_any. intros Odom.
  simpl. intros _ _.
  apply all_returns_bind_any. intros st1.
  apply all_returns_bind_any. intros st2.
  simpl. intros _ Element _.
  apply IH. rewrite Hs. simpl. lia.
Qed.

Lemma main_estimation_returns Config :
  all_returns (λ code, code = Some 0) (main_estimation Config).
Proof.
  unfold main_estimation.
  apply all_returns_bind_any. intros threads. cbv zeta.
  apply all_returns_bind_any. intros InputData.
  apply all_returns_bind_any. intros first.
  apply all_returns_bind_any. intros _.
  apply all_returns_bind_any. intros [Result st].
  apply all_returns_bind_any. intros Odom.
  case_bool_decide; [done|].
  eapply all_returns_bind.
  - apply main_loop_fuel. 
    pose proof (remaining_le_length
      (default [] (_DataStreams InputData !! SensorType.Pseudorange3))
      (default 0 first)). lia.
  - intros [Result'|] Hr; [|done]. simpl. done.
Qed.

Lemma ParseErrorModel_None ErrorModel Config :
  ParseErrorModel ErrorModel Config = None ↔ ErrorModel ∉ ERROR_MODEL_table.*1.
Proof.
  unfold ParseErrorModel. simpl.
  rewrite !not_elem_of_cons.
  repeat (case_bool_decide; [subst; split; [done|]; intros Hn; exfalso; tauto|]).
  split; [|done]. intros _. repeat split; auto. apply not_elem_of_nil.
Qed.

Lemma ParseErrorModel_table ErrorModel Type_' Mixture Tuning Config :
  (ErrorModel, (Type_', Mixture, Tuning)) ∈ ERROR_MODEL_table →
  ∃ Config',
    ParseErrorModel ErrorModel Config = Some Config'
    ∧ Type_ (GNSS_ErrorModel Config') = Type_'
    ∧ MixtureType (GNSS_ErrorModel Config')
      = default (MixtureType (GNSS_ErrorModel Config)) Mixture
    ∧ TuningType (GNSS_ErrorModel Config') = Tuning
    ∧ InputFile Config' = InputFile Config
    ∧ OutputFile Config' = OutputFile Config.
Proof.
  unfold ERROR_MODEL_table. intros Hin.
  repeat (apply elem_of_cons in Hin as [[= -> -> -> ->]|Hin];
          [eexists; split; [reflexivity|]; by repeat split|]).
  by apply elem_of_nil in Hin.
Qed.

(** C7: with the four positional arguments given, [main] returns 1
    exactly when the fourth is none of the nine tokens; for a token of
    the table [ParseErrorModel] sets Type and TuningType as its row says,
    MixtureType as the row says where it names one and leaves it as the
    default configuration has it where the row has a dash, and [main] goes
    on to the estimation, after which it can only return 0. *)
Theorem main_exit_code argv ErrorModel {W} (h : ∀ e, W → answer e * W) w :
  drop 1 argv !! 3%nat = Some ErrorModel →
  ((∃ w' trace, run h (main argv) w = Returned (Some 1) w' trace)
   ↔ ErrorModel ∉ ERROR_MODEL_table.*1)
  ∧ (∀ Type_' Mixture Tuning,
       (ErrorModel, (Type_', Mixture, Tuning)) ∈ ERROR_MODEL_table →
       ∃ InputFile' OutputFile' Config argv0,
         drop 1 argv !! 0%nat = Some InputFile'
         ∧ drop 1 argv !! 1%nat = Some OutputFile'
         ∧ Type_ (GNSS_ErrorModel Config) = Type_'
         ∧ MixtureType (GNSS_ErrorModel Config)
           = default (MixtureType (GNSS_ErrorModel FactorGraphConfig_default)) Mixture
         ∧ TuningType (GNSS_ErrorModel Config) = Tuning
         ∧ InputFile Config = InputFile'
         ∧ OutputFile Config = OutputFile'
         ∧ main argv = (call (InitGoogleLogging argv0);; main_estimation Config)
         ∧ ∀ code w' trace,
             run h (main argv) w = Returned code w' trace → code = Some 0).
Proof.
  intros H3.
  destruct (drop 1 argv !! 0%nat) as [a0|] eqn:H0;
    [|apply lookup_ge_None in H0; apply lookup_lt_Some in H3; lia].
  destruct (drop 1 argv !! 1%nat) as [a1|] eqn:H1;
    [|apply lookup_ge_None in H1; apply lookup_lt_Some in H3; lia].
  set (Config0 := {| InputFile := a0; OutputFile := a1;
                     GNSS_ErrorModel := GNSS_ErrorModel FactorGraphConfig_default |}).
  assert (main argv =
    (call (InitGoogleLogging (default String.EmptyString (argv !! 0%nat)));;
     match ParseErrorModel ErrorModel Config0 with
     | None => mret (Some 1)
     | Some Config => main_estimation Config
     end)) as Hmain.
  { unfold main, vector_at. rewrite H0, H1, H3. reflexivity. }
  split.
  - split.
    + intros (w' & trace & Hrun). apply ParseErrorModel_None with (Config := Config0).
      destruct (ParseErrorModel ErrorModel Config0) as [Config|] eqn:Hp; [|done].
      exfalso. rewrite Hmain in Hrun.
      assert (all_returns (λ code, code = Some 0)
                (call (InitGoogleLogging (default String.EmptyString (argv !! 0%nat)));;
                 main_estimation Config)) as Hall.
      { apply all_returns_bind_any. intros _. apply main_estimation_returns. }
      by pose proof (all_returns_run _ _ h w _ _ _ Hall Hrun).
    + intros Hnot. apply (ParseErrorModel_None _ Config0) in Hnot.
      rewrite Hmain, Hnot. simpl. destruct (h _ w) as [[] w1]. simpl. eauto.
  - intros Type_' Mixture Tuning Hrow.
    destruct (ParseErrorModel_table _ _ _ _ Config0 Hrow)
      as (Config & Hp & Hty & Hmix & Htun & Hin & Hout).
    exists a0, a1, Config, (default String.EmptyString (argv !! 0%nat)).
    repeat split; try done.
    + by rewrite Hmain, Hp.
    + intros code w' trace Hrun. rewrite Hmain, Hp in Hrun.
      assert (all_returns (λ code, code = Some 0)
                (call (InitGoogleLogging (default String.EmptyString (argv !! 0%nat)));;
                 main_estimation Config)) as Hall.
      { apply all_returns_bind_any. intros _. apply main_estimation_returns. }
      exact (all_returns_run _ _ h w _ _ _ Hall Hrun).
Qed.

End MainFacts.




Section InitFacts.
Context `{Library}.
Context {W : Type} (h : ∀ e, W → answer e * W).

Lemma ParseErrorModel_supported ErrorModel Config0 Config :
  ParseErrorModel ErrorModel Config0 = Some Config → supported Config.
Proof.
  unfold ParseErrorModel, supported. intros Hp.
  repeat (case_bool_decide; [injection Hp as <-; simpl; tauto|]). done.
Qed.

Lemma run_AddPseudorange G Config L Pseudorange st w st' w' trace :
  supported Config →
  run h (AddPseudorange G Config L Pseudorange st) w = Returned st' w' trace →
  ∃ Noise Loss,
    trace = [addFactor G FactorType.Pseudorange3_ECEF L (Some Pseudorange) Noise Loss]
    ∧ under_error_model Config Pseudorange Noise Loss
    ∧ (Type_ (GNSS_ErrorModel Config) = ErrorModelType.Gaussian → st' = st).
Proof.
  intros Hparsed Hrun. unfold supported in Hparsed. cbv zeta in Hparsed.
  unfold AddPseudorange, under_error_model in *.
  destruct Hparsed as [Hty|[Hty|[Hty|[Hty Hmix]]]]; rewrite Hty in *.
  - apply run_call_Returned in Hrun as (t2 & Hr & ->).
    apply run_ret_Returned in Hr as (-> & -> & ->). eauto 10.
  - apply run_call_Returned in Hrun as (t2 & Hr & ->).
    apply run_ret_Returned in Hr as (-> & -> & ->).
    eexists _, _. split; [done|]. split; [done|]. done.
  - destruct (getStdDev Pseudorange) as [|sigma ?] eqn:Hsd; [done|].
    apply run_call_Returned in Hrun as (t2 & Hr & ->).
    apply run_ret_Returned in Hr as (-> & -> & ->).
    eexists _, _. split; [done|]. split; [|done]. eauto.
  - destruct Hmix as [Hmix|Hmix]; rewrite Hmix in *; simpl decide in Hrun; cbv iota in Hrun.
    + apply run_call_Returned in Hrun as (t2 & Hr & ->).
      apply run_ret_Returned in Hr as (-> & -> & ->).
      eexists _, _. split; [done|]. split; [|done]. eauto.
    + apply run_call_Returned in Hrun as (t2 & Hr & ->).
      apply run_ret_Returned in Hr as (-> & -> & ->).
      eexists _, _. split; [done|]. split; [|done]. eauto.
Qed.

Lemma run_AddPseudorangeMeasurements_loop G Measurements Config Timestamp L
    SatCounters st w st' w' trace :
  supported Config →
  run h (AddPseudorangeMeasurements_loop G Measurements Config Timestamp L
           SatCounters st) w = Returned st' w' trace →
  ∃ Pseudoranges,
    Forall2 (λ SatCounter Pseudorange,
               getElement_value Measurements SensorType.Pseudorange3 Timestamp
                 SatCounter = Ok Pseudorange) SatCounters Pseudoranges
    ∧ Forall2 (λ Pseudorange e, ∃ Noise Loss,
                 e = addFactor G FactorType.Pseudorange3_ECEF L (Some Pseudorange)
                       Noise Loss
                 ∧ under_error_model Config Pseudorange Noise Loss)
        Pseudoranges trace
    ∧ (Type_ (GNSS_ErrorModel Config) = ErrorModelType.Gaussian → st' = st).
Proof.
  intros Hparsed. revert st w trace.
  induction SatCounters as [|SatCounter SatCounters IH]; intros st w trace Hrun.
  - apply run_ret_Returned in Hrun as (-> & -> & ->). exists []. auto.
  - simpl in Hrun.
    apply run_lift_Returned in Hrun as (Pseudorange & Hget & Hrun).
    apply run_bind_Returned in Hrun as (st1 & w1 & t1 & t2 & Hadd & Hrun & ->).
    apply run_AddPseudorange in Hadd as (Noise & Loss & -> & Hunder & Hst); [|done].
    apply IH in Hrun as (Pseudoranges & Hread & Hfac & Hst').
    exists (Pseudorange :: Pseudoranges). split; [by constructor|]. split.
    + simpl. constructor; eauto.
    + intros Hty. rewrite Hst' by done. auto.
Qed.

Lemma Forall2_read_functional {A B} (f : A → result B) (l : list A) (k1 k2 : list B) :
  Forall2 (λ a b, f a = Ok b) l k1 → Forall2 (λ a b, f a = Ok b) l k2 → k1 = k2.
Proof.
  intros H1. revert k2. induction H1 as [|a b l k1 Hab _ IH]; intros k2 H2.
  - by inversion H2.
  - inversion H2 as [|a' b' l' k2' Hab' H2']; subst. f_equal; [congruence|auto].
Qed.

Lemma run_TuneErrorModel_trace Config st w st' w' trace :
  run h (TuneErrorModel Graph Config st) w = Returned st' w' trace →
  Forall tuning_event trace.
Proof.
  intros Hrun.
  assert (∀ gmm w0 w1 rest,
            run h (apply_error_model Graph Config gmm) w0 = Returned tt w1 rest →
            Forall tuning_event rest) as Happly.
  { intros gmm w0 w1 rest Hr.
    destruct (run_apply_error_model h Graph Config gmm w0) as (w2 & rest' & Hr' & Hall).
    rewrite Hr' in Hr. injection Hr as <- <-.
    eapply Forall_impl; [exact Hall|]. by intros e [Model ->]. }
  destruct (TuningType (GNSS_ErrorModel Config)) eqn:Htun.
  - rewrite TuneErrorModel_None in Hrun by done. by injection Hrun as <- <- <-.
  - destruct Config as [fin fout [ty mix tun]]. simpl in Htun. subst tun.
    unfold TuneErrorModel in Hrun.
    simpl decide in Hrun. cbv iota in Hrun.
    apply run_call_Returned in Hrun as (t2 & Hrun & ->).
    apply run_call_Returned in Hrun as (t3 & Hrun & ->).
    apply run_bind_Returned in Hrun as ([] & w1 & t4 & t5 & Ha & Hrun & ->).
    apply run_ret_Returned in Hrun as (_ & _ & ->).
    constructor; [done|]. constructor; [done|]. rewrite app_nil_r. eauto.
  - rewrite TuneErrorModel_VBI in Hrun by done.
    apply run_call_Returned in Hrun as (t2 & Hrun & ->).
    apply run_call_Returned in Hrun as (t3 & Hrun & ->).
    apply run_bind_Returned in Hrun as ([] & w1 & t4 & t5 & Ha & Hrun & ->).
    apply run_ret_Returned in Hrun as (_ & _ & ->).
    constructor; [done|]. constructor; [done|]. rewrite app_nil_r. eauto.
  - destruct Config as [fin fout [ty mix tun]]. simpl in Htun. subst tun.
    unfold TuneErrorModel in Hrun.
    simpl decide in Hrun. cbv iota in Hrun.
    apply run_call_Returned in Hrun as (t2 & Hrun & ->).
    apply run_ret_Returned in Hrun as (_ & _ & ->).
    by constructor.
Qed.

(** The events of a completed initialisation, in order. *)
Lemma main_init_trace InputData Config Options
    TimestampFirst Result st w Result' st' w' trace :
  supported Config →
  run h (main_init InputData Config Options TimestampFirst Result st) w
  = Returned (Result', st') w' trace →
  ∃ Pseudoranges Position ClockError Factors Tuning Element,
    pseudoranges_read InputData TimestampFirst Pseudoranges
    ∧ trace =
        [addState SimpleGraph POSITION_STATE StateType.Point3 TimestampFirst;
         addState SimpleGraph CLOCK_ERROR_STATE StateType.ClockError TimestampFirst]
        ++ (Gaussian_pseudorange SimpleGraph TimestampFirst <$> Pseudoranges)
        ++ [solve SimpleGraph
              {| minimizer_progress_to_stdout := false;
                 use_nonmonotonic_steps := use_nonmonotonic_steps Options;
                 trust_region_strategy_DOGLEG := trust_region_strategy_DOGLEG Options;
                 dogleg_type_SUBSPACE_DOGLEG := dogleg_type_SUBSPACE_DOGLEG Options;
                 num_threads := num_threads Options;
                 max_num_iterations := max_num_iterations Options |};
            addState Graph POSITION_STATE StateType.Point3 TimestampFirst;
            addState Graph CLOCK_ERROR_STATE StateType.ClockError TimestampFirst;
            addState Graph ORIENTATION_STATE StateType.Angle TimestampFirst;
            addState Graph CLOCK_DRIFT_STATE StateType.ClockDrift TimestampFirst;
            getMean SimpleGraph POSITION_STATE TimestampFirst;
            setMean Graph POSITION_STATE TimestampFirst Position;
            getMean SimpleGraph CLOCK_ERROR_STATE TimestampFirst;
            setMean Graph CLOCK_ERROR_STATE TimestampFirst ClockError]
        ++ Factors
        ++ [solve Graph Options]
        ++ Tuning
        ++ [solve Graph Options;
            getStateData_getElement Graph POSITION_STATE TimestampFirst 0]
    ∧ Forall2 (configured_pseudorange Config TimestampFirst) Pseudoranges Factors
    ∧ Forall tuning_event Tuning
    ∧ Result' = StateDataSet_addElement Result POSITION_STATE Element.
Proof.
  intros Hparse Hrun.
  unfold main_init in Hrun.
  apply run_bind_Returned in Hrun as (st1 & w1 & t1 & t2 & Hinit & Hrun & ->).
  apply run_call_Returned in Hrun as (t3 & Hrun & ->).
  apply run_bind_Returned in Hrun as (st2 & w2 & t4 & t5 & Htune & Hrun & ->).
  apply run_call_Returned in Hrun as (t6 & Hrun & ->).
  apply run_call_Returned in Hrun as (t7 & Hrun & ->).
  apply run_ret_Returned in Hrun as ([= -> ->] & -> & ->).
  apply run_TuneErrorModel_trace in Htune.
  unfold InitGraph in Hinit.
  apply run_call_Returned in Hinit as (u1 & Hinit & ->).
  apply run_call_Returned in Hinit as (u2 & Hinit & ->).
  apply run_bind_Returned in Hinit as (st0 & w0 & u3 & u4 & Hsimple & Hinit & ->).
  apply run_call_Returned in Hinit as (u5 & Hinit & ->).
  apply run_call_Returned in Hinit as (u6 & Hinit & ->).
  apply run_call_Returned in Hinit as (u7 & Hinit & ->).
  apply run_call_Returned in Hinit as (u8 & Hinit & ->).
  apply run_call_Returned in Hinit as (u9 & Hinit & ->).
  apply run_call_Returned in Hinit as (u10 & Hinit & ->).
  apply run_call_Returned in Hinit as (u11 & Hinit & ->).
  apply run_call_Returned in Hinit as (u12 & Hinit & ->).
  apply run_call_Returned in Hinit as (u13 & Hinit & ->).
  unfold AddPseudorangeMeasurements in Hsimple, Hinit.
  apply run_AddPseudorangeMeasurements_loop in Hsimple
    as (Pseudoranges & Hread & Hfac & _); [|by left].
  apply run_AddPseudorangeMeasurements_loop in Hinit
    as (Pseudoranges' & Hread' & Hfac' & _); [|done].
  pose proof (Forall2_read_functional _ _ _ _ Hread' Hread) as ->.
  eexists Pseudoranges, _, _, u13, t4, _.
  split; [exact Hread|]. split; [|split; [|split]].
  - assert (u3 = Gaussian_pseudorange SimpleGraph TimestampFirst <$> Pseudoranges) as ->.
    { clear -Hfac. induction Hfac as [|m e ms es (Noise & Loss & -> & Hu) _ IH];
        [done|]. unfold under_error_model in Hu. simpl in Hu. destruct Hu as [-> ->].
      simpl. by rewrite IH. }
    simpl. rewrite <-!app_assoc. simpl. reflexivity.
  - exact Hfac'.
  - exact Htune.
  - reflexivity.
Qed.

Lemma world_after_app w (t1 t2 : list Event) :
  world_after h w (t1 ++ t2) = world_after h (world_after h w t1) t2.
Proof. apply foldl_app. Qed.

Lemma world_after_cons w e (trace : list Event) :
  world_after h w (e :: trace) = world_after h (h e w).2 trace.
Proof. reflexivity. Qed.

Lemma run_world_after {A} (p : Prog A) w a w' trace :
  run h p w = Returned a w' trace → w' = world_after h w trace.
Proof.
  revert w trace. induction p as [b| | |e k IH]; simpl; intros w trace; try done.
  - intros [= _ <- <-]. reflexivity.
  - destruct (h e w) as [r w1] eqn:Hh. specialize (IH r w1).
    destruct (run h (k r) w1) as [a1 w2 t2| |] eqn:Hr; simpl; try done.
    intros [= <- <- <-]. rewrite world_after_cons, Hh. simpl. by apply IH.
Qed.

Lemma Gaussian_factors G Config t (Pseudoranges : list SensorData) trace :
  Type_ (GNSS_ErrorModel Config) = ErrorModelType.Gaussian →
  Forall2 (λ Pseudorange e, ∃ Noise Loss,
             e = addFactor G FactorType.Pseudorange3_ECEF
                   [(POSITION_STATE, t); (CLOCK_ERROR_STATE, t)]
                   (Some Pseudorange) Noise Loss
             ∧ under_error_model Config Pseudorange Noise Loss)
    Pseudoranges trace →
  trace = Gaussian_pseudorange G t <$> Pseudoranges.
Proof.
  intros Hty Hfac.
  induction Hfac as [|m e ms es (Noise & Loss & -> & Hu) _ IH]; [done|].
  unfold under_error_model in Hu. rewrite Hty in Hu. destruct Hu as [-> ->].
  simpl. by rewrite IH.
Qed.

(** The events of a completed initialisation, with the answers of the
    library that the driver passes on. *)
Lemma main_init_answers InputData Config Options
    TimestampFirst Result st w Result' st' w' trace :
  supported Config →
  run h (main_init InputData Config Options TimestampFirst Result st) w
  = Returned (Result', st') w' trace →
  ∃ Pseudoranges Factors Tuning st1,
    pseudoranges_read InputData TimestampFirst Pseudoranges
    ∧ let simple_graph :=
        [addState SimpleGraph POSITION_STATE StateType.Point3 TimestampFirst;
         addState SimpleGraph CLOCK_ERROR_STATE StateType.ClockError TimestampFirst]
        ++ (Gaussian_pseudorange SimpleGraph TimestampFirst <$> Pseudoranges)
        ++ [solve SimpleGraph
              {| minimizer_progress_to_stdout := false;
                 use_nonmonotonic_steps := use_nonmonotonic_steps Options;
                 trust_region_strategy_DOGLEG := trust_region_strategy_DOGLEG Options;
                 dogleg_type_SUBSPACE_DOGLEG := dogleg_type_SUBSPACE_DOGLEG Options;
                 num_threads := num_threads Options;
                 max_num_iterations := max_num_iterations Options |}] in
      let states :=
        [addState Graph POSITION_STATE StateType.Point3 TimestampFirst;
         addState Graph CLOCK_ERROR_STATE StateType.ClockError TimestampFirst;
         addState Graph ORIENTATION_STATE StateType.Angle TimestampFirst;
         addState Graph CLOCK_DRIFT_STATE StateType.ClockDrift TimestampFirst] in
      let Position :=
        (h (getMean SimpleGraph POSITION_STATE TimestampFirst)
           (world_after h w (simple_graph ++ states))).1 in
      let copy_Position :=
        [getMean SimpleGraph POSITION_STATE TimestampFirst;
         setMean Graph POSITION_STATE TimestampFirst Position] in
      let ClockError :=
        (h (getMean SimpleGraph CLOCK_ERROR_STATE TimestampFirst)
           (world_after h w (simple_graph ++ states ++ copy_Position))).1 in
      let copy_ClockError :=
        [getMean SimpleGraph CLOCK_ERROR_STATE TimestampFirst;
         setMean Graph CLOCK_ERROR_STATE TimestampFirst ClockError] in
      let initialised :=
        simple_graph ++ states ++ copy_Position ++ copy_ClockError ++ Factors in
      let tuned := initialised ++ [solve Graph Options] ++ Tuning in
      let Element :=
        (h (getStateData_getElement Graph POSITION_STATE TimestampFirst 0)
           (world_after h w (tuned ++ [solve Graph Options]))).1 in
      trace = tuned ++ [solve Graph Options;
                        getStateData_getElement Graph POSITION_STATE TimestampFirst 0]
      ∧ Forall2 (configured_pseudorange Config TimestampFirst) Pseudoranges Factors
      ∧ run h (InitGraph InputData Config Options TimestampFirst st) w
        = Returned st1 (world_after h w initialised) initialised
      ∧ run h (TuneErrorModel Graph Config st1)
          (world_after h w (initialised ++ [solve Graph Options]))
        = Returned st' (world_after h w tuned) Tuning
      ∧ Forall tuning_event Tuning
      ∧ Result' = StateDataSet_addElement Result POSITION_STATE Element.
Proof.
  intros Hparse Hrun.
  unfold main_init in Hrun.
  apply run_bind_Returned in Hrun as (st1 & w1 & t1 & t2 & Hinit & Hrun & ->).
  apply run_call_Returned in Hrun as (t3 & Hrun & ->).
  apply run_bind_Returned in Hrun as (st2 & w2 & t4 & t5 & Htune & Hrun & ->).
  apply run_call_Returned in Hrun as (t6 & Hrun & ->).
  apply run_call_Returned in Hrun as (t7 & Hrun & ->).
  apply run_ret_Returned in Hrun as ([= -> ->] & -> & ->).
  pose proof (run_TuneErrorModel_trace _ _ _ _ _ _ Htune) as Htuning.
  pose proof (run_world_after _ _ _ _ _ Hinit) as Hw1.
  pose proof (run_world_after _ _ _ _ _ Htune) as Hw2.
  pose proof Hinit as Hinit0.
  unfold InitGraph in Hinit.
  apply run_call_Returned in Hinit as (u1 & Hinit & ->).
  apply run_call_Returned in Hinit as (u2 & Hinit & ->).
  apply run_bind_Returned in Hinit as (st0 & w0 & u3 & u4 & Hsimple & Hinit & ->).
  pose proof (run_world_after _ _ _ _ _ Hsimple) as Hw0.
  apply run_call_Returned in Hinit as (u5 & Hinit & ->).
  apply run_call_Returned in Hinit as (u6 & Hinit & ->).
  apply run_call_Returned in Hinit as (u7 & Hinit & ->).
  apply run_call_Returned in Hinit as (u8 & Hinit & ->).
  apply run_call_Returned in Hinit as (u9 & Hinit & ->).
  apply run_call_Returned in Hinit as (u10 & Hinit & ->).
  apply run_call_Returned in Hinit as (u11 & Hinit & ->).
  apply run_call_Returned in Hinit as (u12 & Hinit & ->).
  apply run_call_Returned in Hinit as (u13 & Hinit & ->).
  unfold AddPseudorangeMeasurements in Hsimple, Hinit.
  apply run_AddPseudorangeMeasurements_loop in Hsimple
    as (Pseudoranges & Hread & Hfac & _); [|by left].
  apply run_AddPseudorangeMeasurements_loop in Hinit
    as (Pseudoranges' & Hread' & Hfac' & _); [|done].
  pose proof (Forall2_read_functional _ _ _ _ Hread' Hread) as ->.
  apply (Gaussian_factors SimpleGraph) in Hfac as ->; [|done].
  exists Pseudoranges, u13, t4, st1.
  split; [exact Hread|]. cbv zeta.
  subst w0 w1 w2. clear Hread Hread'.
  unfold world_after in *. rewrite ?foldl_app in *. cbn [foldl app fst snd] in *.
  rewrite ?foldl_app in *. cbn [foldl app fst snd] in *.
  repeat first [rewrite <-app_assoc in Hinit0 | progress cbn [app] in Hinit0].
  repeat first [rewrite <-app_assoc in Htune | progress cbn [app] in Htune].
  repeat first [rewrite <-app_assoc | progress cbn [app]].
  split; [|split; [|split; [|split; [|split]]]].
  - reflexivity.
  - exact Hfac'.
  - exact Hinit0.
  - exact Htune.
  - exact Htuning.
  - reflexivity.
Qed.

End InitFacts.

Section Totality.
Context `{Library}.
Context {W : Type} (h : ∀ e, W → answer e * W).

Lemma returns_ret {A} (a : A) w : returns h (mret a) w.
Proof. unfold returns. simpl. eauto. Qed.

Lemma returns_bind {A B} (p : Prog A) (f : A → Prog B) w :
  returns h p w → (∀ a w1, returns h (f a) w1) → returns h (p ≫= f) w.
Proof.
  intros (a & w1 & t1 & Hp) Hf. destruct (Hf a w1) as (b & w2 & t2 & Hfa).
  exists b, w2, (t1 ++ t2). by rewrite run_bind, Hp, Hfa.
Qed.

Lemma returns_call {B} (e : Event) (f : answer e → Prog B) w :
  (∀ r w1, returns h (f r) w1) → returns h (call e ≫= f) w.
Proof.
  intros Hf. apply returns_bind; [|done].
  unfold returns. simpl. destruct (h e w). simpl. eauto.
Qed.

Lemma returns_apply_error_model G Config gmm w :
  returns h (apply_error_model G Config gmm) w.
Proof.
  destruct (run_apply_error_model h G Config gmm w) as (w' & rest & Hr & _).
  unfold returns. eauto.
Qed.

Lemma returns_AddPseudorange G Config L Pseudorange st w :
  supported Config →
  (Type_ (GNSS_ErrorModel Config) = ErrorModelType.cDCE →
   getStdDev Pseudorange ≠ []) →
  returns h (AddPseudorange G Config L Pseudorange st) w.
Proof.
  intros Hsup Hsd. unfold supported in Hsup. cbv zeta in Hsup.
  unfold AddPseudorange.
  destruct Hsup as [Hty|[Hty|[Hty|[Hty Hmix]]]]; rewrite Hty in *.
  - apply returns_call. intros. apply returns_ret.
  - apply returns_call. intros. apply returns_ret.
  - destruct (getStdDev Pseudorange) as [|sigma ?]; [by destruct Hsd|].
    apply returns_call. intros. apply returns_ret.
  - destruct Hmix as [Hmix|Hmix]; rewrite Hmix; simpl decide; cbv iota.
    + apply returns_call. intros. apply returns_ret.
    + apply returns_call. intros. apply returns_ret.
Qed.

Lemma returns_AddPseudorangeMeasurements G Measurements Config Timestamp st w :
  wf Measurements →
  Z.of_nat (length (elements_at Measurements SensorType.Pseudorange3 Timestamp))
    < 2 ^ 31 →
  supported Config →
  (Type_ (GNSS_ErrorModel Config) = ErrorModelType.cDCE →
   Forall (λ Pseudorange, getStdDev Pseudorange ≠ [])
     (elements_at Measurements SensorType.Pseudorange3 Timestamp)) →
  returns h (AddPseudorangeMeasurements G Measurements Config Timestamp st) w.
Proof.
  intros Hwf Hlen Hsup Hsd. unfold AddPseudorangeMeasurements. cbv zeta.
  set (L := [(POSITION_STATE, Timestamp); (CLOCK_ERROR_STATE, Timestamp)]).
  set (els := elements_at Measurements SensorType.Pseudorange3 Timestamp) in *.
  rewrite countElement_elements_at. fold els.
  rewrite int_of_size_t_small by done.
  assert (Forall (λ c, ∃ m, getElement_value Measurements SensorType.Pseudorange3
                              Timestamp c = Ok m ∧ m ∈ els)
            (seqZ 0 (Z.of_nat (length els)))) as Hall.
  { apply Forall_forall. intros c Hc. apply elem_of_seqZ in Hc.
    destruct (lookup_lt_is_Some_2 els (Z.to_nat c) ltac:(lia)) as [m Hm].
    exists m. split; [|by eapply list_elem_of_lookup_2].
    replace c with (Z.of_nat (Z.to_nat c)) at 1 by lia.
    by apply getElement_value_stored. }
  revert st w. induction Hall as [|c cs (m & Hget & Hin) _ IH]; intros st w.
  - apply returns_ret.
  - simpl AddPseudorangeMeasurements_loop. rewrite Hget.
    change (returns h (AddPseudorange G Config L m st ≫= λ st0,
              AddPseudorangeMeasurements_loop G Measurements Config Timestamp L cs st0) w).
    apply returns_bind; [|auto].
    apply returns_AddPseudorange; [done|].
    intros Hty. specialize (Hsd Hty). rewrite Forall_forall in Hsd. by apply Hsd.
Qed.

Lemma returns_TuneErrorModel G Config st w : returns h (TuneErrorModel G Config st) w.
Proof.
  destruct (TuningType (GNSS_ErrorModel Config)) eqn:Htun.
  - rewrite TuneErrorModel_None by done. apply returns_ret.
  - rewrite TuneErrorModel_EM by done.
    apply returns_call. intros. apply returns_call. intros.
    apply returns_bind; [apply returns_apply_error_model|]. intros. apply returns_ret.
  - rewrite TuneErrorModel_VBI by done.
    apply returns_call. intros. apply returns_call. intros.
    apply returns_bind; [apply returns_apply_error_model|]. intros. apply returns_ret.
  - rewrite TuneErrorModel_Other by done.
    apply returns_call. intros. apply returns_ret.
Qed.

Lemma returns_main_init InputData Config Options TimestampFirst Result st w :
  wf InputData →
  Z.of_nat (length (elements_at InputData SensorType.Pseudorange3 TimestampFirst))
    < 2 ^ 31 →
  supported Config →
  (Type_ (GNSS_ErrorModel Config) = ErrorModelType.cDCE →
   Forall (λ Pseudorange, getStdDev Pseudorange ≠ [])
     (elements_at InputData SensorType.Pseudorange3 TimestampFirst)) →
  returns h (main_init InputData Config Options TimestampFirst Result st) w.
Proof.
  intros Hwf Hlen Hsup Hsd. unfold main_init.
  apply returns_bind.
  - unfold InitGraph.
    apply returns_call. intros. apply returns_call. intros.
    apply returns_bind.
    { apply returns_AddPseudorangeMeasurements; try done. by left. }
    intros. cbv zeta. do 9 (apply returns_call; intros).
    by apply returns_AddPseudorangeMeasurements.
  - intros. apply returns_call. intros.
    apply returns_bind; [apply returns_TuneErrorModel|]. intros.
    apply returns_call. intros. apply returns_call. intros. apply returns_ret.
Qed.

(** C8 (amended): at the first timestamp the throwaway graph gets its
    Point3 and ClockError states and every pseudorange of that timestamp
    as a Gaussian factor, and is solved once; the main graph then gets
    its four states, then the position and clock error means that the
    throwaway graph answers, then the pseudoranges under the configured
    error model, which ends [InitGraph]; it is solved, tuned by
    [TuneErrorModel] and solved again, and then the first result is read
    and the value read is what is recorded.  The pseudoranges are a valid
    stream of fewer than 2^31 entries, each with a standard deviation
    where cDCE reads one. *)
Theorem main_init_sequence ErrorModel Config0 InputData Config Options
    TimestampFirst Result st w :
  ParseErrorModel ErrorModel Config0 = Some Config →
  wf InputData →
  Z.of_nat (length (elements_at InputData SensorType.Pseudorange3 TimestampFirst))
    < 2 ^ 31 →
  (Type_ (GNSS_ErrorModel Config) = ErrorModelType.cDCE →
   Forall (λ Pseudorange, getStdDev Pseudorange ≠ [])
     (elements_at InputData SensorType.Pseudorange3 TimestampFirst)) →
  ∃ Result' st' w' trace Pseudoranges Factors Tuning st1,
    run h (main_init InputData Config Options TimestampFirst Result st) w
    = Returned (Result', st') w' trace
    ∧ pseudoranges_read InputData TimestampFirst Pseudoranges
    ∧ let simple_graph :=
        [addState SimpleGraph POSITION_STATE StateType.Point3 TimestampFirst;
         addState SimpleGraph CLOCK_ERROR_STATE StateType.ClockError TimestampFirst]
        ++ (Gaussian_pseudorange SimpleGraph TimestampFirst <$> Pseudoranges)
        ++ [solve SimpleGraph
              {| minimizer_progress_to_stdout := false;
                 use_nonmonotonic_steps := use_nonmonotonic_steps Options;
                 trust_region_strategy_DOGLEG := trust_region_strategy_DOGLEG Options;
                 dogleg_type_SUBSPACE_DOGLEG := dogleg_type_SUBSPACE_DOGLEG Options;
                 num_threads := num_threads Options;
                 max_num_iterations := max_num_iterations Options |}] in
      let states :=
        [addState Graph POSITION_STATE StateType.Point3 TimestampFirst;
         addState Graph CLOCK_ERROR_STATE StateType.ClockError TimestampFirst;
         addState Graph ORIENTATION_STATE StateType.Angle TimestampFirst;
         addState Graph CLOCK_DRIFT_STATE StateType.ClockDrift TimestampFirst] in
      let Position :=
        (h (getMean SimpleGraph POSITION_STATE TimestampFirst)
           (world_after h w (simple_graph ++ states))).1 in
      let copy_Position :=
        [getMean SimpleGraph POSITION_STATE TimestampFirst;
         setMean Graph POSITION_STATE TimestampFirst Position] in
      let ClockError :=
        (h (getMean SimpleGraph CLOCK_ERROR_STATE TimestampFirst)
           (world_after h w (simple_graph ++ states ++ copy_Position))).1 in
      let copy_ClockError :=
        [getMean SimpleGraph CLOCK_ERROR_STATE TimestampFirst;
         setMean Graph CLOCK_ERROR_STATE TimestampFirst ClockError] in
      let initialised :=
        simple_graph ++ states ++ copy_Position ++ copy_ClockError ++ Factors in
      let tuned := initialised ++ [solve Graph Options] ++ Tuning in
      let Element :=
        (h (getStateData_getElement Graph POSITION_STATE TimestampFirst 0)
           (world_after h w (tuned ++ [solve Graph Options]))).1 in
      trace = tuned ++ [solve Graph Options;
                        getStateData_getElement Graph POSITION_STATE TimestampFirst 0]
      ∧ Forall2 (configured_pseudorange Config TimestampFirst) Pseudoranges Factors
      ∧ run h (InitGraph InputData Config Options TimestampFirst st) w
        = Returned st1 (world_after h w initialised) initialised
      ∧ run h (TuneErrorModel Graph Config st1)
          (world_after h w (initialised ++ [solve Graph Options]))
        = Returned st' (world_after h w tuned) Tuning
      ∧ Forall tuning_event Tuning
      ∧ Result' = StateDataSet_addElement Result POSITION_STATE Element.
Proof.
  intros Hparse Hwf Hlen Hsd. apply ParseErrorModel_supported in Hparse.
  destruct (returns_main_init InputData Config Options TimestampFirst Result st w
              Hwf Hlen Hparse Hsd) as ([Result' st'] & w' & trace & Hrun).
  destruct (main_init_answers h _ _ _ _ _ _ _ _ _ _ _ Hparse Hrun)
    as (Pseudoranges & Factors & Tuning & st1 & Hshape).
  exists Result', st', w', trace, Pseudoranges, Factors, Tuning, st1.
  by split.
Qed.

End Totality.

(** ** The members of [DataSet] the driver does not call, and the runs of
    the driver *)

Section NeighbourFacts.
Context {KeyType : Type} `{Countable KeyType} {ObjectType : Type}.
Implicit Types (ds : DataSet KeyType ObjectType).
Implicit Types (s A F B R : list (Z * ObjectType)) (e : Z * ObjectType).
Implicit Types (ID : KeyType) (t k : Z).

Lemma elem_of_timestamps ds ID k :
  k ∈ timestamps ds ID ↔ ∃ o, (k, o) ∈ stream ds ID.
Proof.
  unfold timestamps. rewrite elem_of_remove_dups, list_elem_of_fmap. split.
  - intros ([k' o] & -> & Hin). eauto.
  - intros (o & Hin). by exists (k, o).
Qed.

Lemma stream_lookup ds ID s : _DataStreams ds !! ID = Some s → stream ds ID = s.
Proof. unfold stream. by intros ->. Qed.

Lemma stream_None ds ID : _DataStreams ds !! ID = None → stream ds ID = [].
Proof. unfold stream. by intros ->. Qed.

Lemma timestamps_None ds ID : _DataStreams ds !! ID = None → timestamps ds ID = [].
Proof. unfold timestamps. by intros ->%stream_None. Qed.

Lemma checkID_Some ds ID s : _DataStreams ds !! ID = Some s → checkID ds ID = true.
Proof. intros Hs. unfold checkID. apply bool_decide_eq_true_2. eauto. Qed.

Lemma checkID_None ds ID : _DataStreams ds !! ID = None → checkID ds ID = false.
Proof. intros Hs. unfold checkID. apply bool_decide_eq_false_2. rewrite Hs. by intros [? ?]. Qed.

(** In a chronological stream the head is a least and the last entry a
    greatest key. *)
Lemma chronological_last_ge A e :
  chronological (A ++ [e]) = true → Forall (λ a, a.1 ≤ e.1) (A ++ [e]).
Proof.
  intros Hc. apply Forall_app. split; [by eapply chronological_app_le|].
  constructor; [lia|constructor].
Qed.

Lemma chronological_app_l A s : chronological (A ++ s) = true → chronological A = true.
Proof.
  induction A as [|a A IH]; intros Hs; [done|].
  simpl app in Hs. apply chronological_cons in Hs as [Hall Hs].
  apply chronological_cons. split; [|auto].
  by apply Forall_app in Hall as [? _].
Qed.

Lemma first_app_head A e s : first (A ++ e :: s) (length A) = Ok e.1.
Proof. apply first_lookup. by apply list_lookup_middle. Qed.

Lemma first_app_last A e s :
  first ((A ++ [e]) ++ s) (Z.to_nat (Z.of_nat (length (A ++ [e])) + -1)) = Ok e.1.
Proof.
  apply first_lookup. rewrite length_app. simpl.
  replace (Z.to_nat _) with (length A) by lia.
  rewrite <-app_assoc. by apply list_lookup_middle.
Qed.


Lemma last_keys_snoc A e : last (A ++ [e]).*1 = Some e.1.
Proof. rewrite fmap_app. apply last_snoc. Qed.

(** The four neighbour queries, read off the decomposition of the stream
    around the query time. *)
Lemma getTimeAboveOrEqual_split ds ID t s A F B :
  _DataStreams ds !! ID = Some s → split_at s t A F B →
  getTimeAboveOrEqual ds ID t = Ok (head (F ++ B).*1).
Proof.
  intros Hs Hsp. unfold getTimeAboveOrEqual.
  rewrite (checkID_Some _ _ _ Hs), (map_at_lookup _ _ _ Hs). simpl.
  rewrite (split_lower_bound _ _ _ _ _ Hsp). destruct Hsp as [-> _ _ _].
  destruct (F ++ B) as [|e R] eqn:HR.
  - rewrite app_nil_r. by rewrite bool_decide_eq_false_2 by auto.
  - rewrite bool_decide_eq_true_2 by (rewrite length_app; simpl; lia).
    by rewrite first_app_head.
Qed.

Lemma getTimeAbove_split ds ID t s A F B :
  _DataStreams ds !! ID = Some s → split_at s t A F B →
  getTimeAbove ds ID t = Ok (head B.*1).
Proof.
  intros Hs Hsp. unfold getTimeAbove.
  rewrite (checkID_Some _ _ _ Hs), (map_at_lookup _ _ _ Hs). simpl.
  rewrite (split_upper_bound _ _ _ _ _ Hsp). destruct Hsp as [-> _ _ _].
  rewrite app_assoc. rewrite <-length_app.
  destruct B as [|e R].
  - rewrite app_nil_r. by rewrite bool_decide_eq_false_2 by auto.
  - rewrite bool_decide_eq_true_2 by (rewrite (length_app (A ++ F)); simpl; lia).
    by rewrite first_app_head.
Qed.

Lemma step_below A R :
  (if bool_decide (length A ≠ 0%nat)
   then It ← advance (A ++ R) (length A) (-1);
        TimeOut ← first (A ++ R) It; Ok (Some TimeOut)
   else Ok None) = Ok (last A.*1).
Proof.
  destruct A as [|a A' _] using rev_ind.
  - by rewrite bool_decide_eq_false_2 by auto.
  - rewrite bool_decide_eq_true_2 by (rewrite length_app; simpl; lia).
    rewrite advance_Ok by (rewrite !length_app; simpl; lia).
    rewrite bind_Ok, first_app_last. simpl.
    by rewrite last_keys_snoc.
Qed.

Lemma getTimeBelow_split ds ID t s A F B :
  _DataStreams ds !! ID = Some s → split_at s t A F B →
  getTimeBelow ds ID t = Ok (last A.*1).
Proof.
  intros Hs Hsp. unfold getTimeBelow.
  rewrite (checkID_Some _ _ _ Hs), (map_at_lookup _ _ _ Hs). simpl.
  rewrite (split_lower_bound _ _ _ _ _ Hsp). destruct Hsp as [-> _ _ _].
  apply step_below.
Qed.

Lemma getTimeBelowOrEqual_split ds ID t s A F B :
  _DataStreams ds !! ID = Some s → split_at s t A F B →
  getTimeBelowOrEqual ds ID t = Ok (if decide (F = []) then last A.*1 else Some t).
Proof.
  intros Hs Hsp. unfold getTimeBelowOrEqual.
  rewrite (checkID_Some _ _ _ Hs), (map_at_lookup _ _ _ Hs). simpl.
  rewrite (split_lower_bound _ _ _ _ _ Hsp). destruct Hsp as [-> _ HF HB].
  pose proof (step_below A (F ++ B)) as Hbelow.
  destruct (F ++ B) as [|e R] eqn:HR.
  - apply app_eq_nil in HR as [-> ->]. rewrite decide_True by done.
    rewrite app_nil_r in *.
    rewrite (bool_decide_eq_false_2 (length A ≠ length A)) by auto.
    simpl orb. rewrite bind_Ok.
    destruct (bool_decide (length A ≠ 0%nat)) eqn:HA; [|done].
    exact Hbelow.
  - rewrite (bool_decide_eq_true_2 (length A ≠ length (A ++ e :: R)))
      by (rewrite length_app; simpl; lia).
    simpl orb. cbv iota. rewrite first_app_head. rewrite !bind_Ok.
    destruct F as [|f F'].
    + rewrite decide_True by done. simpl in HR. subst B.
      apply Forall_cons in HB as [Hb _].
      rewrite bool_decide_eq_false_2 by lia. exact Hbelow.
    + rewrite decide_False by done. simplify_eq/=.
      apply Forall_cons in HF as [Hf _].
      rewrite bool_decide_eq_true_2 by done. by rewrite Hf.
Qed.


Lemma timestamps_lookup ds ID s k :
  _DataStreams ds !! ID = Some s → k ∈ timestamps ds ID ↔ k ∈ s.*1.
Proof.
  intros Hs. unfold timestamps. by rewrite (stream_lookup _ _ _ Hs), elem_of_remove_dups.
Qed.

Lemma keys_lt A t k : Forall (λ e, e.1 < t) A → k ∈ A.*1 → k < t.
Proof.
  intros HA ([k' o] & -> & Hin)%list_elem_of_fmap.
  rewrite Forall_forall in HA. exact (HA _ Hin).
Qed.

Lemma keys_eq F t k : Forall (λ e, e.1 = t) F → k ∈ F.*1 → k = t.
Proof.
  intros HF ([k' o] & -> & Hin)%list_elem_of_fmap.
  rewrite Forall_forall in HF. exact (HF _ Hin).
Qed.

Lemma keys_gt B t k : Forall (λ e, t < e.1) B → k ∈ B.*1 → t < k.
Proof.
  intros HB ([k' o] & -> & Hin)%list_elem_of_fmap.
  rewrite Forall_forall in HB. exact (HB _ Hin).
Qed.

Lemma keys_head_le e R k :
  chronological (e :: R) = true → k ∈ (e :: R).*1 → e.1 ≤ k.
Proof.
  intros Hc ([k' o] & -> & Hin)%list_elem_of_fmap.
  pose proof (chronological_head_le _ _ Hc) as Hall.
  rewrite Forall_forall in Hall. exact (Hall _ Hin).
Qed.

Lemma keys_last_ge A e k :
  chronological (A ++ [e]) = true → k ∈ (A ++ [e]).*1 → k ≤ e.1.
Proof.
  intros Hc ([k' o] & -> & Hin)%list_elem_of_fmap.
  pose proof (chronological_last_ge _ _ Hc) as Hall.
  rewrite Forall_forall in Hall. exact (Hall _ Hin).
Qed.

Lemma keys_app A R k : k ∈ (A ++ R).*1 ↔ k ∈ A.*1 ∨ k ∈ R.*1.
Proof. by rewrite fmap_app, elem_of_app. Qed.

Lemma head_keys_elem R k : head R.*1 = Some k → k ∈ R.*1.
Proof. destruct R as [|e R]; [done|]. intros [= <-]. apply list_elem_of_here. Qed.

Lemma last_keys_elem A k : last A.*1 = Some k → k ∈ A.*1.
Proof.
  destruct A as [|a A' _] using rev_ind; [done|].
  rewrite last_keys_snoc. intros [= <-]. rewrite fmap_app, elem_of_app. right.
  apply list_elem_of_here.
Qed.

Lemma getTimeAboveOrEqual_stream ds ID s TimeIn :
  _DataStreams ds !! ID = Some s → chronological s = true →
  ∃ r, getTimeAboveOrEqual ds ID TimeIn = Ok r
       ∧ match r with
         | Some TimeOut =>
             TimeOut ∈ timestamps ds ID ∧ TimeIn ≤ TimeOut
             ∧ ∀ k, k ∈ timestamps ds ID → TimeIn ≤ k → TimeOut ≤ k
         | None => ∀ k, k ∈ timestamps ds ID → k < TimeIn
         end.
Proof.
  intros Hs Hc.
  destruct (chronological_split s TimeIn Hc) as (A & F & B & Hsp).
  eexists. split; [exact (getTimeAboveOrEqual_split _ _ _ _ _ _ _ Hs Hsp)|].
  destruct Hsp as [-> HA HF HB].
  assert (∀ k, k ∈ (F ++ B).*1 → TimeIn ≤ k) as Hge.
  { intros k [Hk|Hk]%keys_app.
    - by rewrite (keys_eq _ _ _ HF Hk).
    - pose proof (keys_gt _ _ _ HB Hk). lia. }
  destruct (F ++ B) as [|e R] eqn:HR; simpl.
  - intros k Hk. rewrite (timestamps_lookup _ _ _ _ Hs), app_nil_r in Hk.
    by eapply keys_lt.
  - split; [|split].
    + rewrite (timestamps_lookup _ _ _ _ Hs), keys_app. right. apply list_elem_of_here.
    + apply Hge. apply list_elem_of_here.
    + intros k Hk Hle. rewrite (timestamps_lookup _ _ _ _ Hs), keys_app in Hk.
      destruct Hk as [Hk|Hk]; [pose proof (keys_lt _ _ _ HA Hk); lia|].
      apply chronological_app_r in Hc. by eapply keys_head_le.
Qed.

(** X3: [getTimeAboveOrEqual] returns the least stored timestamp that is
    not below the query time, and [false] exactly when every stored
    timestamp is below it (or the key has no stream). *)
Theorem getTimeAboveOrEqual_least ds ID TimeIn :
  wf ds →
  ∃ r, getTimeAboveOrEqual ds ID TimeIn = Ok r
       ∧ match r with
         | Some TimeOut =>
             TimeOut ∈ timestamps ds ID ∧ TimeIn ≤ TimeOut
             ∧ ∀ k, k ∈ timestamps ds ID → TimeIn ≤ k → TimeOut ≤ k
         | None => ∀ k, k ∈ timestamps ds ID → k < TimeIn
         end.
Proof.
  intros Hwf. destruct (_DataStreams ds !! ID) as [s|] eqn:Hs.
  - destruct (wf_lookup _ _ _ Hwf Hs) as [Hc _].
    exact (getTimeAboveOrEqual_stream ds ID s TimeIn Hs Hc).
  - exists None. split.
    + unfold getTimeAboveOrEqual. by rewrite (checkID_None _ _ Hs).
    + intros k Hk. rewrite (timestamps_None _ _ Hs) in Hk. by apply elem_of_nil in Hk.
Qed.

Lemma getTimeAbove_stream ds ID s Timestamp :
  _DataStreams ds !! ID = Some s → chronological s = true →
  ∃ r, getTimeAbove ds ID Timestamp = Ok r
       ∧ match r with
         | Some NextTimeStamp =>
             NextTimeStamp ∈ timestamps ds ID ∧ Timestamp < NextTimeStamp
             ∧ ∀ k, k ∈ timestamps ds ID → Timestamp < k → NextTimeStamp ≤ k
         | None => ∀ k, k ∈ timestamps ds ID → k ≤ Timestamp
         end.
Proof.
  intros Hs Hc.
  destruct (chronological_split s Timestamp Hc) as (A & F & B & Hsp).
  eexists. split; [exact (getTimeAbove_split _ _ _ _ _ _ _ Hs Hsp)|].
  destruct Hsp as [-> HA HF HB].
  assert (∀ k, k ∈ (A ++ F).*1 → k ≤ Timestamp) as Hle.
  { intros k [Hk|Hk]%keys_app.
    - pose proof (keys_lt _ _ _ HA Hk). lia.
    - rewrite (keys_eq _ _ _ HF Hk). lia. }
  rewrite app_assoc in Hs, Hc.
  destruct B as [|e R]; simpl.
  - intros k Hk. rewrite (timestamps_lookup _ _ _ _ Hs), app_nil_r in Hk. auto.
  - split; [|split].
    + rewrite (timestamps_lookup _ _ _ _ Hs), keys_app. right. apply list_elem_of_here.
    + apply (keys_gt _ _ _ HB). apply list_elem_of_here.
    + intros k Hk Hlt. rewrite (timestamps_lookup _ _ _ _ Hs), keys_app in Hk.
      destruct Hk as [Hk|Hk]; [specialize (Hle _ Hk); lia|].
      apply chronological_app_r in Hc. by eapply keys_head_le.
Qed.

(** X4: [getTimeAbove] returns the least stored timestamp above the query
    time, and [false] exactly when there is none. *)
Theorem getTimeAbove_least ds ID Timestamp :
  wf ds →
  ∃ r, getTimeAbove ds ID Timestamp = Ok r
       ∧ match r with
         | Some NextTimeStamp =>
             NextTimeStamp ∈ timestamps ds ID ∧ Timestamp < NextTimeStamp
             ∧ ∀ k, k ∈ timestamps ds ID → Timestamp < k → NextTimeStamp ≤ k
         | None => ∀ k, k ∈ timestamps ds ID → k ≤ Timestamp
         end.
Proof.
  intros Hwf. destruct (_DataStreams ds !! ID) as [s|] eqn:Hs.
  - destruct (wf_lookup _ _ _ Hwf Hs) as [Hc _].
    exact (getTimeAbove_stream ds ID s Timestamp Hs Hc).
  - exists None. split.
    + unfold getTimeAbove. by rewrite (checkID_None _ _ Hs).
    + intros k Hk. rewrite (timestamps_None _ _ Hs) in Hk. by apply elem_of_nil in Hk.
Qed.

Lemma getTimeBelow_stream ds ID s TimeIn :
  _DataStreams ds !! ID = Some s → chronological s = true →
  ∃ r, getTimeBelow ds ID TimeIn = Ok r
       ∧ match r with
         | Some TimeOut =>
             TimeOut ∈ timestamps ds ID ∧ TimeOut < TimeIn
             ∧ ∀ k, k ∈ timestamps ds ID → k < TimeIn → k ≤ TimeOut
         | None => ∀ k, k ∈ timestamps ds ID → TimeIn ≤ k
         end.
Proof.
  intros Hs Hc.
  destruct (chronological_split s TimeIn Hc) as (A & F & B & Hsp).
  eexists. split; [exact (getTimeBelow_split _ _ _ _ _ _ _ Hs Hsp)|].
  destruct Hsp as [-> HA HF HB].
  assert (∀ k, k ∈ (F ++ B).*1 → TimeIn ≤ k) as Hge.
  { intros k [Hk|Hk]%keys_app.
    - by rewrite (keys_eq _ _ _ HF Hk).
    - pose proof (keys_gt _ _ _ HB Hk). lia. }
  destruct A as [|a A' _] using rev_ind; simpl.
  - intros k Hk. rewrite (timestamps_lookup _ _ _ _ Hs) in Hk. auto.
  - rewrite last_keys_snoc. split; [|split].
    + rewrite (timestamps_lookup _ _ _ _ Hs), !keys_app. left. right.
      apply list_elem_of_here.
    + apply (keys_lt _ _ _ HA). rewrite keys_app. right. apply list_elem_of_here.
    + intros k Hk Hlt. rewrite (timestamps_lookup _ _ _ _ Hs), keys_app in Hk.
      destruct Hk as [Hk|Hk]; [|specialize (Hge _ Hk); lia].
      apply chronological_app_l in Hc. by eapply keys_last_ge.
Qed.

(** X5: [getTimeBelow] returns the greatest stored timestamp below the
    query time, and [false] exactly when there is none. *)
Theorem getTimeBelow_greatest ds ID TimeIn :
  wf ds →
  ∃ r, getTimeBelow ds ID TimeIn = Ok r
       ∧ match r with
         | Some TimeOut =>
             TimeOut ∈ timestamps ds ID ∧ TimeOut < TimeIn
             ∧ ∀ k, k ∈ timestamps ds ID → k < TimeIn → k ≤ TimeOut
         | None => ∀ k, k ∈ timestamps ds ID → TimeIn ≤ k
         end.
Proof.
  intros Hwf. destruct (_DataStreams ds !! ID) as [s|] eqn:Hs.
  - destruct (wf_lookup _ _ _ Hwf Hs) as [Hc _].
    exact (getTimeBelow_stream ds ID s TimeIn Hs Hc).
  - exists None. split.
    + unfold getTimeBelow. by rewrite (checkID_None _ _ Hs).
    + intros k Hk. rewrite (timestamps_None _ _ Hs) in Hk. by apply elem_of_nil in Hk.
Qed.

Lemma getTimeBelowOrEqual_stream ds ID s TimeIn :
  _DataStreams ds !! ID = Some s → chronological s = true →
  ∃ r, getTimeBelowOrEqual ds ID TimeIn = Ok r
       ∧ match r with
         | Some TimeOut =>
             TimeOut ∈ timestamps ds ID ∧ TimeOut ≤ TimeIn
             ∧ ∀ k, k ∈ timestamps ds ID → k ≤ TimeIn → k ≤ TimeOut
         | None => ∀ k, k ∈ timestamps ds ID → TimeIn < k
         end.
Proof.
  intros Hs Hc.
  destruct (chronological_split s TimeIn Hc) as (A & F & B & Hsp).
  eexists. split; [exact (getTimeBelowOrEqual_split _ _ _ _ _ _ _ Hs Hsp)|].
  destruct Hsp as [-> HA HF HB].
  destruct F as [|f F'].
  - rewrite decide_True by done. simpl app in *.
    destruct A as [|a A' _] using rev_ind; simpl.
    + intros k Hk. rewrite (timestamps_lookup _ _ _ _ Hs) in Hk.
      by apply (keys_gt _ _ _ HB).
    + rewrite last_keys_snoc. split; [|split].
      * rewrite (timestamps_lookup _ _ _ _ Hs), !keys_app. left. right.
        apply list_elem_of_here.
      * assert (a.1 < TimeIn); [|lia].
        apply (keys_lt _ _ _ HA). rewrite keys_app. right. apply list_elem_of_here.
      * intros k Hk Hle. rewrite (timestamps_lookup _ _ _ _ Hs), keys_app in Hk.
        destruct Hk as [Hk|Hk]; [|pose proof (keys_gt _ _ _ HB Hk); lia].
        apply chronological_app_l in Hc. by eapply keys_last_ge.
  - rewrite decide_False by done. split; [|split; [lia|auto]].
    rewrite (timestamps_lookup _ _ _ _ Hs), !keys_app. right. left.
    apply Forall_cons in HF as [<- _]. apply list_elem_of_here.
Qed.

(** X6: [getTimeBelowOrEqual] returns the greatest stored timestamp that
    is not above the query time, and [false] exactly when every stored
    timestamp is above it (or the key has no stream). *)
Theorem getTimeBelowOrEqual_greatest ds ID TimeIn :
  wf ds →
  ∃ r, getTimeBelowOrEqual ds ID TimeIn = Ok r
       ∧ match r with
         | Some TimeOut =>
             TimeOut ∈ timestamps ds ID ∧ TimeOut ≤ TimeIn
             ∧ ∀ k, k ∈ timestamps ds ID → k ≤ TimeIn → k ≤ TimeOut
         | None => ∀ k, k ∈ timestamps ds ID → TimeIn < k
         end.
Proof.
  intros Hwf. destruct (_DataStreams ds !! ID) as [s|] eqn:Hs.
  - destruct (wf_lookup _ _ _ Hwf Hs) as [Hc _].
    exact (getTimeBelowOrEqual_stream ds ID s TimeIn Hs Hc).
  - exists None. split.
    + unfold getTimeBelowOrEqual. by rewrite (checkID_None _ _ Hs).
    + intros k Hk. rewrite (timestamps_None _ _ Hs) in Hk. by apply elem_of_nil in Hk.
Qed.

End NeighbourFacts.

Section RoundTrips.
Context {KeyType : Type} `{Countable KeyType} {ObjectType : Type}.
Implicit Types (ds : DataSet KeyType ObjectType).
Implicit Types (s A F B R : list (Z * ObjectType)) (e : Z * ObjectType).
Implicit Types (ID : KeyType) (t k : Z).

Lemma getTimeFirst_stream ds ID s :
  _DataStreams ds !! ID = Some s → chronological s = true → s ≠ [] →
  ∃ TimeFirst,
    getTimeFirst ds ID = Ok (Some TimeFirst)
    ∧ TimeFirst ∈ timestamps ds ID
    ∧ ∀ k, k ∈ timestamps ds ID → TimeFirst ≤ k.
Proof.
  intros Hs Hc Hne. destruct s as [|e0 s0]; [done|].
  exists e0.1. split; [|split].
  - unfold getTimeFirst. by rewrite Hs.
  - rewrite (timestamps_lookup _ _ _ _ Hs). apply list_elem_of_here.
  - intros k Hk. rewrite (timestamps_lookup _ _ _ _ Hs) in Hk.
    by eapply keys_head_le.
Qed.

Lemma getTimeLast_stream ds ID s :
  _DataStreams ds !! ID = Some s → chronological s = true → s ≠ [] →
  ∃ TimeLast,
    getTimeLast ds ID = Ok (Some TimeLast)
    ∧ TimeLast ∈ timestamps ds ID
    ∧ ∀ k, k ∈ timestamps ds ID → k ≤ TimeLast.
Proof.
  intros Hs Hc Hne.
  destruct (exists_last Hne) as (A & e1 & Hlast).
  exists e1.1. split; [|split].
  - unfold getTimeLast. rewrite Hs, Hlast.
    rewrite advance_Ok by (rewrite length_app; simpl; lia).
    rewrite bind_Ok. rewrite <-(app_nil_r (A ++ [e1])) at 1.
    by rewrite first_app_last.
  - rewrite (timestamps_lookup _ _ _ _ Hs), Hlast, keys_app. right.
    apply list_elem_of_here.
  - intros k Hk. rewrite (timestamps_lookup _ _ _ _ Hs) in Hk.
    rewrite Hlast in Hk, Hc. by eapply keys_last_ge.
Qed.

(** X7: for a valid data set, [getTimeFirst] and [getTimeLast] return the
    least and the greatest stored timestamp of the key, and both return
    [false] when the key has no stream. *)
Theorem getTimeFirst_getTimeLast_bounds ds ID :
  wf ds →
  (checkID ds ID = false
   ∧ getTimeFirst ds ID = Ok None ∧ getTimeLast ds ID = Ok None)
  ∨ (∃ TimeFirst TimeLast,
       checkID ds ID = true
       ∧ getTimeFirst ds ID = Ok (Some TimeFirst)
       ∧ getTimeLast ds ID = Ok (Some TimeLast)
       ∧ TimeFirst ∈ timestamps ds ID ∧ TimeLast ∈ timestamps ds ID
       ∧ ∀ k, k ∈ timestamps ds ID → TimeFirst ≤ k ≤ TimeLast).
Proof.
  intros Hwf. destruct (_DataStreams ds !! ID) as [s|] eqn:Hs.
  - right. destruct (wf_lookup _ _ _ Hwf Hs) as [Hc Hne].
    destruct (getTimeFirst_stream ds ID s Hs Hc Hne) as (TimeFirst & Hf & Hfin & Hmin).
    destruct (getTimeLast_stream ds ID s Hs Hc Hne) as (TimeLast & Hl & Hlin & Hmax).
    exists TimeFirst, TimeLast. split; [by eapply checkID_Some|].
    repeat split; auto.
  - left. split; [by apply checkID_None|].
    unfold getTimeFirst, getTimeLast. by rewrite Hs.
Qed.


Lemma stream_chronological ds ID : wf ds → chronological (stream ds ID) = true.
Proof.
  intros Hwf. unfold stream.
  destruct (_DataStreams ds !! ID) as [s|] eqn:Hs; simpl; [|done].
  by destruct (wf_lookup _ _ _ Hwf Hs).
Qed.

Lemma stream_split ds ID t A F B :
  split_at (stream ds ID) t A F B →
  elements_at ds ID t = F.*2 ∧ countElement ds ID t = int_of_size_t (length F).
Proof.
  unfold stream, elements_at, countElement.
  destruct (_DataStreams ds !! ID) as [s|] eqn:Hs; simpl; intros Hsp.
  - by rewrite (split_filter _ _ _ _ _ Hsp), (split_count _ _ _ _ _ Hsp).
  - destruct Hsp as [Heq _ _ _].
    symmetry in Heq. apply app_eq_nil in Heq as [_ [-> _]%app_eq_nil]. done.
Qed.

Lemma delete_snoc_middle A F e B :
  delete (length A + length F)%nat (A ++ (F ++ [e]) ++ B) = A ++ F ++ B.
Proof.
  rewrite delete_app_r. f_equal.
  rewrite delete_app_l by (rewrite length_app; simpl; lia). f_equal.
  rewrite <-(Nat.add_0_r (length F)), delete_app_r. simpl. by rewrite app_nil_r.
Qed.

(** X8: removing the element that [addElement] has just added, at the
    index it was given, gives back the data set as it was; the key is
    erased again when the element was its only one. *)
Theorem removeElement_addElement ds ID t o :
  wf ds →
  Z.of_nat (length (elements_at ds ID t)) + 1 < 2 ^ 31 →
  removeElement (addElement ds ID t o) ID t (countElement ds ID t) = Ok ds.
Proof.
  intros Hwf Hlen.
  pose proof (stream_chronological _ ID Hwf) as Hc.
  destruct (chronological_split _ t Hc) as (A & F & B & Hsp).
  destruct (stream_split _ _ _ _ _ _ Hsp) as [Hel Hcount].
  rewrite Hel, length_fmap in Hlen.
  rewrite int_of_size_t_small in Hcount by lia.
  set (s1 := A ++ (F ++ [(t, o)]) ++ B).
  assert (_DataStreams (addElement ds ID t o) = <[ID := s1]> (_DataStreams ds)) as Hm1.
  { rewrite addElement_streams. fold (stream ds ID).
    by rewrite (emplace_split _ _ _ _ _ _ Hsp). }
  assert (split_at s1 t A (F ++ [(t, o)]) B) as Hsp1.
  { destruct Hsp as [_ HA HF HB]. split; auto.
    apply Forall_app. split; [done|]. by constructor. }
  assert (_DataStreams (addElement ds ID t o) !! ID = Some s1) as Hs1.
  { by rewrite Hm1, lookup_insert_eq. }
  unfold removeElement, checkElement.
  rewrite (countElement_split _ _ _ _ _ _ _ Hs1 Hsp1), Hcount.
  rewrite int_of_size_t_small by (rewrite length_app; simpl; lia).
  rewrite (proj2 (Z.gtb_lt _ _)) by (rewrite length_app; simpl; lia).
  rewrite (map_at_lookup _ _ _ Hs1), bind_Ok.
  rewrite (split_find _ _ _ _ _ Hsp1).
  rewrite decide_False by (intros Hnil; by apply app_eq_nil in Hnil as [_ ?]).
  assert (length s1 = length A + length F + 1 + length B)%nat as Hls1.
  { unfold s1. rewrite !length_app. simpl. lia. }
  rewrite advance_Ok by lia. rewrite bind_Ok.
  replace (Z.to_nat (Z.of_nat (length A) + Z.of_nat (length F)))
    with (length A + length F)%nat by lia.
  rewrite bool_decide_eq_true_2 by lia.
  unfold s1 at 1. rewrite delete_snoc_middle.
  destruct Hsp as [Hs0 _ _ _]. rewrite <-Hs0.
  f_equal. destruct ds as [m null]. simpl in *. f_equal.
  rewrite Hm1. unfold erase_empty, stream in *. simpl in *.
  destruct (m !! ID) as [s|] eqn:Hs; simpl.
  - destruct (wf_lookup _ _ _ Hwf Hs) as [_ Hne].
    destruct s as [|e s']; [done|].
    rewrite insert_insert_eq. by apply insert_id.
  - by apply delete_insert_id.
Qed.


Lemma chronological_keys s s' :
  s.*1 = s'.*1 → chronological s = true → chronological s' = true.
Proof.
  revert s'. induction s as [|e s IH]; intros [|e' s'] Heq Hc; try done.
  injection Heq as He Hs. change (s.*1 = s'.*1) in Hs.
  apply chronological_cons in Hc as [Hall Hc]. apply chronological_cons.
  split; [|by apply IH].
  apply Forall_forall. intros x Hx.
  assert (x.1 ∈ s'.*1) as Hk by (apply list_elem_of_fmap; eauto).
  rewrite <-Hs in Hk. apply list_elem_of_fmap in Hk as (y & Hy1 & Hy).
  rewrite Forall_forall in Hall. specialize (Hall y Hy). lia.
Qed.

Lemma chronological_filter (P : Z * ObjectType → Prop) `{!∀ e, Decision (P e)} s :
  chronological s = true → chronological (filter P s) = true.
Proof.
  induction s as [|e s IH]; intros Hc; [done|].
  apply chronological_cons in Hc as [Hall Hc]. rewrite filter_cons.
  destruct (decide (P e)); [|auto].
  apply chronological_cons. split; [|auto].
  rewrite Forall_forall in *. intros x [_ Hx]%list_elem_of_filter. auto.
Qed.

Lemma lookup_erase_empty (m : gmap KeyType (list (Z * ObjectType))) ID ID' s :
  default [] (erase_empty m ID s !! ID')
  = if decide (ID' = ID) then s else default [] (m !! ID').
Proof.
  unfold erase_empty. destruct (decide (ID' = ID)) as [->|Hne].
  - destruct s; [by rewrite lookup_delete_eq | by rewrite lookup_insert_eq].
  - destruct s; [by rewrite lookup_delete_ne | by rewrite lookup_insert_ne].
Qed.

Lemma erase_empty_wf ds ID s null :
  wf ds → chronological s = true →
  wf {| _DataStreams := erase_empty (_DataStreams ds) ID s; NullObject := null |}.
Proof.
  intros Hwf Hc. unfold wf, erase_empty. simpl. destruct s as [|e s'] eqn:Hs.
  - by apply map_Forall_delete.
  - by apply map_Forall_insert_2.
Qed.

Lemma elements_at_stream ds ID t :
  elements_at ds ID t = (filter (λ e, e.1 = t) (stream ds ID)).*2.
Proof. unfold elements_at, stream. by destruct (_DataStreams ds !! ID). Qed.

(** X9: [removeElement(ID, Timestamp)] erases every element stored at the
    timestamp and nothing else, keeps the data set valid, and leaves it as
    it was when nothing is stored there. *)
Theorem removeElement_all_erases ds ID t :
  wf ds →
  Z.of_nat (length (elements_at ds ID t)) < 2 ^ 31 →
  ∃ ds', removeElement_all ds ID t = Ok ds'
         ∧ wf ds'
         ∧ NullObject ds' = NullObject ds
         ∧ (elements_at ds ID t = [] → ds' = ds)
         ∧ ∀ ID' t', elements_at ds' ID' t'
                     = if decide (ID' = ID ∧ t' = t) then []
                       else elements_at ds ID' t'.
Proof.
  intros Hwf Hlen.
  pose proof (stream_chronological _ ID Hwf) as Hc.
  destruct (chronological_split _ t Hc) as (A & F & B & Hsp).
  destruct (stream_split _ _ _ _ _ _ Hsp) as [Hel Hcount].
  rewrite Hel, length_fmap in Hlen.
  rewrite int_of_size_t_small in Hcount by lia.
  unfold removeElement_all, checkElement. rewrite Hcount.
  destruct F as [|f F'].
  - exists ds. split; [done|]. split; [done|]. split; [done|]. split; [done|].
    intros ID' t'. destruct (decide (ID' = ID ∧ t' = t)) as [[-> ->]|]; [|done].
    by rewrite Hel.
  - rewrite (proj2 (Z.gtb_lt _ _)) by (simpl; lia).
    destruct (_DataStreams ds !! ID) as [s|] eqn:Hs.
    2:{ rewrite (stream_None _ _ Hs) in Hsp. destruct Hsp as [Heq _ _ _].
        symmetry in Heq. by apply app_eq_nil in Heq as [_ [? _]%app_eq_nil]. }
    rewrite (stream_lookup _ _ _ Hs) in Hsp, Hc.
    rewrite (map_at_lookup _ _ _ Hs), bind_Ok.
    eexists. split; [reflexivity|]. split; [|split; [done|split]].
    + apply erase_empty_wf; [done|]. by apply chronological_filter.
    + rewrite Hel. done.
    + intros ID' t'. rewrite !elements_at_stream. unfold stream at 1. simpl.
      rewrite lookup_erase_empty.
      destruct (decide (ID' = ID)) as [->|Hne].
      * unfold erase_key. rewrite list_filter_filter.
        destruct (decide (t' = t)) as [->|Hnt].
        -- rewrite decide_True by done.
           rewrite (filter_key_none (λ e, e.1 = t ∧ e.1 ≠ t)); [done|].
           apply Forall_forall. intros x _ [? ?]. done.
        -- rewrite decide_False by tauto. rewrite (stream_lookup _ _ _ Hs).
           f_equal. apply list_filter_iff. intros x. split; [tauto|].
           intros Hx. split; [done|]. congruence.
      * rewrite decide_False by tauto. done.
Qed.


Lemma alter_keys (x : ObjectType) s (i : nat) :
  (alter (λ e, (e.1, x)) i s).*1 = s.*1.
Proof.
  erewrite (list_fmap_alter fst _ (λ k, k)); [|by apply Forall_forall].
  revert i. induction s.*1 as [|k l IH]; intros [|i]; simpl; try done.
  f_equal. apply IH.
Qed.

Lemma alter_objects (x : ObjectType) s (i : nat) :
  (alter (λ e, (e.1, x)) i s).*2 = <[i := x]> s.*2.
Proof.
  revert i. induction s as [|e s IH]; intros [|i]; simpl; try done.
  f_equal. apply IH.
Qed.

Lemma Forall_keys_alter (P : Z → Prop) (x : ObjectType) s (i : nat) :
  Forall (λ e, P e.1) s → Forall (λ e, P e.1) (alter (λ e, (e.1, x)) i s).
Proof. intros Hs. apply Forall_alter; [done|]. intros e _ He. done. Qed.

(** X10: [setElement] overwrites the element it is pointed at and nothing
    else: [getElement] then returns the new object at that place, every
    other place keeps its object, and the data set stays valid.  Where no
    element is stored it returns [false] and changes nothing. *)
Theorem setElement_getElement ds ID t (Number : nat) Element :
  wf ds →
  Z.of_nat (length (elements_at ds ID t)) < 2 ^ 31 →
  ∃ (found : bool) ds',
    setElement ds ID t (Z.of_nat Number) Element = Ok (found, ds')
    ∧ wf ds'
    ∧ (found = false → ds' = ds ∧ elements_at ds ID t !! Number = None)
    ∧ (found = true →
       is_Some (elements_at ds ID t !! Number)
       ∧ (∀ E, getElement_copy ds' ID t (Z.of_nat Number) E = Ok (true, Element))
       ∧ NullObject ds' = NullObject ds
       ∧ ∀ ID' t', elements_at ds' ID' t'
                   = if decide (ID' = ID ∧ t' = t)
                     then <[Number := Element]> (elements_at ds ID t)
                     else elements_at ds ID' t').
Proof.
  intros Hwf Hlen.
  pose proof (stream_chronological _ ID Hwf) as Hc.
  destruct (chronological_split _ t Hc) as (A & F & B & Hsp).
  destruct (stream_split _ _ _ _ _ _ Hsp) as [Hel Hcount].
  rewrite Hel, length_fmap in Hlen.
  rewrite int_of_size_t_small in Hcount by lia.
  unfold setElement, checkElement. rewrite Hcount.
  destruct (decide (Number < length F)%nat) as [Hlt|Hge].
  2:{ rewrite Z.gtb_ltb, (proj2 (Z.ltb_ge _ _)) by lia.
      exists false, ds. split; [done|]. split; [done|]. split; [|done].
      intros _. split; [done|]. rewrite Hel. apply lookup_ge_None.
      rewrite length_fmap. lia. }
  rewrite (proj2 (Z.gtb_lt _ _)) by lia.
  destruct (_DataStreams ds !! ID) as [s|] eqn:Hs.
  2:{ rewrite (stream_None _ _ Hs) in Hsp. destruct Hsp as [Heq _ _ _].
      symmetry in Heq. apply app_eq_nil in Heq as [_ [-> _]%app_eq_nil].
      simpl in Hlt. lia. }
  rewrite (stream_lookup _ _ _ Hs) in Hsp, Hc.
  rewrite (map_at_lookup _ _ _ Hs), bind_Ok.
  rewrite (split_find _ _ _ _ _ Hsp).
  rewrite decide_False by (intros ->; simpl in Hlt; lia).
  assert (length s = length A + length F + length B)%nat as Hls.
  { destruct Hsp as [-> _ _ _]. rewrite !length_app. lia. }
  rewrite advance_Ok by lia. rewrite bind_Ok.
  replace (Z.to_nat (Z.of_nat (length A) + Z.of_nat Number))
    with (length A + Number)%nat by lia.
  rewrite bool_decide_eq_true_2 by lia.
  set (g := λ e : Z * ObjectType, (e.1, Element)).
  set (ds' := assign ds (Stored ID (length A + Number)%nat) (λ _, Element)).
  assert (_DataStreams ds' = <[ID := A ++ alter g Number F ++ B]> (_DataStreams ds))
    as Hm'.
  { unfold ds'. simpl. apply map_eq. intros ID'.
    destruct (decide (ID' = ID)) as [->|Hne].
    - rewrite lookup_alter_eq, lookup_insert_eq, Hs. simpl. f_equal.
      destruct Hsp as [-> _ _ _].
      by rewrite alter_app_r, alter_app_l.
    - by rewrite lookup_alter_ne, lookup_insert_ne. }
  assert (split_at (A ++ alter g Number F ++ B) t A (alter g Number F) B) as Hsp'.
  { destruct Hsp as [_ HA HF HB]. split; auto.
    by apply (Forall_keys_alter (λ k, k = t)). }
  assert (chronological (A ++ alter g Number F ++ B) = true) as Hc'.
  { apply (chronological_keys s); [|done].
    destruct Hsp as [-> _ _ _]. rewrite !fmap_app. unfold g. by rewrite alter_keys. }
  assert (wf ds') as Hwf'.
  { unfold wf. rewrite Hm'. apply map_Forall_insert_2; [|done].
    split; [done|]. intros Hnil. apply (f_equal length) in Hnil.
    rewrite !length_app, length_alter in Hnil. simpl in Hnil. lia. }
  assert (∀ ID' t', elements_at ds' ID' t'
                    = if decide (ID' = ID ∧ t' = t)
                      then <[Number := Element]> (elements_at ds ID t)
                      else elements_at ds ID' t') as Hall.
  { intros ID' t'. unfold elements_at at 1. rewrite Hm'.
    destruct (decide (ID' = ID)) as [->|Hne].
    - rewrite lookup_insert_eq.
      destruct (decide (t' = t)) as [->|Hnt].
      + rewrite decide_True by done.
        rewrite (split_filter _ _ _ _ _ Hsp'), Hel. apply alter_objects.
      + rewrite decide_False by tauto. unfold elements_at. rewrite Hs.
        destruct Hsp as [-> HA HF HB]. rewrite !filter_app.
        rewrite (filter_key_none _ F), (filter_key_none _ (alter g Number F)); [done| |].
        * apply (Forall_keys_alter (λ k, ¬ k = t')).
          eapply Forall_impl; [exact HF|]. simpl. intros x ->. done.
        * eapply Forall_impl; [exact HF|]. simpl. intros x ->. done.
    - rewrite lookup_insert_ne by done. rewrite decide_False by tauto. done. }
  exists true, ds'. split; [done|]. split; [done|]. split; [done|].
  intros _. split; [|split; [|split; [done|exact Hall]]].
  - rewrite Hel. apply lookup_lt_is_Some. rewrite length_fmap. lia.
  - assert (elements_at ds' ID t = <[Number := Element]> (elements_at ds ID t)) as Hel'.
    { rewrite Hall. by rewrite decide_True. }
    destruct (getElement_stored ds' ID t Number Element Hwf') as (It & _ & _ & Hcopy).
    + rewrite Hel', length_insert, Hel, length_fmap. lia.
    + rewrite Hel'. apply list_lookup_insert_eq. rewrite Hel, length_fmap. lia.
    + exact Hcopy.
Qed.

(** X11: a negative [Number] passes [checkElement], so [getElement] never
    reports the element as missing.  Without a stream for the key it
    throws; otherwise it moves back from the position [find] returned and
    is undefined in front of [begin()], or returns a reference to an
    entry stored at another timestamp. *)
Theorem getElement_negative_Number_escapes ds ID t Number :
  wf ds →
  Number < 0 →
  Z.of_nat (length (elements_at ds ID t)) < 2 ^ 31 →
  let position := Z.of_nat (find (stream ds ID) t) + Number in
  (checkID ds ID = false → getElement ds ID t Number = Throw)
  ∧ (checkID ds ID = true → position < 0 → getElement ds ID t Number = Undefined)
  ∧ (checkID ds ID = true → 0 ≤ position →
     ∃ e, getElement ds ID t Number = Ok (Stored ID (Z.to_nat position))
          ∧ stream ds ID !! Z.to_nat position = Some e
          ∧ e.1 ≠ t).
Proof.
  intros Hwf Hneg Hlen. cbv zeta.
  pose proof (stream_chronological _ ID Hwf) as Hc.
  destruct (chronological_split _ t Hc) as (A & F & B & Hsp).
  destruct (stream_split _ _ _ _ _ _ Hsp) as [Hel Hcount].
  rewrite Hel, length_fmap in Hlen.
  rewrite int_of_size_t_small in Hcount by lia.
  assert (checkElement ds ID t Number = true) as Hck.
  { unfold checkElement. rewrite Hcount. apply Z.gtb_lt. lia. }
  unfold getElement. rewrite Hck.
  destruct (_DataStreams ds !! ID) as [s|] eqn:Hs.
  - rewrite (checkID_Some _ _ _ Hs). rewrite (stream_lookup _ _ _ Hs) in *.
    rewrite (map_at_lookup _ _ _ Hs), bind_Ok.
    assert (find s t ≤ length s)%nat as Hfl.
    { rewrite (split_find _ _ _ _ _ Hsp). destruct Hsp as [-> _ _ _].
      case_decide; rewrite !length_app; lia. }
    split; [done|]. split.
    + intros _ Hpos. unfold advance.
      by rewrite (proj2 (Z.leb_gt 0 (Z.of_nat (find s t) + Number))) by lia.
    + intros _ Hpos. rewrite advance_Ok by lia. rewrite bind_Ok.
      rewrite bool_decide_eq_true_2 by lia.
      destruct (s !! Z.to_nat (Z.of_nat (find s t) + Number)) as [e|] eqn:He;
        [|apply lookup_ge_None in He; lia].
      exists e. split; [done|]. split; [done|].
      rewrite (split_find _ _ _ _ _ Hsp) in He, Hpos.
      destruct Hsp as [-> HA HF HB]. case_decide as HFn.
      * subst F. simpl in He. apply list_elem_of_lookup_2 in He.
        apply elem_of_app in He as [He|He].
        -- rewrite Forall_forall in HA. specialize (HA _ He). simpl in HA. lia.
        -- rewrite Forall_forall in HB. specialize (HB _ He). simpl in HB. lia.
      * rewrite lookup_app_l in He by lia.
        apply list_elem_of_lookup_2 in He.
        rewrite Forall_forall in HA. specialize (HA _ He). simpl in HA. lia.
  - rewrite (checkID_None _ _ Hs). split; [|done].
    intros _. unfold map_at. by rewrite Hs.
Qed.

End RoundTrips.

Section LoopsOverTimestamps.
Context {KeyType : Type} `{Countable KeyType} {ObjectType : Type}.
Implicit Types (ds : DataSet KeyType ObjectType).
Implicit Types (s P A F B R : list (Z * ObjectType)) (e : Z * ObjectType).
Implicit Types (ID : KeyType) (t k : Z).

Local Ltac case_dup H :=
  match goal with
  | |- context [decide_rel ?R ?a ?b] => destruct (decide_rel R a b) as [H|H]
  end.

Lemma remove_dups_cons (k : Z) (l : list Z) :
  remove_dups (k :: l)
  = if decide_rel elem_of k l then remove_dups l else k :: remove_dups l.
Proof. reflexivity. Qed.

(** A chronological stream starts with the equal range of its first key. *)
Lemma head_block e R :
  chronological (e :: R) = true →
  ∃ F B, e :: R = F ++ B ∧ F ≠ []
         ∧ Forall (λ x, x.1 = e.1) F ∧ Forall (λ x, e.1 < x.1) B.
Proof.
  intros Hc. destruct (chronological_split _ e.1 Hc) as (A & F & B & [Heq HA HF HB]).
  destruct A as [|a A'].
  - exists F, B. split; [done|]. split; [|done].
    intros ->. simpl in Heq. subst B. apply Forall_cons in HB as [Hlt _]. lia.
  - simpl in Heq. injection Heq as <- _. apply Forall_cons in HA as [Hlt _]. lia.
Qed.

(** The remainder of a stream after a prefix of smaller keys. *)
Definition behind P R : Prop := ∀ p r, p ∈ P → r ∈ R → p.1 < r.1.

Lemma behind_block P F B k :
  behind P (F ++ B) → F ≠ [] → Forall (λ x, x.1 = k) F → Forall (λ x, k < x.1) B →
  split_at (P ++ F ++ B) k P F B ∧ behind (P ++ F) B.
Proof.
  intros Hb HF Hk HB. split.
  - split; auto. apply Forall_forall. intros p Hp.
    destruct F as [|f F']; [done|]. apply Forall_cons in Hk as [<- _].
    apply Hb; [done|]. apply list_elem_of_here.
  - intros p r [Hp|Hp]%elem_of_app Hr.
    + apply Hb; [done|]. apply elem_of_app. by right.
    + rewrite Forall_forall in Hk, HB. rewrite (Hk _ Hp). by apply HB.
Qed.

Lemma behind_nil R : behind [] R.
Proof. intros p r Hp. by apply elem_of_nil in Hp. Qed.

Lemma remove_dups_block F B k :
  F ≠ [] → Forall (λ x, x.1 = k) F → Forall (λ x, k < x.1) B →
  remove_dups (F ++ B).*1 = k :: remove_dups B.*1.
Proof.
  intros HF Hk HB. induction F as [|f F' IH]; [done|].
  apply Forall_cons in Hk as [Hf Hk].
  change ((f :: F') ++ B) with (f :: (F' ++ B)).
  rewrite fmap_cons, remove_dups_cons, Hf.
  case_dup Hin.
  - destruct F' as [|f' F'']; [|by apply IH].
    pose proof (keys_gt _ _ _ HB Hin). lia.
  - destruct F' as [|f' F'']; [done|].
    exfalso. apply Hin. apply Forall_cons in Hk as [<- _].
    change ((f' :: F'') ++ B) with (f' :: (F'' ++ B)). rewrite fmap_cons.
    apply list_elem_of_here.
Qed.

Lemma getTimesOfID_loop_spec fuel P R Times :
  chronological (P ++ R) = true → behind P R → (length R < fuel)%nat →
  getTimesOfID_loop fuel (P ++ R) (length P) Times
  = Some (Ok (Times ++ remove_dups R.*1)).
Proof.
  revert P R Times. induction fuel as [|fuel IH]; intros P R Times Hc Hb Hfuel; [lia|].
  simpl. destruct R as [|e R'].
  - rewrite app_nil_r. rewrite bool_decide_eq_false_2 by auto.
    by rewrite app_nil_r.
  - rewrite bool_decide_eq_true_2 by (rewrite length_app; simpl; lia).
    rewrite first_app_head. simpl loop_bind.
    destruct (head_block e R' (chronological_app_r _ _ Hc)) as (F & B & Heq & HF & Hk & HB).
    rewrite Heq in *.
    destruct (behind_block _ _ _ _ Hb HF Hk HB) as [Hsp Hb'].
    rewrite (split_upper_bound _ _ _ _ _ Hsp).
    rewrite <-length_app. rewrite (app_assoc P F B).
    rewrite IH; [|by rewrite <-app_assoc|done|].
    + rewrite (remove_dups_block _ _ _ HF Hk HB). by rewrite <-app_assoc.
    + rewrite length_app in Hfuel. destruct F; [done|]. simpl in Hfuel. lia.
Qed.

Lemma timestamps_sorted s :
  chronological s = true → StronglySorted Z.lt (remove_dups s.*1).
Proof.
  induction s as [|e s IH]; intros Hc; [constructor|].
  apply chronological_cons in Hc as [Hall Hc]. rewrite fmap_cons, remove_dups_cons.
  case_dup Hin; [auto|].
  constructor; [auto|].
  apply Forall_forall. intros k Hk. rewrite elem_of_remove_dups in Hk.
  assert (e.1 ≤ k).
  { apply list_elem_of_fmap in Hk as (x & -> & Hx).
    rewrite Forall_forall in Hall. by apply Hall. }
  assert (e.1 ≠ k) by (intros Heq; apply Hin; by rewrite Heq). lia.
Qed.

(** X12: [getTimesOfID] appends the stored timestamps of the key, each
    once and in increasing order, whatever the number of elements stored
    at each; for a key without a stream it returns [false] and appends
    nothing. *)
Theorem getTimesOfID_timestamps fuel ds ID Times :
  wf ds →
  (length (stream ds ID) < fuel)%nat →
  getTimesOfID fuel ds ID Times
  = Some (Ok (checkID ds ID, Times ++ timestamps ds ID))
  ∧ StronglySorted Z.lt (timestamps ds ID)
  ∧ ∀ k, k ∈ timestamps ds ID ↔ elements_at ds ID k ≠ [].
Proof.
  intros Hwf Hfuel. pose proof (stream_chronological _ ID Hwf) as Hc.
  split; [|split].
  - unfold getTimesOfID, timestamps, stream in *.
    destruct (_DataStreams ds !! ID) as [s|] eqn:Hs; simpl in *.
    + rewrite (checkID_Some _ _ _ Hs).
      pose proof (getTimesOfID_loop_spec fuel [] s Times Hc (behind_nil _) Hfuel) as Hl.
      simpl in Hl. by rewrite Hl.
    + rewrite (checkID_None _ _ Hs). by rewrite app_nil_r.
  - by apply timestamps_sorted.
  - intros k. rewrite elem_of_timestamps, elements_at_stream. split.
    + intros (o & Hin) Hnil. apply fmap_nil_inv in Hnil.
      by apply (filter_nil_not_elem_of _ _ (k, o) Hnil).
    + intros Hne. destruct (filter _ _) as [|[k' o] l] eqn:Hf; [done|].
      assert ((k', o) ∈ filter (λ e, e.1 = k) (stream ds ID)) as Hin
        by (rewrite Hf; apply list_elem_of_here).
      apply list_elem_of_filter in Hin as [Hk Hin]. simpl in Hk. subst k'. eauto.
Qed.


(** The identifiers [getUniqueIDs] appends at one timestamp. *)
Definition ids_at ds ID k : list (UniqueID.t KeyType) :=
  UniqueID.mk ID k <$> seqZ 0 (countElement ds ID k).

Lemma getUniqueIDs_loop_spec fuel ds ID P R IDs :
  chronological (P ++ R) = true → behind P R → (length R < fuel)%nat →
  getUniqueIDs_loop fuel ds ID (P ++ R) (length P) IDs
  = Some (Ok (IDs ++ (remove_dups R.*1 ≫= ids_at ds ID))).
Proof.
  revert P R IDs. induction fuel as [|fuel IH]; intros P R IDs Hc Hb Hfuel; [lia|].
  simpl. destruct R as [|e R'].
  - rewrite app_nil_r. rewrite bool_decide_eq_false_2 by auto.
    by rewrite app_nil_r.
  - rewrite bool_decide_eq_true_2 by (rewrite length_app; simpl; lia).
    rewrite first_app_head. simpl loop_bind.
    destruct (head_block e R' (chronological_app_r _ _ Hc)) as (F & B & Heq & HF & Hk & HB).
    rewrite Heq in *.
    destruct (behind_block _ _ _ _ Hb HF Hk HB) as [Hsp Hb'].
    rewrite (split_upper_bound _ _ _ _ _ Hsp).
    rewrite <-length_app. rewrite (app_assoc P F B).
    rewrite IH; [|by rewrite <-app_assoc|done|].
    + rewrite (remove_dups_block _ _ _ HF Hk HB). rewrite bind_cons.
      by rewrite <-app_assoc.
    + rewrite length_app in Hfuel. destruct F; [done|]. simpl in Hfuel. lia.
Qed.

Lemma ids_at_block ds ID s P F B k :
  wf ds → _DataStreams ds !! ID = Some s → split_at s k P F B →
  Z.of_nat (length F) < 2 ^ 31 →
  Forall2 (designates ds ID) (ids_at ds ID k) F.*2.
Proof.
  intros Hwf Hs Hsp Hlen. unfold ids_at.
  rewrite (countElement_split _ _ _ _ _ _ _ Hs Hsp), int_of_size_t_small by done.
  apply Forall2_fmap_l. apply Forall2_same_length_lookup_2.
  - rewrite length_seqZ, length_fmap. lia.
  - intros i n o Hn Ho. apply lookup_seqZ in Hn as [-> Hi].
    split; [done|]. simpl. intros Element.
    destruct (getElement_stored ds ID k i o Hwf) as (It & _ & _ & Hcopy).
    + rewrite (elements_at_split _ _ _ _ _ _ _ Hs Hsp), length_fmap. done.
    + by rewrite (elements_at_split _ _ _ _ _ _ _ Hs Hsp).
    + rewrite Z.add_0_l. apply Hcopy.
Qed.

Lemma ids_designate ds ID s P R :
  wf ds → _DataStreams ds !! ID = Some s → s = P ++ R →
  chronological s = true → behind P R → Z.of_nat (length s) < 2 ^ 31 →
  Forall2 (designates ds ID) (remove_dups R.*1 ≫= ids_at ds ID) R.*2.
Proof.
  intros Hwf Hs. remember (length R) as n eqn:Hn.
  revert P R Hn. induction n as [n IH] using lt_wf_ind. intros P R -> -> Hc Hb Hlen.
  destruct R as [|e R']; [constructor|].
  destruct (head_block e R' (chronological_app_r _ _ Hc)) as (F & B & Heq & HF & Hk & HB).
  rewrite Heq in *.
  destruct (behind_block _ _ _ _ Hb HF Hk HB) as [Hsp Hb'].
  rewrite (remove_dups_block _ _ _ HF Hk HB), bind_cons, fmap_app.
  apply Forall2_app.
  - apply (ids_at_block ds ID _ P F B e.1 Hwf Hs Hsp).
    rewrite !length_app in Hlen. lia.
  - assert (length B < length (F ++ B))%nat as Hlt.
    { rewrite length_app. destruct F; [done|]. simpl. lia. }
    by apply (IH (length B) Hlt (P ++ F) B eq_refl (app_assoc P F B)).
Qed.

(** X13: [getUniqueIDs] appends one identifier for every stored element of
    the key, by timestamp and by index within the timestamp, and reading
    the identifiers back through [getElement] gives the objects of the
    stream in their order ([getElementsOfID]). *)
Theorem getUniqueIDs_getElement fuel ds ID IDs :
  wf ds →
  Z.of_nat (length (stream ds ID)) < 2 ^ 31 →
  (length (stream ds ID) < fuel)%nat →
  ∃ New,
    getUniqueIDs fuel ds ID IDs = Some (Ok (checkID ds ID, IDs ++ New))
    ∧ New = (k ← timestamps ds ID;
             UniqueID.mk ID k <$> seqZ 0 (countElement ds ID k))
    ∧ Forall2 (designates ds ID) New (getElementsOfID ds ID).
Proof.
  intros Hwf Hlen Hfuel. pose proof (stream_chronological _ ID Hwf) as Hc.
  exists (timestamps ds ID ≫= ids_at ds ID). split; [|split; [done|]].
  - unfold getUniqueIDs, timestamps, stream in *.
    destruct (_DataStreams ds !! ID) as [s|] eqn:Hs; simpl in *.
    + rewrite (checkID_Some _ _ _ Hs).
      pose proof (getUniqueIDs_loop_spec fuel ds ID [] s IDs Hc (behind_nil _) Hfuel) as Hl.
      simpl in Hl. by rewrite Hl.
    + rewrite (checkID_None _ _ Hs). by rewrite app_nil_r.
  - unfold getElementsOfID, timestamps, stream in *.
    destruct (_DataStreams ds !! ID) as [s|] eqn:Hs; simpl in *; [|constructor].
    by apply (ids_designate ds ID s [] s Hwf Hs eq_refl Hc (behind_nil _)).
Qed.


(** At a stored timestamp, [getTimeNext] returns the first key behind
    its equal range and [getElements] the objects of the range. *)
Lemma getTimeNext_block ds ID s k P F B :
  _DataStreams ds !! ID = Some s → split_at s k P F B → F ≠ [] →
  Z.of_nat (length F) < 2 ^ 31 →
  getTimeNext ds ID k = Ok (head B.*1).
Proof.
  intros Hs Hsp HF Hlen. unfold getTimeNext, checkElement.
  rewrite (countElement_split _ _ _ _ _ _ _ Hs Hsp), int_of_size_t_small by done.
  rewrite (proj2 (Z.gtb_lt _ _)) by (destruct F; [done|simpl; lia]).
  rewrite (map_at_lookup _ _ _ Hs), bind_Ok.
  rewrite (split_upper_bound _ _ _ _ _ Hsp). destruct Hsp as [-> _ _ _].
  rewrite app_assoc. rewrite <-length_app.
  destruct B as [|e R].
  - rewrite app_nil_r. by rewrite bool_decide_eq_false_2 by auto.
  - rewrite bool_decide_eq_true_2 by (rewrite (length_app (P ++ F)); simpl; lia).
    by rewrite first_app_head.
Qed.

Lemma getElements_block ds ID s k P F B :
  _DataStreams ds !! ID = Some s → split_at s k P F B → getElements ds ID k = F.*2.
Proof.
  intros Hs Hsp. unfold getElements. by rewrite Hs, (split_equal_range _ _ _ _ _ Hsp).
Qed.

Lemma filter_ext_elem {X} (P Q : X → Prop) `{!∀ x, Decision (P x)}
    `{!∀ x, Decision (Q x)} (l : list X) :
  (∀ x, x ∈ l → P x ↔ Q x) → filter P l = filter Q l.
Proof.
  induction l as [|x l IH]; intros Hext; [done|].
  rewrite !filter_cons. rewrite IH by (intros y Hy; apply Hext; by right).
  destruct (decide (P x)) as [HP|HP], (decide (Q x)) as [HQ|HQ]; try done.
  - exfalso. apply HQ, Hext; [by left|done].
  - exfalso. apply HP, Hext; [by left|done].
Qed.

Lemma filter_all {X} (P : X → Prop) `{!∀ x, Decision (P x)} (l : list X) :
  Forall P l → filter P l = l.
Proof.
  induction 1 as [|x l Hx _ IH]; [done|]. by rewrite filter_cons_True, IH.
Qed.

Lemma filter_none {X} (P : X → Prop) `{!∀ x, Decision (P x)} (l : list X) :
  Forall (λ x, ¬ P x) l → filter P l = [].
Proof.
  induction 1 as [|x l Hx _ IH]; [done|]. by rewrite filter_cons_False.
Qed.

Lemma getElementsBetween_loop_spec fuel ds ID s P e R TimeLast Objects :
  _DataStreams ds !! ID = Some s → s = P ++ e :: R →
  chronological s = true → behind P (e :: R) →
  Z.of_nat (length s) < 2 ^ 31 →
  TimeLast ∈ (e :: R).*1 →
  (length (e :: R) ≤ fuel)%nat →
  getElementsBetween_loop fuel ds ID e.1 TimeLast Objects
  = Some (Ok (Objects ++ (filter (λ x, x.1 ≤ TimeLast) (e :: R)).*2)).
Proof.
  intros Hs. revert P e R Objects.
  induction fuel as [|fuel IH]; intros P e R Objects -> Hc Hb Hlen Hin Hfuel;
    [simpl in Hfuel; lia|].
  destruct (head_block e R (chronological_app_r _ _ Hc)) as (F & B & Heq & HF & Hk & HB).
  rewrite Heq in *.
  destruct (behind_block _ _ _ _ Hb HF Hk HB) as [Hsp Hb'].
  assert (Z.of_nat (length F) < 2 ^ 31) as HlF by (rewrite !length_app in Hlen; lia).
  simpl. rewrite (getElements_block _ _ _ _ _ _ _ Hs Hsp).
  rewrite filter_app, fmap_app.
  case_bool_decide as Heq1.
  - rewrite (filter_all _ F), (filter_none _ B), app_nil_r; [done| |].
    + eapply Forall_impl; [exact HB|]. simpl. lia.
    + eapply Forall_impl; [exact Hk|]. simpl. lia.
  - apply keys_app in Hin as [Hin|Hin]; [by rewrite (keys_eq _ _ _ Hk Hin) in Heq1|].
    pose proof (keys_gt _ _ _ HB Hin) as Hlt.
    rewrite (getTimeNext_block _ _ _ _ _ _ _ Hs Hsp HF HlF).
    destruct B as [|b B']; [by apply elem_of_nil in Hin|]. simpl loop_bind.
    rewrite (IH (P ++ F) b B' _ (app_assoc P F (b :: B'))); try done.
    + rewrite (filter_all _ F); [by rewrite app_assoc|].
      eapply Forall_impl; [exact Hk|]. simpl. lia.
    + rewrite length_app in Hfuel. destruct F; [done|]. simpl in *. lia.
Qed.

(** X14: [getElementsBetween] returns the objects stored under the key at
    the timestamps from [TimeBegin] to [TimeEnd], both included, in the
    order of the stream; nothing when [TimeBegin] is above [TimeEnd]. *)
Theorem getElementsBetween_range fuel ds ID TimeBegin TimeEnd :
  wf ds →
  Z.of_nat (length (stream ds ID)) < 2 ^ 31 →
  (length (stream ds ID) < fuel)%nat →
  getElementsBetween fuel ds ID TimeBegin TimeEnd
  = Some (Ok (filter (λ e, TimeBegin ≤ e.1 ≤ TimeEnd) (stream ds ID)).*2).
Proof.
  intros Hwf Hlen Hfuel. unfold getElementsBetween.
  case_bool_decide as Heq.
  { subst TimeEnd. rewrite getElements_elements_at, elements_at_stream by done.
    do 3 f_equal. apply list_filter_iff. intros x. lia. }
  destruct (_DataStreams ds !! ID) as [s|] eqn:Hs.
  2:{ rewrite (checkID_None _ _ Hs), (stream_None _ _ Hs). done. }
  rewrite (checkID_Some _ _ _ Hs). rewrite (stream_lookup _ _ _ Hs) in *.
  destruct (wf_lookup _ _ _ Hwf Hs) as [Hc _].
  destruct (getTimeBelowOrEqual_stream ds ID _ TimeEnd Hs Hc) as (rl & -> & Hrl).
  simpl loop_bind. destruct rl as [TimeLast|].
  2:{ rewrite (filter_none _ s); [done|]. apply Forall_forall. intros x Hx.
      assert (TimeEnd < x.1); [|lia]. apply Hrl.
      rewrite (timestamps_lookup _ _ _ _ Hs). apply list_elem_of_fmap. eauto. }
  destruct Hrl as (HinL & HleL & HmaxL).
  destruct (chronological_split s TimeBegin Hc) as (A & F & B & Hsp).
  rewrite (getTimeAboveOrEqual_split _ _ _ _ _ _ _ Hs Hsp). simpl loop_bind.
  pose proof Hsp as [Heqs HA HF HB].
  assert (Forall (λ x, TimeBegin ≤ x.1) (F ++ B)) as HR.
  { apply Forall_app. split; eapply Forall_impl; eauto; simpl; lia. }
  assert (filter (λ e, TimeBegin ≤ e.1 ≤ TimeEnd) s
          = filter (λ e, e.1 ≤ TimeLast) (F ++ B)) as Hfilter.
  { rewrite Heqs at 1. rewrite filter_app. rewrite (filter_none _ A).
    - simpl. apply filter_ext_elem. intros x Hx.
      rewrite Forall_forall in HR. specialize (HR _ Hx). simpl in HR.
      assert (x.1 ∈ timestamps ds ID) as Hts.
      { rewrite (timestamps_lookup _ _ _ _ Hs), Heqs, keys_app. right.
        apply list_elem_of_fmap. eauto. }
      specialize (HmaxL _ Hts). lia.
    - eapply Forall_impl; [exact HA|]. simpl. lia. }
  rewrite Hfilter.
  destruct (F ++ B) as [|e R] eqn:HFB; [done|].
  change (head (e :: R).*1) with (Some e.1). cbv iota.
  destruct (e.1 >? TimeLast) eqn:Hgt.
  { apply Z.gtb_lt in Hgt. rewrite (filter_none _ (e :: R)); [done|].
    apply Forall_forall. intros x Hx.
    assert (e.1 ≤ x.1); [|lia].
    apply (keys_head_le e R).
    - apply (chronological_app_r A). by rewrite <-Heqs.
    - apply list_elem_of_fmap. eauto. }
  rewrite Z.gtb_ltb in Hgt. apply Z.ltb_ge in Hgt.
  rewrite (getElementsBetween_loop_spec fuel ds ID s A e R TimeLast [] Hs); try done.
  - intros p r Hp Hr. rewrite Forall_forall in HA, HR.
    specialize (HA _ Hp). specialize (HR _ Hr). simpl in *. lia.
  - rewrite (timestamps_lookup _ _ _ _ Hs), Heqs, keys_app in HinL.
    destruct HinL as [HinL|HinL]; [|done].
    pose proof (keys_lt _ _ _ HA HinL).
    rewrite Forall_forall in HR. specialize (HR e (list_elem_of_here _ _)). simpl in HR. lia.
  - rewrite Heqs, length_app in Hfuel. lia.
Qed.


Lemma remove_dups_head_le e R k :
  chronological (e :: R) = true → k ∈ remove_dups (e :: R).*1 → e.1 ≤ k.
Proof. intros Hc Hk. rewrite elem_of_remove_dups in Hk. by eapply keys_head_le. Qed.

Lemma getTimesBetween_loop_spec fuel ds ID s P e R End Times :
  _DataStreams ds !! ID = Some s → s = P ++ e :: R →
  chronological s = true → behind P (e :: R) →
  Z.of_nat (length s) < 2 ^ 31 →
  (length (e :: R) ≤ fuel)%nat →
  getTimesBetween_loop fuel ds ID e.1 End Times
  = Some (Ok (Times ++ filter (λ k, k ≤ End) (remove_dups (e :: R).*1))).
Proof.
  intros Hs. revert P e R Times.
  induction fuel as [|fuel IH]; intros P e R Times -> Hc Hb Hlen Hfuel;
    [simpl in Hfuel; lia|].
  pose proof (chronological_app_r _ _ Hc) as HcR.
  cbn [getTimesBetween_loop]. destruct (e.1 <=? End) eqn:Hle.
  2:{ apply Z.leb_gt in Hle. rewrite (filter_none _ (remove_dups _)).
      - by rewrite app_nil_r.
      - apply Forall_forall. intros k Hk.
        pose proof (remove_dups_head_le _ _ _ HcR Hk). lia. }
  apply Z.leb_le in Hle.
  destruct (head_block e R HcR) as (F & B & Heq & HF & Hk & HB).
  rewrite Heq in *.
  destruct (behind_block _ _ _ _ Hb HF Hk HB) as [Hsp Hb'].
  assert (Z.of_nat (length F) < 2 ^ 31) as HlF by (rewrite !length_app in Hlen; lia).
  rewrite (getTimeNext_block _ _ _ _ _ _ _ Hs Hsp HF HlF).
  rewrite (remove_dups_block _ _ _ HF Hk HB), filter_cons_True by done.
  destruct B as [|b B']; simpl loop_bind.
  - done.
  - rewrite (IH (P ++ F) b B' _ (app_assoc P F (b :: B'))); try done.
    + by rewrite <-app_assoc.
    + rewrite length_app in Hfuel. destruct F; [done|]. simpl in *. lia.
Qed.

Lemma getTimesBelowOrEqual_loop_spec fuel ds ID s P e R End Times :
  _DataStreams ds !! ID = Some s → s = P ++ e :: R →
  chronological s = true → behind P (e :: R) →
  Z.of_nat (length s) < 2 ^ 31 →
  (length (e :: R) < fuel)%nat →
  getTimesBelowOrEqual_loop fuel ds ID e.1 End true Times
  = Some (Ok (Times ++ filter (λ k, k ≤ End) (remove_dups (e :: R).*1))).
Proof.
  intros Hs. revert P e R Times.
  induction fuel as [|fuel IH]; intros P e R Times -> Hc Hb Hlen Hfuel;
    [simpl in Hfuel; lia|].
  pose proof (chronological_app_r _ _ Hc) as HcR.
  cbn [getTimesBelowOrEqual_loop]. destruct (e.1 <=? End) eqn:Hle; simpl andb; cbv iota.
  2:{ apply Z.leb_gt in Hle. rewrite (filter_none _ (remove_dups _)).
      - by rewrite app_nil_r.
      - apply Forall_forall. intros k Hk.
        pose proof (remove_dups_head_le _ _ _ HcR Hk). lia. }
  destruct (head_block e R HcR) as (F & B & Heq & HF & Hk & HB).
  rewrite Heq in *.
  destruct (behind_block _ _ _ _ Hb HF Hk HB) as [Hsp Hb'].
  assert (Z.of_nat (length F) < 2 ^ 31) as HlF by (rewrite !length_app in Hlen; lia).
  rewrite (getTimeNext_block _ _ _ _ _ _ _ Hs Hsp HF HlF).
  rewrite (remove_dups_block _ _ _ HF Hk HB).
  rewrite filter_cons_True by (by apply Z.leb_le).
  destruct B as [|b B']; simpl loop_bind.
  - destruct fuel as [|fuel']; [rewrite length_app in Hfuel; destruct F; simpl in *; [done|lia]|].
    cbn [getTimesBelowOrEqual_loop]. rewrite Hle. done.
  - rewrite (IH (P ++ F) b B' _ (app_assoc P F (b :: B'))); try done.
    + by rewrite <-app_assoc.
    + rewrite length_app in Hfuel. destruct F; [done|]. simpl in *. lia.
Qed.

Lemma remove_dups_behind P R :
  behind P R → remove_dups (P ++ R).*1 = remove_dups P.*1 ++ remove_dups R.*1.
Proof.
  intros Hb. induction P as [|p P' IH]; [done|].
  assert (behind P' R) as Hb' by (intros x r Hx Hr; apply Hb; [by right|done]).
  change ((p :: P') ++ R) with (p :: (P' ++ R)).
  rewrite !fmap_cons, !remove_dups_cons, IH by done.
  destruct (decide_rel elem_of p.1 (P' ++ R).*1) as [Hin|Hin],
           (decide_rel elem_of p.1 P'.*1) as [Hin'|Hin']; try done.
  - exfalso. apply keys_app in Hin as [Hin|Hin]; [done|].
    apply list_elem_of_fmap in Hin as (r & Hr1 & Hr).
    pose proof (Hb p r (list_elem_of_here _ _) Hr). lia.
  - exfalso. apply Hin. apply keys_app. by left.
Qed.

(** The stored timestamps from a lower border on, given the entries of
    the stream that are below the border. *)
Lemma timestamps_from_border ds ID s A R Start End :
  _DataStreams ds !! ID = Some s → s = A ++ R →
  Forall (λ x, x.1 < Start) A → Forall (λ x, Start ≤ x.1) R →
  filter (λ k, Start ≤ k ≤ End) (timestamps ds ID)
  = filter (λ k, k ≤ End) (remove_dups R.*1).
Proof.
  intros Hs -> HA HR. unfold timestamps. rewrite (stream_lookup _ _ _ Hs).
  rewrite remove_dups_behind.
  2:{ intros p r Hp Hr. rewrite Forall_forall in HA, HR.
      specialize (HA _ Hp). specialize (HR _ Hr). simpl in *. lia. }
  rewrite filter_app, (filter_none _ (remove_dups A.*1)).
  - simpl. apply filter_ext_elem. intros k Hk.
    rewrite elem_of_remove_dups in Hk. apply list_elem_of_fmap in Hk as (x & -> & Hx).
    rewrite Forall_forall in HR. specialize (HR _ Hx). simpl in HR. lia.
  - apply Forall_forall. intros k Hk.
    rewrite elem_of_remove_dups in Hk. pose proof (keys_lt _ _ _ HA Hk). lia.
Qed.

(** X15: [getTimesBetween] appends the stored timestamps from [StartTime]
    to [EndTime], both included, each once and in increasing order.  It
    returns [false], appending nothing, exactly when [StartTime] is above
    [EndTime], no stored timestamp is at or above [StartTime], or none is
    at or below [EndTime]. *)
Theorem getTimesBetween_range fuel ds ID StartTime EndTime Times :
  wf ds →
  Z.of_nat (length (stream ds ID)) < 2 ^ 31 →
  (length (stream ds ID) < fuel)%nat →
  ∃ found : bool,
    getTimesBetween fuel ds ID StartTime EndTime Times
    = Some (Ok (found,
                Times ++ if found
                         then filter (λ k, StartTime ≤ k ≤ EndTime) (timestamps ds ID)
                         else []))
    ∧ (found = true ↔
       StartTime ≤ EndTime
       ∧ Exists (λ k, StartTime ≤ k) (timestamps ds ID)
       ∧ Exists (λ k, k ≤ EndTime) (timestamps ds ID)).
Proof.
  intros Hwf Hlen Hfuel. unfold getTimesBetween.
  destruct (_DataStreams ds !! ID) as [s|] eqn:Hs.
  2:{ rewrite (checkID_None _ _ Hs). exists false. rewrite app_nil_r. split; [done|].
      split; [done|]. intros (_ & Hex & _). rewrite (timestamps_None _ _ Hs) in Hex.
      by apply Exists_nil in Hex. }
  rewrite (checkID_Some _ _ _ Hs). rewrite (stream_lookup _ _ _ Hs) in *.
  destruct (wf_lookup _ _ _ Hwf Hs) as [Hc _].
  unfold _FindBordersEqual. destruct (StartTime >? EndTime) eqn:Hgt.
  { apply Z.gtb_lt in Hgt. exists false. rewrite app_nil_r. split; [done|].
    split; [done|]. intros (? & _). lia. }
  rewrite Z.gtb_ltb in Hgt. apply Z.ltb_ge in Hgt.
  destruct (chronological_split s StartTime Hc) as (A & F & B & Hsp).
  rewrite (getTimeAboveOrEqual_split _ _ _ _ _ _ _ Hs Hsp), bind_Ok.
  pose proof Hsp as [Heqs HA HF HB].
  assert (Forall (λ x, StartTime ≤ x.1) (F ++ B)) as HR.
  { apply Forall_app. split; eapply Forall_impl; eauto; simpl; lia. }
  destruct (F ++ B) as [|e R] eqn:HFB.
  { exists false. rewrite app_nil_r. split; [done|]. split; [done|].
    intros (_ & Hex & _). apply Exists_exists in Hex as (k & Hk & Hle).
    rewrite (timestamps_lookup _ _ _ _ Hs), Heqs, app_nil_r in Hk.
    pose proof (keys_lt _ _ _ HA Hk). lia. }
  change (head (e :: R).*1) with (Some e.1). cbv iota.
  destruct (getTimeBelowOrEqual_stream ds ID _ EndTime Hs Hc) as (rl & -> & Hrl).
  rewrite bind_Ok. destruct rl as [EndTrue|].
  { destruct Hrl as (HinL & HleL & HmaxL). exists true. cbn [loop_bind].
    assert (filter (λ k, StartTime ≤ k ≤ EndTime) (timestamps ds ID)
            = filter (λ k, k ≤ EndTrue) (remove_dups (e :: R).*1)) as Hfilter.
    { rewrite (timestamps_from_border ds ID s A (e :: R) StartTime EndTime Hs Heqs HA HR).
      apply filter_ext_elem. intros k Hk. rewrite elem_of_remove_dups in Hk.
      assert (k ∈ timestamps ds ID) as Hts.
      { rewrite (timestamps_lookup _ _ _ _ Hs), Heqs, keys_app. by right. }
      specialize (HmaxL _ Hts). lia. }
    rewrite Hfilter.
    rewrite (getTimesBetween_loop_spec fuel ds ID s A e R EndTrue Times Hs); try done.
    - cbn [loop_then]. split; [done|].
      + split; [|done]. intros _. split; [done|]. split.
        * apply Exists_exists. exists e.1. split.
          -- rewrite (timestamps_lookup _ _ _ _ Hs), Heqs, keys_app. right.
             apply list_elem_of_here.
          -- rewrite Forall_forall in HR. apply (HR e). apply list_elem_of_here.
        * apply Exists_exists. eauto.
    - intros p r Hp Hr. rewrite Forall_forall in HA, HR.
      specialize (HA _ Hp). specialize (HR _ Hr). simpl in *. lia.
    - rewrite Heqs, length_app in Hfuel. lia. }
  exists false. rewrite app_nil_r. split; [done|]. split; [done|].
  intros (_ & _ & Hex). apply Exists_exists in Hex as (k & Hk & Hle).
  specialize (Hrl _ Hk). lia.
Qed.

(** X16: [getTimesBelowOrEqual] appends the stored timestamps up to
    [EndTime], each once and in increasing order, and returns [false],
    appending nothing, exactly when no stored timestamp is at or below
    [EndTime]. *)
Theorem getTimesBelowOrEqual_range fuel ds ID EndTime Times :
  wf ds →
  Z.of_nat (length (stream ds ID)) < 2 ^ 31 →
  (length (stream ds ID) < fuel)%nat →
  ∃ found : bool,
    getTimesBelowOrEqual fuel ds ID EndTime Times
    = Some (Ok (found,
                Times ++ if found
                         then filter (λ k, k ≤ EndTime) (timestamps ds ID)
                         else []))
    ∧ (found = true ↔ Exists (λ k, k ≤ EndTime) (timestamps ds ID)).
Proof.
  intros Hwf Hlen Hfuel. unfold getTimesBelowOrEqual.
  destruct (_DataStreams ds !! ID) as [s|] eqn:Hs.
  2:{ unfold getTimeFirst. rewrite Hs. exists false. rewrite app_nil_r.
      split; [done|]. split; [done|]. intros Hex.
      rewrite (timestamps_None _ _ Hs) in Hex. by apply Exists_nil in Hex. }
  rewrite (stream_lookup _ _ _ Hs) in *.
  destruct (wf_lookup _ _ _ Hwf Hs) as [Hc Hne].
  destruct s as [|e R]; [done|].
  unfold getTimeFirst. rewrite Hs.
  change (first (e :: R) 0) with (Ok (A:=Z) e.1). rewrite bind_Ok. cbn [loop_bind].
  destruct (getTimeBelowOrEqual_stream ds ID _ EndTime Hs Hc) as (rl & -> & Hrl).
  cbn [loop_bind]. destruct rl as [End|].
  { destruct Hrl as (HinL & HleL & HmaxL). exists true.
    assert (filter (λ k, k ≤ EndTime) (timestamps ds ID)
            = filter (λ k, k ≤ End) (remove_dups (e :: R).*1)) as Hfilter.
    { unfold timestamps at 1. rewrite (stream_lookup _ _ _ Hs).
      apply filter_ext_elem. intros k Hk.
      assert (k ∈ timestamps ds ID) as Hts.
      { unfold timestamps. by rewrite (stream_lookup _ _ _ Hs). }
      specialize (HmaxL _ Hts). lia. }
    rewrite Hfilter.
    rewrite (getTimesBelowOrEqual_loop_spec fuel ds ID (e :: R) [] e R End Times Hs);
      try done; [|apply behind_nil].
    cbn [loop_then]. split; [done|]. split; [|done].
    intros _. apply Exists_exists. eauto. }
  exists false. rewrite app_nil_r. split; [done|]. split; [done|].
  intros Hex. apply Exists_exists in Hex as (k & Hk & Hle).
  specialize (Hrl _ Hk). lia.
Qed.

End LoopsOverTimestamps.

Section KeyOrderFacts.
Context {KeyType : Type} `{Countable KeyType} {ObjectType : Type}.
Context (key_le : relation KeyType) `{!RelDecision key_le}.
Implicit Types (ds : DataSet KeyType ObjectType).
Implicit Types (s : list (Z * ObjectType)) (ID : KeyType) (t k : Z).

Lemma begin_end_Permutation ds :
  begin_end key_le ds ≡ₚ map_to_list (_DataStreams ds).
Proof. apply merge_sort_Permutation. Qed.

Lemma elem_of_begin_end ds ID s :
  (ID, s) ∈ begin_end key_le ds ↔ _DataStreams ds !! ID = Some s.
Proof. by rewrite begin_end_Permutation, elem_of_map_to_list. Qed.

Lemma NoDup_getKeysAll ds : NoDup (getKeysAll key_le ds).
Proof.
  unfold getKeysAll. rewrite begin_end_Permutation. apply NoDup_fst_map_to_list.
Qed.

Lemma elem_of_getKeysAll ds ID :
  ID ∈ getKeysAll key_le ds ↔ is_Some (_DataStreams ds !! ID).
Proof.
  unfold getKeysAll. rewrite list_elem_of_fmap. split.
  - intros ([ID' s] & -> & Hin). apply elem_of_begin_end in Hin. eauto.
  - intros [s Hs]. exists (ID, s). split; [done|]. by apply elem_of_begin_end.
Qed.

Lemma getKeysAll_sorted ds :
  Transitive key_le → Total key_le → StronglySorted key_le (getKeysAll key_le ds).
Proof.
  intros Htrans Htotal. unfold getKeysAll, begin_end.
  apply (StronglySorted_fmap fst (entry_le key_le)); [done|].
  apply StronglySorted_merge_sort.
  - intros x y z. unfold entry_le. apply Htrans.
  - intros x y. unfold entry_le. apply Htotal.
Qed.

Lemma StronglySorted_filter {X} (R : relation X) (P : X → Prop)
    `{!∀ x, Decision (P x)} (l : list X) :
  StronglySorted R l → StronglySorted R (filter P l).
Proof.
  induction 1 as [|x l Hl IH Hx]; [constructor|].
  rewrite filter_cons. destruct (decide (P x)); [|done].
  constructor; [done|].
  rewrite Forall_forall in *. intros y [_ Hy]%list_elem_of_filter. auto.
Qed.

(** X17: [getKeysAtTime] returns, in the order of the map and each once,
    the keys that hold an element at the timestamp. *)
Theorem getKeysAtTime_keys ds Timestamp :
  Transitive key_le → Total key_le →
  (∀ ID, Z.of_nat (length (elements_at ds ID Timestamp)) < 2 ^ 31) →
  StronglySorted key_le (getKeysAtTime key_le ds Timestamp)
  ∧ NoDup (getKeysAtTime key_le ds Timestamp)
  ∧ ∀ ID, ID ∈ getKeysAtTime key_le ds Timestamp
          ↔ elements_at ds ID Timestamp ≠ [].
Proof.
  intros Htrans Htotal Hlen. unfold getKeysAtTime. split; [|split].
  - by apply StronglySorted_filter, getKeysAll_sorted.
  - apply NoDup_filter, NoDup_getKeysAll.
  - intros ID. rewrite list_elem_of_filter, elem_of_getKeysAll.
    unfold checkElement. rewrite countElement_elements_at.
    rewrite int_of_size_t_small by apply Hlen. rewrite Z.gtb_lt. split.
    + intros [Hpos _] Hnil. rewrite Hnil in Hpos. simpl in Hpos. lia.
    + intros Hne. split.
      * destruct (elements_at ds ID Timestamp); [done|]. simpl. lia.
      * unfold elements_at in Hne. destruct (_DataStreams ds !! ID); [eauto|done].
Qed.

Lemma foldl_step {X Y} (f : X → Y → X) (a : X) (y : Y) (l : list Y) :
  foldl f a (y :: l) = foldl f (f a y) l.
Proof. reflexivity. Qed.

(** One round of the loop of [getTimeFirstOverall]. *)
Definition first_overall_step ds (state : result (Z * option Z)) ID
    : result (Z * option Z) :=
  '(TimeFirst, Timestamp) ← state;
  found ← getTimeFirst ds ID;
  let TimeFirst := default TimeFirst found in
  match Timestamp with
  | None => Ok (TimeFirst, Some TimeFirst)
  | Some t =>
      if TimeFirst <? t then Ok (TimeFirst, Some TimeFirst)
      else Ok (TimeFirst, Some t)
  end.

Lemma first_overall_fold ds L TimeFirst a :
  wf ds → (∀ ID, ID ∈ L → is_Some (_DataStreams ds !! ID)) →
  ∃ TimeFirst' m,
    foldl (first_overall_step ds) (Ok (TimeFirst, Some a)) L = Ok (TimeFirst', Some m)
    ∧ m ≤ a
    ∧ (m = a ∨ ∃ ID, ID ∈ L ∧ m ∈ timestamps ds ID)
    ∧ ∀ ID k, ID ∈ L → k ∈ timestamps ds ID → m ≤ k.
Proof.
  intros Hwf. revert TimeFirst a.
  induction L as [|ID L IH]; intros TimeFirst a Hin.
  - exists TimeFirst, a. split; [done|]. split; [lia|]. split; [by left|].
    intros ID k Hk. by apply elem_of_nil in Hk.
  - rewrite foldl_step.
    destruct (Hin ID (list_elem_of_here _ _)) as [s Hs].
    destruct (wf_lookup _ _ _ Hwf Hs) as [Hc Hne].
    destruct (getTimeFirst_stream ds ID s Hs Hc Hne) as (f & Hf & Hfin & Hmin).
    assert (∃ a', first_overall_step ds (Ok (TimeFirst, Some a)) ID = Ok (f, Some a')
                  ∧ a' ≤ a ∧ a' ≤ f ∧ (a' = a ∨ a' = f)) as (a' & -> & Ha & Hf' & Hor).
    { unfold first_overall_step. rewrite bind_Ok. simpl. rewrite Hf, bind_Ok. simpl.
      destruct (f <? a) eqn:Hlt.
      - apply Z.ltb_lt in Hlt. exists f. repeat split; auto; lia.
      - apply Z.ltb_ge in Hlt. exists a. repeat split; auto; lia. }
    destruct (IH f a') as (tf' & m & Hfold & Hle & Hfrom & Hall).
    { intros ID' HID'. apply Hin. by right. }
    exists tf', m. split; [done|]. split; [lia|]. split.
    + destruct Hfrom as [->|(ID' & HID' & Hm)].
      * destruct Hor as [->| ->]; [by left|]. right. exists ID. split; [by left|done].
      * right. exists ID'. split; [by right|done].
    + intros ID' k [->|HID']%elem_of_cons Hk.
      * specialize (Hmin _ Hk). lia.
      * by apply (Hall ID').
Qed.

(** X18: on a data set that holds a stream, [getTimeFirstOverall] returns
    the least timestamp stored under any key; on an empty data set it
    returns [false] and leaves the output as it was. *)
Theorem getTimeFirstOverall_least ds Timestamp :
  wf ds →
  (DataSet_empty ds = true
   ∧ (∀ ID, timestamps ds ID = [])
   ∧ getTimeFirstOverall key_le ds Timestamp = Ok (false, Some Timestamp))
  ∨ (DataSet_empty ds = false
     ∧ ∃ m, getTimeFirstOverall key_le ds Timestamp = Ok (true, Some m)
            ∧ (∃ ID, m ∈ timestamps ds ID)
            ∧ ∀ ID k, k ∈ timestamps ds ID → m ≤ k).
Proof.
  intros Hwf. unfold getTimeFirstOverall, DataSet_empty.
  case_bool_decide as Hsize.
  - left. split; [done|]. split; [|done].
    intros ID. apply map_size_empty_iff in Hsize.
    apply timestamps_None. by rewrite Hsize, lookup_empty.
  - right. split; [done|].
    apply map_size_ne_0_lookup_1 in Hsize as [ID0 HID0].
    apply elem_of_getKeysAll in HID0.
    destruct (getKeysAll key_le ds) as [|ID L] eqn:HL; [by apply elem_of_nil in HID0|].
    assert (∀ ID', ID' ∈ ID :: L → is_Some (_DataStreams ds !! ID')) as Hkeys.
    { intros ID' HID'. apply elem_of_getKeysAll. by rewrite HL. }
    fold (first_overall_step ds). rewrite foldl_step.
    destruct (Hkeys ID (list_elem_of_here _ _)) as [s Hs].
    destruct (wf_lookup _ _ _ Hwf Hs) as [Hc Hne].
    destruct (getTimeFirst_stream ds ID s Hs Hc Hne) as (f & Hf & Hfin & Hmin).
    assert (first_overall_step ds (Ok (Timestamp, None)) ID = Ok (f, Some f)) as ->.
    { unfold first_overall_step. rewrite bind_Ok. simpl. by rewrite Hf, bind_Ok. }
    destruct (first_overall_fold ds L f f Hwf) as (tf' & m & -> & Hle & Hfrom & Hall).
    { intros ID' HID'. apply Hkeys. by right. }
    rewrite bind_Ok. exists m. split; [done|]. split.
    + destruct Hfrom as [->|(ID' & _ & Hm)]; eauto.
    + intros ID' k Hk.
      assert (ID' ∈ ID :: L) as [->|HID']%elem_of_cons.
      { rewrite <-HL. apply elem_of_getKeysAll.
        unfold timestamps, stream in Hk.
        destruct (_DataStreams ds !! ID'); [eauto|]. by apply elem_of_nil in Hk. }
      * specialize (Hmin _ Hk). lia.
      * by apply (Hall ID').
Qed.


(** [merge] is a sequence of [addElement] calls. *)
Definition merge_ops (List : DataSet KeyType ObjectType)
    : list (KeyType * Z * ObjectType) :=
  Map ← begin_end key_le List; (λ Element, (Map.1, Element.1, Element.2)) <$> Map.2.

Lemma add_all_app ds (ops1 ops2 : list (KeyType * Z * ObjectType)) :
  add_all ds (ops1 ++ ops2) = add_all (add_all ds ops1) ops2.
Proof. unfold add_all. by rewrite foldl_app. Qed.

Lemma DataSet_merge_add_all ds List :
  DataSet_merge key_le ds List = add_all ds (merge_ops List).
Proof.
  unfold DataSet_merge, merge_ops.
  revert ds. induction (begin_end key_le List) as [|[ID s] L IH]; intros ds; [done|].
  rewrite bind_cons, add_all_app, foldl_step, IH. f_equal. simpl.
  clear IH. revert ds. induction s as [|e s IHs]; intros ds; [done|].
  simpl. by rewrite IHs.
Qed.

Lemma add_all_NullObject ds (ops : list (KeyType * Z * ObjectType)) :
  NullObject (add_all ds ops) = NullObject ds.
Proof.
  induction ops as [|op ops IH] using rev_ind; [done|].
  by rewrite add_all_snoc.
Qed.

Lemma inserted_at_stream ID' (s : list (Z * ObjectType)) ID t :
  inserted_at ((λ Element, (ID', Element.1, Element.2)) <$> s) ID t
  = if decide (ID' = ID) then (filter (λ e, e.1 = t) s).*2 else [].
Proof.
  unfold inserted_at. destruct (decide (ID' = ID)) as [->|Hne].
  - induction s as [|e s IH]; [done|].
    rewrite fmap_cons, !filter_cons. simpl.
    destruct (decide (e.1 = t)).
    + rewrite decide_True by done. rewrite !fmap_cons. simpl. by rewrite IH.
    + rewrite decide_False by tauto. done.
  - induction s as [|e s IH]; [done|].
    rewrite fmap_cons, !filter_cons. simpl.
    rewrite decide_False by tauto. done.
Qed.

Lemma inserted_at_app (ops1 ops2 : list (KeyType * Z * ObjectType)) ID t :
  inserted_at (ops1 ++ ops2) ID t = inserted_at ops1 ID t ++ inserted_at ops2 ID t.
Proof. unfold inserted_at. by rewrite filter_app, fmap_app. Qed.

Lemma inserted_at_entries (L : list (KeyType * list (Z * ObjectType))) ID t :
  NoDup L.*1 →
  inserted_at (Map ← L; (λ Element, (Map.1, Element.1, Element.2)) <$> Map.2) ID t
  = match list_find (λ Map, Map.1 = ID) L with
    | Some (_, Map) => (filter (λ e, e.1 = t) Map.2).*2
    | None => []
    end.
Proof.
  induction L as [|[ID' s] L IH]; intros Hnd; [done|].
  rewrite fmap_cons in Hnd. apply NoDup_cons in Hnd as [Hnotin Hnd].
  rewrite bind_cons, inserted_at_app, inserted_at_stream, IH by done.
  simpl. destruct (decide (ID' = ID)) as [->|Hne].
  - simpl. destruct (list_find _ L) as [[i [ID'' s'']]|] eqn:Hfind.
    + apply list_find_Some in Hfind as (Hl & Heq & _). simpl in Heq. subst ID''.
      exfalso. apply Hnotin. apply list_elem_of_fmap. exists (ID, s'').
      split; [done|]. by eapply list_elem_of_lookup_2.
    + by rewrite app_nil_r.
  - simpl. by destruct (list_find _ L) as [[i [ID'' s'']]|].
Qed.

(** X19: [merge] adds every element of the other data set under its key
    and timestamp, behind the elements already stored there and in the
    order of the other data set, and keeps the data set valid. *)
Theorem DataSet_merge_elements ds List :
  wf ds →
  wf (DataSet_merge key_le ds List)
  ∧ NullObject (DataSet_merge key_le ds List) = NullObject ds
  ∧ ∀ ID t, elements_at (DataSet_merge key_le ds List) ID t
            = elements_at ds ID t ++ elements_at List ID t.
Proof.
  intros Hwf. rewrite DataSet_merge_add_all.
  split; [by apply add_all_wf|]. split; [apply add_all_NullObject|].
  intros ID t. rewrite add_all_elements_at by done. f_equal.
  unfold merge_ops. rewrite inserted_at_entries by apply NoDup_getKeysAll.
  unfold elements_at.
  destruct (list_find _ _) as [[i [ID' s]]|] eqn:Hfind.
  - apply list_find_Some in Hfind as (Hl & Heq & _). simpl in Heq. subst ID'.
    apply list_elem_of_lookup_2, elem_of_begin_end in Hl. by rewrite Hl.
  - destruct (_DataStreams List !! ID) as [s|] eqn:Hs; [|done].
    apply elem_of_begin_end in Hs.
    apply list_find_None in Hfind. rewrite Forall_forall in Hfind.
    by specialize (Hfind _ Hs).
Qed.

End KeyOrderFacts.

Section MoreDataSetFacts.
Context {KeyType : Type} `{Countable KeyType} {ObjectType : Type}.
Implicit Types (ds : DataSet KeyType ObjectType).
Implicit Types (s P A F B R : list (Z * ObjectType)) (e : Z * ObjectType).
Implicit Types (ID : KeyType) (t k : Z).

Lemma counts_sum ds ID s P R :
  _DataStreams ds !! ID = Some s → s = P ++ R →
  chronological s = true → behind P R → Z.of_nat (length s) < 2 ^ 31 →
  foldr Z.add 0 (countElement ds ID <$> remove_dups R.*1) = Z.of_nat (length R)
  ∧ (length (remove_dups R.*1) ≤ length R)%nat.
Proof.
  intros Hs. remember (length R) as n eqn:Hn.
  revert P R Hn. induction n as [n IH] using lt_wf_ind. intros P R -> -> Hc Hb Hlen.
  destruct R as [|e R']; [done|].
  destruct (head_block e R' (chronological_app_r _ _ Hc)) as (F & B & Heq & HF & Hk & HB).
  rewrite Heq in *.
  destruct (behind_block _ _ _ _ Hb HF Hk HB) as [Hsp Hb'].
  rewrite (remove_dups_block _ _ _ HF Hk HB), fmap_cons.
  rewrite (countElement_split _ _ _ _ _ _ _ Hs Hsp).
  rewrite int_of_size_t_small by (rewrite !length_app in Hlen; lia).
  assert (length B < length (F ++ B))%nat as Hlt.
  { rewrite length_app. destruct F; [done|]. simpl. lia. }
  destruct (IH (length B) Hlt (P ++ F) B eq_refl (app_assoc P F B) Hc Hb' Hlen)
    as [Hsum Hle].
  cbn [foldr length]. rewrite Hsum, length_app. split; [lia|].
  destruct F; [done|]. simpl. lia.
Qed.

(** X20: [countTimes] counts the stored elements of the key, as
    [countElements] does: the sum of [countElement] over the stored
    timestamps, which is at least the number of timestamps. *)
Theorem countTimes_counts_elements ds ID :
  wf ds →
  Z.of_nat (length (stream ds ID)) < 2 ^ 31 →
  countTimes ds ID = countElements ds ID
  ∧ countTimes ds ID = Z.of_nat (length (getElementsOfID ds ID))
  ∧ countTimes ds ID = foldr Z.add 0 (countElement ds ID <$> timestamps ds ID)
  ∧ Z.of_nat (length (timestamps ds ID)) ≤ countTimes ds ID.
Proof.
  intros Hwf Hlen. pose proof (stream_chronological _ ID Hwf) as Hc.
  unfold countTimes, countElements, getElementsOfID, timestamps, stream in *.
  destruct (_DataStreams ds !! ID) as [s|] eqn:Hs; simpl in *; [|done].
  rewrite int_of_size_t_small by done. rewrite length_fmap.
  destruct (counts_sum ds ID s [] s Hs eq_refl Hc (behind_nil _) Hlen) as [Hsum Hle].
  rewrite Hsum. repeat split; lia.
Qed.

(** X21: [getTimePrev] steps back from the first element at the timestamp
    by the number of elements stored there.  With [c] elements at the
    timestamp and [b] entries below it, it is undefined for [b + 1 < c],
    returns [false] for [b + 1 = c], and otherwise returns the timestamp of
    the entry [c] places before the first element at the timestamp. *)
Theorem getTimePrev_steps_back ds ID t :
  wf ds →
  elements_at ds ID t ≠ [] →
  Z.of_nat (length (elements_at ds ID t)) < 2 ^ 31 →
  let c := length (elements_at ds ID t) in
  let b := length (filter (λ e, e.1 < t) (stream ds ID)) in
  ((b + 1 < c)%nat → getTimePrev ds ID t = Undefined)
  ∧ ((b + 1 = c)%nat → getTimePrev ds ID t = Ok None)
  ∧ ((c ≤ b)%nat → getTimePrev ds ID t = Ok (fst <$> stream ds ID !! (b - c)%nat)).
Proof.
  intros Hwf Hne Hlen. cbv zeta.
  pose proof (stream_chronological _ ID Hwf) as Hc.
  destruct (chronological_split _ t Hc) as (A & F & B & Hsp).
  destruct (stream_split _ _ _ _ _ _ Hsp) as [Hel Hcount].
  rewrite Hel, length_fmap in *.
  rewrite int_of_size_t_small in Hcount by lia.
  assert (F ≠ []) as HF by (by intros ->).
  destruct (_DataStreams ds !! ID) as [s|] eqn:Hs.
  2:{ rewrite (stream_None _ _ Hs) in Hsp. destruct Hsp as [Heq _ _ _].
      symmetry in Heq. by apply app_eq_nil in Heq as [_ [? _]%app_eq_nil]. }
  rewrite (stream_lookup _ _ _ Hs) in *.
  assert (filter (λ e, e.1 < t) s = A) as ->.
  { destruct Hsp as [-> HA HFt HB]. rewrite !filter_app.
    rewrite (filter_all _ A), (filter_none _ F), (filter_none _ B) by
      (try done; eapply Forall_impl; eauto; simpl; lia).
    by rewrite !app_nil_r. }
  assert (length s = length A + length F + length B)%nat as Hls.
  { destruct Hsp as [-> _ _ _]. rewrite !length_app. lia. }
  assert (0 < length F)%nat as HlF by (destruct F; [done|simpl; lia]).
  unfold getTimePrev. rewrite Hcount.
  rewrite (proj2 (Z.gtb_lt _ _)) by lia.
  rewrite (map_at_lookup _ _ _ Hs), bind_Ok.
  rewrite (split_find _ _ _ _ _ Hsp), decide_False by done.
  split; [|split].
  - intros Hb. unfold advance.
    rewrite (proj2 (Z.leb_gt 0 _)) by lia. done.
  - intros Hb. rewrite advance_Ok by lia. rewrite bind_Ok.
    rewrite bool_decide_eq_false_2; [done|]. lia.
  - intros Hb. rewrite advance_Ok by lia. rewrite bind_Ok.
    rewrite bool_decide_eq_true_2 by lia.
    rewrite advance_Ok by lia. rewrite bind_Ok.
    replace (Z.to_nat (Z.of_nat (Z.to_nat (Z.of_nat (length A)
               + - (Z.of_nat (length F) - 1))) + -1))
      with (length A - length F)%nat by lia.
    unfold first, key_at.
    destruct (s !! (length A - length F)%nat) as [e|] eqn:He; [done|].
    apply lookup_ge_None in He. lia.
Qed.


(** X22: where every timestamp of the key carries one element and the
    query time is not above the last stored timestamp, [getTimeCloseTo]
    returns a stored timestamp whose distance to the query time, rounded
    as the subtraction of doubles rounds it, is least.  When it returns a
    timestamp below the query time, that one is nearest also by the exact
    distances; a timestamp it returns from above need not be. *)
Theorem getTimeCloseTo_nearest ds ID t :
  wf ds →
  (∀ k, (length (elements_at ds ID k) ≤ 1)%nat) →
  Exists (λ k, t ≤ k) (timestamps ds ID) →
  ∃ TimestampClose,
    getTimeCloseTo ds ID t = Ok (Some TimestampClose)
    ∧ TimestampClose ∈ timestamps ds ID
    ∧ (∀ k, k ∈ timestamps ds ID →
            double_round (Z.abs (TimestampClose - t)) ≤ double_round (Z.abs (k - t)))
    ∧ (TimestampClose < t →
       ∀ k, k ∈ timestamps ds ID → Z.abs (TimestampClose - t) ≤ Z.abs (k - t)).
Proof.
  intros Hwf Hone Hex. apply Exists_exists in Hex as (kx & Hkx & Hlex).
  destruct (_DataStreams ds !! ID) as [s|] eqn:Hs;
    [|rewrite (timestamps_None _ _ Hs) in Hkx; by apply elem_of_nil in Hkx].
  destruct (wf_lookup _ _ _ Hwf Hs) as [Hc _].
  destruct (chronological_split s t Hc) as (A & F & B & Hsp).
  pose proof Hsp as [Heqs HA HF HB].
  assert (∀ k, k ∈ timestamps ds ID ↔ k ∈ A.*1 ∨ k ∈ F.*1 ∨ k ∈ B.*1) as Hts.
  { intros k. by rewrite (timestamps_lookup _ _ _ _ Hs), Heqs, !keys_app. }
  unfold getTimeCloseTo.
  rewrite (checkID_Some _ _ _ Hs). simpl negb. cbv iota.
  rewrite (map_at_lookup _ _ _ Hs), bind_Ok.
  rewrite (split_lower_bound _ _ _ _ _ Hsp).
  destruct F as [|f F'].
  - destruct B as [|b B'].
    { exfalso. apply Hts in Hkx as [Hk|[Hk|Hk]].
      - pose proof (keys_lt _ _ _ HA Hk). lia.
      - by apply elem_of_nil in Hk.
      - by apply elem_of_nil in Hk. }
    simpl in Heqs.
    assert (first s (length A) = Ok b.1) as -> by (rewrite Heqs; apply first_app_head).
    rewrite bind_Ok.
    pose proof HB as [Hb _]%Forall_cons.
    rewrite bool_decide_eq_false_2 by lia.
    rewrite (bool_decide_eq_false_2 (length A = length s))
      by (rewrite Heqs, length_app; simpl; lia).
    rewrite (bool_decide_eq_true_2 (length A ≠ length s))
      by (rewrite Heqs, length_app; simpl; lia).
    simpl andb. cbv iota.
    assert (∀ k, k ∈ (b :: B').*1 → b.1 ≤ k) as Hbmin.
    { intros k Hk. apply (keys_head_le b B'); [|done].
      apply (chronological_app_r A). by rewrite <-Heqs. }
    assert (b.1 ∈ timestamps ds ID) as Hbin.
    { apply Hts. right. right. apply list_elem_of_here. }
    destruct A as [|a A' _] using rev_ind.
    + rewrite bool_decide_eq_true_2 by done. cbv iota.
      exists b.1. split; [done|]. split; [done|]. split; [|lia].
      intros k [Hk|[Hk|Hk]]%Hts; [by apply elem_of_nil in Hk..|].
      specialize (Hbmin _ Hk). apply double_round_mono. lia.
    + rewrite (bool_decide_eq_false_2 (length (A' ++ [a]) = 0%nat))
        by (rewrite length_app; simpl; lia).
      rewrite (bool_decide_eq_true_2 (length (A' ++ [a]) ≠ 0%nat))
        by (rewrite length_app; simpl; lia).
      cbv iota.
      assert (chronological (b :: B') = true) as HcB.
      { apply (chronological_app_r (A' ++ [a])). by rewrite <-Heqs. }
      destruct (head_block b B' HcB) as (F1 & B1 & Heq1 & HF1 & Hk1 & HB1).
      assert (split_at s b.1 (A' ++ [a]) F1 B1) as Hsp1.
      { split; auto; [by rewrite <-Heq1|].
        eapply Forall_impl; [exact HA|]. simpl. lia. }
      assert (countElement ds ID b.1 = 1) as Hcount.
      { rewrite (countElement_split _ _ _ _ _ _ _ Hs Hsp1).
        specialize (Hone b.1).
        rewrite (elements_at_split _ _ _ _ _ _ _ Hs Hsp1), length_fmap in Hone.
        destruct F1 as [|? [|? ?]]; [done|done|simpl in Hone; lia]. }
      rewrite (getTimePrev_single _ _ _ _ _ _ _ Hs Hsp1 Hcount), bind_Ok.
      rewrite last_snoc. simpl fmap. cbv iota.
      assert (a.1 < t) as Hat.
      { apply (keys_lt _ _ _ HA). rewrite keys_app. right. apply list_elem_of_here. }
      assert (∀ k, k ∈ (A' ++ [a]).*1 → k ≤ a.1) as Hamax.
      { intros k Hk. apply (keys_last_ge A' a); [|done].
        apply (chronological_app_l _ (b :: B')). by rewrite <-Heqs. }
      assert (a.1 ∈ timestamps ds ID) as Hain.
      { apply Hts. left. rewrite keys_app. right. apply list_elem_of_here. }
      unfold double_sub.
      destruct (double_round (b.1 - t) <=? double_round (t - a.1)) eqn:Hcmp.
      * apply Z.leb_le in Hcmp. exists b.1. split; [done|]. split; [done|].
        split; [|lia].
        rewrite (Z.abs_eq (b.1 - t)) by lia.
        intros k [Hk|[Hk|Hk]]%Hts.
        -- specialize (Hamax _ Hk).
           pose proof (double_round_mono (t - a.1) (Z.abs (k - t)) ltac:(lia)). lia.
        -- by apply elem_of_nil in Hk.
        -- specialize (Hbmin _ Hk). apply double_round_mono. lia.
      * apply Z.leb_gt in Hcmp. exists a.1. split; [done|]. split; [done|].
        assert (t - a.1 < b.1 - t) as Hnearer.
        { destruct (Z.lt_ge_cases (t - a.1) (b.1 - t)) as [?|Hge]; [done|].
          pose proof (double_round_mono (b.1 - t) (t - a.1) ltac:(lia)). lia. }
        assert (∀ k, k ∈ timestamps ds ID → Z.abs (a.1 - t) ≤ Z.abs (k - t)) as Hexact.
        { intros k [Hk|[Hk|Hk]]%Hts.
          - specialize (Hamax _ Hk). lia.
          - by apply elem_of_nil in Hk.
          - specialize (Hbmin _ Hk). lia. }
        split; [|intros _; exact Hexact].
        intros k Hk. apply double_round_mono. specialize (Hexact k Hk). lia.
  - assert (first s (length A) = Ok f.1) as -> by (rewrite Heqs; apply first_app_head).
    rewrite bind_Ok.
    pose proof HF as [Hf _]%Forall_cons.
    rewrite bool_decide_eq_true_2 by done.
    exists f.1. split; [done|]. split; [|split; [|lia]].
    + apply Hts. right. left. apply list_elem_of_here.
    + intros k _. apply double_round_mono. lia.
Qed.

(** X23: the borders [_FindBordersEqual] returns are the least stored
    timestamp at or above [Start] and the greatest at or below [End];
    those of [_FindBorders] are the least above [Start] and the greatest
    below [End].  Both return [false] when [Start] is above [End] or one
    of the two borders does not exist; the borders are not compared with
    each other. *)
Theorem FindBorders_neighbours ds ID Start End :
  wf ds →
  (∃ r, _FindBordersEqual ds ID Start End = Ok r
        ∧ match r with
          | Some (StartTrue, EndTrue) =>
              Start ≤ End
              ∧ StartTrue ∈ timestamps ds ID ∧ Start ≤ StartTrue
              ∧ EndTrue ∈ timestamps ds ID ∧ EndTrue ≤ End
              ∧ ∀ k, k ∈ timestamps ds ID →
                     (Start ≤ k → StartTrue ≤ k) ∧ (k ≤ End → k ≤ EndTrue)
          | None =>
              End < Start
              ∨ (∀ k, k ∈ timestamps ds ID → k < Start)
              ∨ (∀ k, k ∈ timestamps ds ID → End < k)
          end)
  ∧ (∃ r, _FindBorders ds ID Start End = Ok r
          ∧ match r with
            | Some (StartTrue, EndTrue) =>
                Start ≤ End
                ∧ StartTrue ∈ timestamps ds ID ∧ Start < StartTrue
                ∧ EndTrue ∈ timestamps ds ID ∧ EndTrue < End
                ∧ ∀ k, k ∈ timestamps ds ID →
                       (Start < k → StartTrue ≤ k) ∧ (k < End → k ≤ EndTrue)
            | None =>
                End < Start
                ∨ (∀ k, k ∈ timestamps ds ID → k ≤ Start)
                ∨ (∀ k, k ∈ timestamps ds ID → End ≤ k)
            end).
Proof.
  intros Hwf. destruct (_DataStreams ds !! ID) as [s|] eqn:Hs.
  2:{ assert (∀ k, k ∈ timestamps ds ID → False) as Hnone.
      { intros k Hk. rewrite (timestamps_None _ _ Hs) in Hk. by apply elem_of_nil in Hk. }
      unfold _FindBordersEqual, _FindBorders, getTimeAboveOrEqual, getTimeAbove.
      rewrite (checkID_None _ _ Hs). simpl.
      split; exists None; (split; [by destruct (Start >? End)|]);
        right; left; intros k Hk; by destruct (Hnone k). }
  destruct (wf_lookup _ _ _ Hwf Hs) as [Hc _]. split.
  - unfold _FindBordersEqual. destruct (Start >? End) eqn:Hgt.
    { apply Z.gtb_lt in Hgt. exists None. auto. }
    rewrite Z.gtb_ltb in Hgt. apply Z.ltb_ge in Hgt.
    destruct (getTimeAboveOrEqual_stream ds ID s Start Hs Hc) as (ra & Ha & Hra).
    destruct (getTimeBelowOrEqual_stream ds ID s End Hs Hc) as (rb & Hb & Hrb).
    rewrite Ha, bind_Ok. destruct ra as [StartTrue|]; [|exists None; auto].
    rewrite Hb, bind_Ok. destruct rb as [EndTrue|]; [|exists None; auto].
    exists (Some (StartTrue, EndTrue)). split; [done|].
    destruct Hra as (? & ? & Hmin), Hrb as (? & ? & Hmax).
    repeat split; auto.
  - unfold _FindBorders. destruct (Start >? End) eqn:Hgt.
    { apply Z.gtb_lt in Hgt. exists None. auto. }
    rewrite Z.gtb_ltb in Hgt. apply Z.ltb_ge in Hgt.
    destruct (getTimeAbove_stream ds ID s Start Hs Hc) as (ra & Ha & Hra).
    destruct (getTimeBelow_stream ds ID s End Hs Hc) as (rb & Hb & Hrb).
    rewrite Ha, bind_Ok. destruct ra as [StartTrue|]; [|exists None; auto].
    rewrite Hb, bind_Ok. destruct rb as [EndTrue|]; [|exists None; auto].
    exists (Some (StartTrue, EndTrue)). split; [done|].
    destruct Hra as (? & ? & Hmin), Hrb as (? & ? & Hmax).
    repeat split; auto.
Qed.

(** On a valid data set [empty()] is true exactly when no element is
    stored, and it is true after [clear()], which keeps the data set
    valid and its [NullObject]. *)
Lemma DataSet_empty_no_element ds :
  wf ds →
  (DataSet_empty ds = true ↔ ∀ ID t, elements_at ds ID t = [])
  ∧ DataSet_empty (clear ds) = true
  ∧ wf (clear ds)
  ∧ NullObject (clear ds) = NullObject ds.
Proof.
  intros Hwf. split; [|split; [|split; [|done]]].
  - unfold DataSet_empty. rewrite bool_decide_eq_true, map_size_empty_iff. split.
    + intros Hempty ID t. unfold elements_at. by rewrite Hempty, lookup_empty.
    + intros Hnone. apply map_empty. intros ID.
      destruct (_DataStreams ds !! ID) as [s|] eqn:Hs; [|done].
      destruct (wf_lookup _ _ _ Hwf Hs) as [_ Hne].
      destruct s as [|e s']; [done|].
      specialize (Hnone ID e.1). unfold elements_at in Hnone. rewrite Hs in Hnone.
      rewrite filter_cons_True in Hnone by done. done.
  - unfold DataSet_empty, clear. simpl. by rewrite map_size_empty.
  - unfold wf, clear. simpl. apply map_Forall_empty.
Qed.


(** [operator ==] of [UniqueID] is equality of the three members. *)
Lemma UniqueID_eqb_eq (a b : UniqueID.t KeyType) : UniqueID.eqb a b = true ↔ a = b.
Proof.
  unfold UniqueID.eqb. rewrite !andb_true_iff, !bool_decide_eq_true.
  destruct a, b. simpl. split; [intros [[-> ->] ->]; done | by intros [= -> -> ->]].
Qed.

End MoreDataSetFacts.

Section DriverFacts.
Context `{Library}.
Context {W : Type} (h : ∀ e, W → answer e * W).

(** X24: with fewer than four arguments behind the program name [main]
    throws ([std::out_of_range] from [Arguments.at]) right after the
    logging is initialised: no input is read, nothing is written and no
    exit code is returned. *)
Theorem main_too_few_arguments argv0 Arguments w :
  (length Arguments < 4)%nat →
  run h (main (argv0 :: Arguments)) w = Raised [InitGoogleLogging argv0].
Proof.
  intros Hlen. unfold main. rewrite run_call_bind. cbv zeta.
  change (drop 1 (argv0 :: Arguments)) with Arguments.
  assert (Arguments !! 3%nat = None) as H3 by (apply lookup_ge_None; lia).
  unfold vector_at. rewrite H3.
  destruct (Arguments !! 0%nat); [|done].
  destruct (Arguments !! 1%nat); done.
Qed.

(** X25: an EM tuning step reads the residuals and calls the estimator on
    a fresh mixture of [GMM_N] spread components, never on the mixture of
    an earlier step; the error model it installs is the estimate with its
    offset removed, and the statics stay as they were. *)
Theorem TuneErrorModel_EM_starts_afresh G Config st w :
  TuningType (GNSS_ErrorModel Config) = ErrorModelTuningType.EM →
  let ErrorData := (h (computeUnweightedError G FactorType.Pseudorange3_ECEF) w).1 in
  let w1 := (h (computeUnweightedError G FactorType.Pseudorange3_ECEF) w).2 in
  let GMMConfig :=
    {| EstimationAlgorithm := ErrorModelTuningType.EM;
       RemoveSmallComponents := false;
       MergeSimiliarComponents := false;
       PriorWishartDOF := None |} in
  let GMM := removeOffset (h (estimate (initSpread GMM_N 10) ErrorData GMMConfig) w1).1 in
  ∃ w',
    run h (TuneErrorModel G Config st) w
    = Returned st w'
        ([computeUnweightedError G FactorType.Pseudorange3_ECEF;
          estimate (initSpread GMM_N 10) ErrorData GMMConfig]
         ++ match MixtureType (GNSS_ErrorModel Config) with
            | ErrorModelMixtureType.SumMix =>
                [setNewErrorModel G FactorType.Pseudorange3_ECEF (SumMix1 GMM)]
            | ErrorModelMixtureType.MaxMix =>
                [setNewErrorModel G FactorType.Pseudorange3_ECEF (MaxMix1 GMM)]
            | ErrorModelMixtureType.Other => []
            end).
Proof.
  intros Htun. cbv zeta. rewrite TuneErrorModel_EM by done.
  rewrite (run_call_bind h (computeUnweightedError G FactorType.Pseudorange3_ECEF)).
  destruct (h (computeUnweightedError G FactorType.Pseudorange3_ECEF) w)
    as [ErrorData w1]. simpl fst. simpl snd.
  set (GMMConfig := {| EstimationAlgorithm := ErrorModelTuningType.EM;
                       RemoveSmallComponents := false;
                       MergeSimiliarComponents := false;
                       PriorWishartDOF := None |}).
  rewrite (run_call_bind h (estimate (initSpread GMM_N 10) ErrorData GMMConfig)).
  destruct (h (estimate (initSpread GMM_N 10) ErrorData GMMConfig) w1) as [GMM' w2].
  simpl fst. simpl snd. rewrite run_bind. unfold apply_error_model.
  destruct (MixtureType (GNSS_ErrorModel Config)); simpl.
  - destruct (h _ w2) as [[] w3]. simpl. eauto.
  - destruct (h _ w2) as [[] w3]. simpl. eauto.
  - eauto.
Qed.


Lemma getElement_value_total {KeyType} `{Countable KeyType} {ObjectType}
    (ds : DataSet KeyType ObjectType) ID t :
  wf ds → Z.of_nat (length (elements_at ds ID t)) < 2 ^ 31 →
  getElement_value ds ID t 0
  = Ok (default (NullObject ds) (head (elements_at ds ID t))).
Proof.
  intros Hwf Hlen. destruct (elements_at ds ID t) as [|o els] eqn:Hel.
  - unfold getElement_value, getElement, checkElement.
    rewrite countElement_elements_at, Hel. simpl. done.
  - apply (getElement_value_stored ds ID t 0 o Hwf); rewrite Hel; [done|done].
Qed.

(** With an error model it has no factor for (neither Gaussian, DCS nor
    cDCE, nor a mixture that is MaxMix or SumMix),
    [AddPseudorangeMeasurements] reads the measurements and adds no
    factor at all. *)
Lemma AddPseudorangeMeasurements_unsupported_adds_nothing
    G Measurements Config Timestamp st w :
  wf Measurements →
  Z.of_nat (length (elements_at Measurements SensorType.Pseudorange3 Timestamp))
    < 2 ^ 31 →
  Type_ (GNSS_ErrorModel Config) = ErrorModelType.Other
  ∨ (Type_ (GNSS_ErrorModel Config) = ErrorModelType.GMM
     ∧ MixtureType (GNSS_ErrorModel Config) = ErrorModelMixtureType.Other) →
  ∃ st',
    run h (AddPseudorangeMeasurements G Measurements Config Timestamp st) w
    = Returned st' w []
    ∧ NoisePseudorangeMaxMix st' = NoisePseudorangeMaxMix st
    ∧ NoisePseudorangeSumMix st' = NoisePseudorangeSumMix st
    ∧ GMMAdaptive st' = GMMAdaptive st.
Proof.
  intros Hwf Hlen Hun. unfold AddPseudorangeMeasurements. cbv zeta.
  set (L := [(POSITION_STATE, Timestamp); (CLOCK_ERROR_STATE, Timestamp)]).
  set (els := elements_at Measurements SensorType.Pseudorange3 Timestamp) in *.
  rewrite countElement_elements_at. fold els.
  rewrite int_of_size_t_small by done.
  assert (Forall (λ c, ∃ m, getElement_value Measurements SensorType.Pseudorange3
                              Timestamp c = Ok m)
            (seqZ 0 (Z.of_nat (length els)))) as Hall.
  { apply Forall_forall. intros c Hc. apply elem_of_seqZ in Hc.
    destruct (lookup_lt_is_Some_2 els (Z.to_nat c) ltac:(lia)) as [m Hm].
    exists m. replace c with (Z.of_nat (Z.to_nat c)) at 1 by lia.
    by apply getElement_value_stored. }
  revert st. induction Hall as [|c cs (m & Hget) _ IH]; intros st.
  - exists st. done.
  - simpl AddPseudorangeMeasurements_loop. rewrite Hget.
    change (lift (Ok m) ≫= ?f) with (f m). cbv beta.
    assert (∃ st1, AddPseudorange G Config L m st = Ret st1
                   ∧ NoisePseudorangeMaxMix st1 = NoisePseudorangeMaxMix st
                   ∧ NoisePseudorangeSumMix st1 = NoisePseudorangeSumMix st
                   ∧ GMMAdaptive st1 = GMMAdaptive st) as (st1 & -> & Hm1 & Hm2 & Hm3).
    { unfold AddPseudorange. destruct Hun as [->|[-> ->]]; [by exists st|].
      simpl. eauto. }
    change (Ret st1 ≫= ?f) with (f st1). cbv beta.
    destruct (IH st1) as (st' & -> & H1 & H2 & H3).
    exists st'. split; [done|]. by rewrite H1, H2, H3.
Qed.

(** A run that returns, with what it returns and what it calls. *)
Definition returns_with {A} (p : Prog A) (w : W)
    (Q : A → list Event → Prop) : Prop :=
  ∃ a w' trace, run h p w = Returned a w' trace ∧ Q a trace.

Lemma returns_with_ret {A} (a : A) w (Q : A → list Event → Prop) :
  Q a [] → returns_with (mret a) w Q.
Proof. intros HQ. exists a, w, []. done. Qed.

Lemma returns_with_bind {A B} (p : Prog A) (f : A → Prog B) w
    (Q1 : A → list Event → Prop) (Q : B → list Event → Prop) :
  returns_with p w Q1 →
  (∀ a w1 t1, Q1 a t1 → returns_with (f a) w1 (λ b t2, Q b (t1 ++ t2))) →
  returns_with (p ≫= f) w Q.
Proof.
  intros (a & w1 & t1 & Hp & HQ1) Hf.
  destruct (Hf a w1 t1 HQ1) as (b & w2 & t2 & Hfa & HQ).
  exists b, w2, (t1 ++ t2). by rewrite run_bind, Hp, Hfa.
Qed.

Lemma returns_with_call {B} (e : Event) (f : answer e → Prog B) w
    (Q : B → list Event → Prop) :
  (∀ r w1, returns_with (f r) w1 (λ b t2, Q b (e :: t2))) →
  returns_with (call e ≫= f) w Q.
Proof.
  intros Hf. unfold returns_with. rewrite run_call_bind.
  destruct (Hf (h e w).1 (h e w).2) as (b & w2 & t2 & -> & HQ). simpl. eauto.
Qed.

Lemma returns_with_lift {A B} (r : result A) (a : A) (f : A → Prog B) w
    (Q : B → list Event → Prop) :
  r = Ok a → returns_with (f a) w Q → returns_with (lift r ≫= f) w Q.
Proof. by intros ->. Qed.

Lemma read_elements_at {KeyType} `{Countable KeyType} {ObjectType}
    (ds : DataSet KeyType ObjectType) ID t :
  wf ds →
  Z.of_nat (length (elements_at ds ID t)) < 2 ^ 31 →
  Forall2 (λ Number o, getElement_value ds ID t Number = Ok o)
    (seqZ 0 (countElement ds ID t)) (elements_at ds ID t).
Proof.
  intros Hwf Hlen. rewrite countElement_elements_at, int_of_size_t_small by done.
  apply Forall2_same_length_lookup_2.
  - rewrite length_seqZ. lia.
  - intros i c o Hc Ho. apply lookup_seqZ in Hc as [-> _].
    rewrite Z.add_0_l. by apply getElement_value_stored.
Qed.

(** The loop of [AddPseudorangeMeasurements] under a mixture model whose
    static noise model has been constructed. *)
Lemma AddPseudorangeMeasurements_loop_static G Measurements Config Timestamp L gmm
    SatCounters Pseudoranges :
  Type_ (GNSS_ErrorModel Config) = ErrorModelType.GMM →
  Forall2 (λ SatCounter Pseudorange,
             getElement_value Measurements SensorType.Pseudorange3 Timestamp
               SatCounter = Ok Pseudorange) SatCounters Pseudoranges →
  ∀ st w,
    (MixtureType (GNSS_ErrorModel Config) = ErrorModelMixtureType.MaxMix →
     NoisePseudorangeMaxMix st = Some gmm →
     returns_with
       (AddPseudorangeMeasurements_loop G Measurements Config Timestamp L
          SatCounters st) w
       (λ st' trace,
          NoisePseudorangeMaxMix st' = Some gmm
          ∧ trace = (λ Pseudorange,
                       addFactor G FactorType.Pseudorange3_ECEF L (Some Pseudorange)
                         (MaxMix1 gmm) None) <$> Pseudoranges))
    ∧ (MixtureType (GNSS_ErrorModel Config) = ErrorModelMixtureType.SumMix →
       NoisePseudorangeSumMix st = Some gmm →
       returns_with
         (AddPseudorangeMeasurements_loop G Measurements Config Timestamp L
            SatCounters st) w
         (λ st' trace,
            NoisePseudorangeSumMix st' = Some gmm
            ∧ trace = (λ Pseudorange,
                         addFactor G FactorType.Pseudorange3_ECEF L (Some Pseudorange)
                           (SumMix1 gmm) None) <$> Pseudoranges)).
Proof.
  intros Hty Hread.
  induction Hread as [|c p cs ps Hget _ IH]; intros st w.
  - split; intros _ Hst; by apply returns_with_ret.
  - split; intros Hmix Hst.
    + simpl AddPseudorangeMeasurements_loop.
      apply (returns_with_lift _ p); [done|].
      unfold AddPseudorange. rewrite Hty, Hmix. simpl decide. cbv iota zeta.
      rewrite Hst. simpl default.
      change (returns_with
        (call (addFactor G FactorType.Pseudorange3_ECEF L (Some p) (MaxMix1 gmm) None)
         ≫= λ _, AddPseudorangeMeasurements_loop G Measurements Config Timestamp L cs
                   {| GMM := if getNumberOfComponents (GMM st) =? 0
                             then if decide (TuningType (GNSS_ErrorModel Config)
                                             = ErrorModelTuningType.VBI)
                                  then initSpread 2 10 else initSpread GMM_N 10
                             else GMM st;
                      NoisePseudorangeMaxMix := Some gmm;
                      NoisePseudorangeSumMix := NoisePseudorangeSumMix st;
                      GMMAdaptive := GMMAdaptive st |}) w
        (λ st' trace, NoisePseudorangeMaxMix st' = Some gmm
                      ∧ trace = (λ Pseudorange,
                           addFactor G FactorType.Pseudorange3_ECEF L (Some Pseudorange)
                             (MaxMix1 gmm) None) <$> p :: ps)).
      apply returns_with_call. intros _ w1.
      match goal with
      | |- returns_with (AddPseudorangeMeasurements_loop _ _ _ _ _ _ ?st1) _ _ =>
          destruct (proj1 (IH st1 w1) Hmix eq_refl)
            as (st' & w' & trace & Hrun & Hst' & Htrace)
      end.
      exists st', w', trace. split; [exact Hrun|]. split; [exact Hst'|].
      by rewrite Htrace.
    + simpl AddPseudorangeMeasurements_loop.
      apply (returns_with_lift _ p); [done|].
      unfold AddPseudorange. rewrite Hty, Hmix. simpl decide. cbv iota zeta.
      rewrite Hst. simpl default.
      change (returns_with
        (call (addFactor G FactorType.Pseudorange3_ECEF L (Some p) (SumMix1 gmm) None)
         ≫= λ _, AddPseudorangeMeasurements_loop G Measurements Config Timestamp L cs
                   {| GMM := if getNumberOfComponents (GMM st) =? 0
                             then if decide (TuningType (GNSS_ErrorModel Config)
                                             = ErrorModelTuningType.VBI)
                                  then initSpread 2 10 else initSpread GMM_N 10
                             else GMM st;
                      NoisePseudorangeMaxMix := NoisePseudorangeMaxMix st;
                      NoisePseudorangeSumMix := Some gmm;
                      GMMAdaptive := GMMAdaptive st |}) w
        (λ st' trace, NoisePseudorangeSumMix st' = Some gmm
                      ∧ trace = (λ Pseudorange,
                           addFactor G FactorType.Pseudorange3_ECEF L (Some Pseudorange)
                             (SumMix1 gmm) None) <$> p :: ps)).
      apply returns_with_call. intros _ w1.
      match goal with
      | |- returns_with (AddPseudorangeMeasurements_loop _ _ _ _ _ _ ?st1) _ _ =>
          destruct (proj2 (IH st1 w1) Hmix eq_refl)
            as (st' & w' & trace & Hrun & Hst' & Htrace)
      end.
      exists st', w', trace. split; [exact Hrun|]. split; [exact Hst'|].
      by rewrite Htrace.
Qed.

Lemma TuneErrorModel_keeps_noise_models G Config st w st1 w1 trace1 :
  run h (TuneErrorModel G Config st) w = Returned st1 w1 trace1 →
  NoisePseudorangeMaxMix st1 = NoisePseudorangeMaxMix st
  ∧ NoisePseudorangeSumMix st1 = NoisePseudorangeSumMix st.
Proof.
  intros Htune. destruct (TuningType (GNSS_ErrorModel Config)) eqn:Htun.
  - rewrite TuneErrorModel_None in Htune by done. by injection Htune as <- _ _.
  - rewrite TuneErrorModel_EM in Htune by done.
    apply run_call_Returned in Htune as (t2 & Htune & ->).
    apply run_call_Returned in Htune as (t3 & Htune & ->).
    apply run_bind_Returned in Htune as ([] & w3 & t4 & t5 & _ & Htune & ->).
    by apply run_ret_Returned in Htune as (-> & _ & _).
  - rewrite TuneErrorModel_VBI in Htune by done.
    apply run_call_Returned in Htune as (t2 & Htune & ->).
    apply run_call_Returned in Htune as (t3 & Htune & ->).
    apply run_bind_Returned in Htune as ([] & w3 & t4 & t5 & _ & Htune & ->).
    by apply run_ret_Returned in Htune as (-> & _ & _).
  - rewrite TuneErrorModel_Other in Htune by done.
    apply run_call_Returned in Htune as (t2 & Htune & ->).
    by apply run_ret_Returned in Htune as (-> & _ & _).
Qed.

(** X26: a mixture noise model of [AddPseudorangeMeasurements] is a static
    that is constructed once.  A tuning step returns and leaves it as it
    was, and [AddPseudorangeMeasurements] then adds one factor for every
    pseudorange stored at the timestamp, in their order, each with the
    mixture the static was constructed with and not with the one the
    tuning step has estimated. *)
Theorem static_noise_model_is_frozen G Measurements Config Timestamp gmm st w :
  wf Measurements →
  Z.of_nat (length (elements_at Measurements SensorType.Pseudorange3 Timestamp))
    < 2 ^ 31 →
  Type_ (GNSS_ErrorModel Config) = ErrorModelType.GMM →
  ∃ st1 w1 trace1,
    run h (TuneErrorModel Graph Config st) w = Returned st1 w1 trace1
    ∧ (MixtureType (GNSS_ErrorModel Config) = ErrorModelMixtureType.MaxMix →
       NoisePseudorangeMaxMix st = Some gmm →
       ∃ st2 w2,
         run h (AddPseudorangeMeasurements G Measurements Config Timestamp st1) w1
         = Returned st2 w2
             ((λ Pseudorange,
                 addFactor G FactorType.Pseudorange3_ECEF
                   [(POSITION_STATE, Timestamp); (CLOCK_ERROR_STATE, Timestamp)]
                   (Some Pseudorange) (MaxMix1 gmm) None)
              <$> elements_at Measurements SensorType.Pseudorange3 Timestamp)
         ∧ NoisePseudorangeMaxMix st2 = Some gmm)
    ∧ (MixtureType (GNSS_ErrorModel Config) = ErrorModelMixtureType.SumMix →
       NoisePseudorangeSumMix st = Some gmm →
       ∃ st2 w2,
         run h (AddPseudorangeMeasurements G Measurements Config Timestamp st1) w1
         = Returned st2 w2
             ((λ Pseudorange,
                 addFactor G FactorType.Pseudorange3_ECEF
                   [(POSITION_STATE, Timestamp); (CLOCK_ERROR_STATE, Timestamp)]
                   (Some Pseudorange) (SumMix1 gmm) None)
              <$> elements_at Measurements SensorType.Pseudorange3 Timestamp)
         ∧ NoisePseudorangeSumMix st2 = Some gmm).
Proof.
  intros Hwf Hlen Hty.
  destruct (returns_TuneErrorModel h Graph Config st w) as (st1 & w1 & trace1 & Htune).
  exists st1, w1, trace1. split; [exact Htune|].
  apply TuneErrorModel_keeps_noise_models in Htune as [Hmm Hsm].
  pose proof (read_elements_at Measurements SensorType.Pseudorange3 Timestamp Hwf Hlen)
    as Hread.
  pose proof (AddPseudorangeMeasurements_loop_static G Measurements Config Timestamp
                [(POSITION_STATE, Timestamp); (CLOCK_ERROR_STATE, Timestamp)] gmm
                _ _ Hty Hread st1 w1) as [Hmax Hsum].
  split; intros Hmix Hst.
  - rewrite <-Hmm in Hst.
    destruct (Hmax Hmix Hst) as (st2 & w2 & trace2 & Hrun & Hst2 & ->).
    exists st2, w2. split; [exact Hrun|exact Hst2].
  - rewrite <-Hsm in Hst.
    destruct (Hsum Hmix Hst) as (st2 & w2 & trace2 & Hrun & Hst2 & ->).
    exists st2, w2. split; [exact Hrun|exact Hst2].
Qed.

Lemma omap_cons_None {X Y} (f : X → option Y) (x : X) (l : list X) :
  f x = None → omap f (x :: l) = omap f l.
Proof. simpl. by intros ->. Qed.

Lemma omap_cons_Some {X Y} (f : X → option Y) (x : X) (y : Y) (l : list X) :
  f x = Some y → omap f (x :: l) = y :: omap f l.
Proof. simpl. by intros ->. Qed.

Lemma omap_recorded_tuning trace :
  Forall tuning_event trace → omap recorded_at trace = [].
Proof.
  induction 1 as [|e trace He _ IH]; [done|].
  rewrite omap_cons_None; [done|]. by destruct e.
Qed.

Lemma omap_recorded_factors {X} (P : X → Event → Prop) (l : list X) trace :
  (∀ x e, P x e → ∃ G F L M N Ls, e = addFactor G F L M N Ls) →
  Forall2 P l trace → omap recorded_at trace = [].
Proof.
  intros HP. induction 1 as [|x e l trace He _ IH]; [done|].
  rewrite omap_cons_None; [done|].
  by destruct (HP _ _ He) as (? & ? & ? & ? & ? & ? & ->).
Qed.

Lemma AddPseudorangeMeasurements_records_nothing Measurements Config Timestamp st w :
  wf Measurements →
  Z.of_nat (length (elements_at Measurements SensorType.Pseudorange3 Timestamp))
    < 2 ^ 31 →
  supported Config →
  (Type_ (GNSS_ErrorModel Config) = ErrorModelType.cDCE →
   Forall (λ Pseudorange, getStdDev Pseudorange ≠ [])
     (elements_at Measurements SensorType.Pseudorange3 Timestamp)) →
  returns_with (AddPseudorangeMeasurements Graph Measurements Config Timestamp st) w
    (λ _ trace, omap recorded_at trace = []).
Proof.
  intros Hwf Hlen Hsup Hsd.
  destruct (returns_AddPseudorangeMeasurements h Graph Measurements Config Timestamp
              st w Hwf Hlen Hsup Hsd) as (st' & w' & trace & Hrun).
  exists st', w', trace. split; [done|].
  unfold AddPseudorangeMeasurements in Hrun.
  apply run_AddPseudorangeMeasurements_loop in Hrun as (Ps & _ & Hfac & _); [|done].
  eapply omap_recorded_factors; [|exact Hfac].
  intros x e (Noise & Loss & -> & _). eauto 10.
Qed.

Lemma TuneErrorModel_records_nothing Config st w :
  returns_with (TuneErrorModel Graph Config st) w
    (λ _ trace, omap recorded_at trace = []).
Proof.
  destruct (returns_TuneErrorModel h Graph Config st w) as (st' & w' & trace & Hrun).
  exists st', w', trace. split; [done|].
  by eapply omap_recorded_tuning, run_TuneErrorModel_trace.
Qed.

Lemma timestamps_after {KeyType} `{Countable KeyType} {ObjectType}
    (ds : DataSet KeyType ObjectType) ID s t A F B :
  _DataStreams ds !! ID = Some s → split_at s t A F B →
  filter (λ k, t < k) (timestamps ds ID) = remove_dups B.*1.
Proof.
  intros Hs [-> HA HF HB]. unfold timestamps. rewrite (stream_lookup _ _ _ Hs).
  rewrite app_assoc. rewrite remove_dups_behind.
  2:{ intros p r [Hp|Hp]%elem_of_app Hr; rewrite Forall_forall in HA, HF, HB.
      - specialize (HA _ Hp). specialize (HB _ Hr). simpl in *. lia.
      - specialize (HF _ Hp). specialize (HB _ Hr). simpl in *. lia. }
  rewrite filter_app, (filter_none _ (remove_dups (A ++ F).*1)).
  - simpl. apply filter_all. apply Forall_forall. intros k Hk.
    rewrite elem_of_remove_dups in Hk. by eapply keys_gt.
  - apply Forall_forall. intros k Hk. rewrite elem_of_remove_dups in Hk.
    apply keys_app in Hk as [Hk|Hk].
    + pose proof (keys_lt _ _ _ HA Hk). lia.
    + rewrite (keys_eq _ _ _ HF Hk). lia.
Qed.

Lemma main_loop_records fuel InputData Config Options NoiseOdom4DOF NoiseCCED
    s A F B Timestamp TimestampOld Result st w :
  wf InputData →
  (∀ ID, Z.of_nat (length (stream InputData ID)) < 2 ^ 31) →
  supported Config →
  (Type_ (GNSS_ErrorModel Config) = ErrorModelType.cDCE →
   ∀ t, Forall (λ Pseudorange, getStdDev Pseudorange ≠ [])
          (elements_at InputData SensorType.Pseudorange3 t)) →
  _DataStreams InputData !! SensorType.Pseudorange3 = Some s →
  split_at s Timestamp A F B → F ≠ [] →
  (length B < fuel)%nat →
  returns_with
    (main_loop fuel InputData Config Options NoiseOdom4DOF NoiseCCED
       Timestamp TimestampOld Result st) w
    (λ r trace, is_Some r ∧ omap recorded_at trace = remove_dups B.*1).
Proof.
  intros Hwf Hlen Hsup Hsd Hs.
  assert (∀ ID t, Z.of_nat (length (elements_at InputData ID t)) < 2 ^ 31) as Hlen'.
  { intros ID t. specialize (Hlen ID). rewrite elements_at_stream, length_fmap.
    pose proof (length_filter (λ e, e.1 = t) (stream InputData ID)). lia. }
  destruct (wf_lookup _ _ _ Hwf Hs) as [Hc _].
  revert A F B Timestamp TimestampOld Result st w.
  induction fuel as [|fuel IH];
    intros A F B Timestamp TimestampOld Result st w Hsp HF Hfuel; [lia|].
  cbn [main_loop].
  rewrite (getTimeNext_block _ _ _ _ _ _ _ Hs Hsp HF).
  2:{ specialize (Hlen' SensorType.Pseudorange3 Timestamp).
      by rewrite (elements_at_split _ _ _ _ _ _ _ Hs Hsp), length_fmap in Hlen'. }
  destruct B as [|b B'].
  { apply returns_with_ret. split; [eauto|done]. }
  change (lift (Ok (head (b :: B').*1)) ≫= ?f) with (f (Some b.1)). cbv beta iota.
  assert (chronological (b :: B') = true) as HcB.
  { destruct Hsp as [-> _ _ _]. rewrite app_assoc in Hc.
    by apply chronological_app_r in Hc. }
  destruct (head_block b B' HcB) as (F1 & B1 & Heq1 & HF1 & Hk1 & HB1).
  assert (split_at s b.1 (A ++ F) F1 B1) as Hsp1.
  { destruct Hsp as [-> HA HFt HB]. pose proof HB as [Hb _]%Forall_cons.
    split; auto.
    - by rewrite <-Heq1, <-app_assoc.
    - apply Forall_app. split; eapply Forall_impl; eauto; simpl; lia. }
  rewrite Heq1, (remove_dups_block _ _ _ HF1 Hk1 HB1).
  do 4 (apply returns_with_call; intros _ ?). cbv zeta.
  eapply returns_with_lift; [by apply getElement_value_total|].
  do 2 (apply returns_with_call; intros _ ?).
  eapply returns_with_bind.
  { apply AddPseudorangeMeasurements_records_nothing; auto. }
  intros st1 w1' t1 Ht1. cbv beta.
  eapply returns_with_bind; [apply TuneErrorModel_records_nothing|].
  intros st2 w2' t2 Ht2. cbv beta.
  apply returns_with_call; intros _ ?.
  apply returns_with_call; intros Element ?.
  apply returns_with_call; intros _ wlast.
  destruct (IH (A ++ F) F1 B1 b.1 b.1
              (StateDataSet_addElement Result POSITION_STATE Element) st2 wlast Hsp1 HF1)
    as (r & w' & trace & Hrun & Hsome & Hrec).
  { apply (f_equal length) in Heq1. rewrite length_app in Heq1.
    destruct F1; [done|]. simpl in *. lia. }
  exists r, w', trace. split; [exact Hrun|]. cbv beta in *. split; [done|].
  rewrite !(omap_cons_None recorded_at) by done.
  rewrite !omap_app, Ht1, Ht2.
  rewrite !(omap_cons_None recorded_at (solve _ _)) by done.
  rewrite (omap_cons_Some recorded_at _ b.1) by done.
  rewrite (omap_cons_None recorded_at) by done.
  by rewrite Hrec.
Qed.

(** X27: started at a stored pseudorange timestamp, the loop of [main]
    ends by its own test and reads one estimate from the main graph for
    every later pseudorange timestamp, once and in increasing order,
    however many pseudoranges a timestamp carries. *)
Theorem main_loop_records_every_timestamp fuel InputData Config Options
    NoiseOdom4DOF NoiseCCED Timestamp TimestampOld Result st w :
  wf InputData →
  (∀ ID, Z.of_nat (length (stream InputData ID)) < 2 ^ 31) →
  supported Config →
  (Type_ (GNSS_ErrorModel Config) = ErrorModelType.cDCE →
   ∀ t, Forall (λ Pseudorange, getStdDev Pseudorange ≠ [])
          (elements_at InputData SensorType.Pseudorange3 t)) →
  elements_at InputData SensorType.Pseudorange3 Timestamp ≠ [] →
  (length (stream InputData SensorType.Pseudorange3) < fuel)%nat →
  ∃ Result' w' trace,
    run h (main_loop fuel InputData Config Options NoiseOdom4DOF NoiseCCED
             Timestamp TimestampOld Result st) w
    = Returned (Some Result') w' trace
    ∧ omap recorded_at trace
      = filter (λ k, Timestamp < k) (timestamps InputData SensorType.Pseudorange3).
Proof.
  intros Hwf Hlen Hsup Hsd Hstored Hfuel.
  destruct (_DataStreams InputData !! SensorType.Pseudorange3) as [s|] eqn:Hs;
    [|by unfold elements_at in Hstored; rewrite Hs in Hstored].
  rewrite (stream_lookup _ _ _ Hs) in Hfuel.
  destruct (wf_lookup _ _ _ Hwf Hs) as [Hc _].
  destruct (chronological_split s Timestamp Hc) as (A & F & B & Hsp).
  assert (F ≠ []) as HF.
  { intros ->. by rewrite (elements_at_split _ _ _ _ _ _ _ Hs Hsp) in Hstored. }
  destruct (main_loop_records fuel InputData Config Options NoiseOdom4DOF NoiseCCED
              s A F B Timestamp TimestampOld Result st w Hwf Hlen Hsup Hsd Hs Hsp HF)
    as (r & w' & trace & Hrun & [Result' ->] & Hrec).
  { destruct Hsp as [-> _ _ _]. rewrite !length_app in Hfuel. lia. }
  exists Result', w', trace. split; [done|].
  by rewrite (timestamps_after _ _ _ _ _ _ _ Hs Hsp).
Qed.


Lemma omap_recorded_Gaussian G t (Pseudoranges : list SensorData) :
  omap recorded_at (Gaussian_pseudorange G t <$> Pseudoranges) = [].
Proof.
  induction Pseudoranges as [|P Ps IH]; [done|].
  rewrite fmap_cons, omap_cons_None; done.
Qed.

Lemma main_init_records InputData Config Options TimestampFirst Result st w :
  wf InputData →
  Z.of_nat (length (elements_at InputData SensorType.Pseudorange3 TimestampFirst))
    < 2 ^ 31 →
  supported Config →
  (Type_ (GNSS_ErrorModel Config) = ErrorModelType.cDCE →
   Forall (λ Pseudorange, getStdDev Pseudorange ≠ [])
     (elements_at InputData SensorType.Pseudorange3 TimestampFirst)) →
  returns_with (main_init InputData Config Options TimestampFirst Result st) w
    (λ _ trace, omap recorded_at trace = [TimestampFirst]).
Proof.
  intros Hwf Hlen Hsup Hsd.
  destruct (returns_main_init h InputData Config Options TimestampFirst Result st w
              Hwf Hlen Hsup Hsd) as ([Result' st'] & w' & trace & Hrun).
  exists (Result', st'), w', trace. split; [done|].
  apply main_init_trace in Hrun
    as (Ps & Position & ClockError & Factors & Tuning & Element
        & _ & -> & Hfac & Htun & _); [|done].
  assert (omap recorded_at Factors = []) as HFactors.
  { eapply omap_recorded_factors; [|exact Hfac].
    intros x e (Noise & Loss & -> & _). eauto 10. }
  rewrite !omap_app, omap_recorded_Gaussian, (omap_recorded_tuning Tuning Htun).
  by rewrite HFactors.
Qed.





Lemma main_init_writes_nothing InputData Config Options TimestampFirst Result st w
    r w' trace :
  supported Config →
  run h (main_init InputData Config Options TimestampFirst Result st) w
  = Returned r w' trace →
  Forall (λ e, ¬ reports_or_writes e) trace.
Proof.
  intros Hsup Hrun. destruct r as [Result' st'].
  apply main_init_trace in Hrun
    as (Ps & Position & ClockError & Factors & Tuning & Element
        & _ & -> & Hfac & Htun & _); [|done].
  repeat first [apply Forall_app; split | apply Forall_cons; split; [by intros []|]
               | apply Forall_nil_2].
  - apply Forall_fmap, Forall_forall. by intros P _ [].
  - clear -Hfac. induction Hfac as [|P e Ps Factors (Noise & Loss & -> & _) _ IH];
      constructor; [by intros []|done].
  - eapply Forall_impl; [exact Htun|]. intros e He Hw. by destruct e.
Qed.



Lemma getTimeFirst_head {KeyType} `{Countable KeyType} {ObjectType}
    (ds : DataSet KeyType ObjectType) ID :
  wf ds → getTimeFirst ds ID = Ok (head (timestamps ds ID)).
Proof.
  intros Hwf. unfold getTimeFirst, timestamps, stream.
  destruct (_DataStreams ds !! ID) as [s|] eqn:Hs; [|done].
  destruct (wf_lookup _ _ _ Hwf Hs) as [Hc Hne].
  destruct s as [|e0 R]; [done|]. simpl default.
  change (first (e0 :: R) 0) with (Ok (A:=Z) e0.1). rewrite bind_Ok.
  destruct (head_block e0 R Hc) as (F & B & Heq & HF & Hk & HB).
  by rewrite Heq, (remove_dups_block _ _ _ HF Hk HB).
Qed.

Lemma getTimeLast_Ok {KeyType} `{Countable KeyType} {ObjectType}
    (ds : DataSet KeyType ObjectType) ID :
  wf ds → ∃ r, getTimeLast ds ID = Ok r.
Proof.
  intros Hwf. destruct (_DataStreams ds !! ID) as [s|] eqn:Hs.
  - destruct (wf_lookup _ _ _ Hwf Hs) as [Hc Hne].
    destruct (getTimeLast_stream ds ID s Hs Hc Hne) as (l & -> & _). eauto.
  - unfold getTimeLast. rewrite Hs. eauto.
Qed.

(** X29: when the odometry record read at the first pseudorange timestamp
    (the [NullObject] of the input when none is stored there; timestamp 0
    when there is no pseudorange) has fewer than three standard
    deviations, the run is undefined: [head(3)] is taken of a shorter
    vector.  That happens when the initialisation has returned and before
    the loop: behind the reading of the input the events of the run are
    those of the initialisation, with its one read of an estimate, and
    among all of them no report is printed and nothing is written.  The
    error model is one that [ParseErrorModel] sets, the input is valid, and
    each pseudorange has a standard deviation where cDCE reads one. *)
Theorem main_estimation_short_odometry_is_undefined Config w :
  let threads := (h hardware_concurrency w).1 in
  let w1 := (h hardware_concurrency w).2 in
  let InputData := (h (ReadDataFromFile (InputFile Config)) w1).1 in
  let w2 := (h (ReadDataFromFile (InputFile Config)) w1).2 in
  let SolverOptions :=
    {| minimizer_progress_to_stdout := false;
       use_nonmonotonic_steps := true;
       trust_region_strategy_DOGLEG := true;
       dogleg_type_SUBSPACE_DOGLEG := true;
       num_threads := threads;
       max_num_iterations := 100 |} in
  let TimestampFirst :=
    default 0 (head (timestamps InputData SensorType.Pseudorange3)) in
  let Odom :=
    default (NullObject InputData)
      (head (elements_at InputData SensorType.Odom3 TimestampFirst)) in
  wf InputData →
  (∀ ID, Z.of_nat (length (stream InputData ID)) < 2 ^ 31) →
  supported Config →
  (Type_ (GNSS_ErrorModel Config) = ErrorModelType.cDCE →
   ∀ t, Forall (λ Pseudorange, getStdDev Pseudorange ≠ [])
          (elements_at InputData SensorType.Pseudorange3 t)) →
  (length (getStdDev Odom) < 3)%nat →
  ∃ Result1 st1 w3 trace,
    run h (main_init InputData Config SolverOptions TimestampFirst
             (DataSet_default StateData_default) Statics_initial) w2
    = Returned (Result1, st1) w3 trace
    ∧ run h (main_estimation Config) w
      = Undefined_behaviour
          ([hardware_concurrency; ReadDataFromFile (InputFile Config)] ++ trace)
    ∧ omap recorded_at trace = [TimestampFirst]
    ∧ Forall (λ e, ¬ reports_or_writes e)
        ([hardware_concurrency; ReadDataFromFile (InputFile Config)] ++ trace).
Proof.
  cbv zeta. unfold main_estimation.
  rewrite (run_call_bind h hardware_concurrency).
  destruct (h hardware_concurrency w) as [threads w1]. simpl fst. simpl snd. cbv zeta.
  rewrite (run_call_bind h (ReadDataFromFile (InputFile Config))).
  destruct (h (ReadDataFromFile (InputFile Config)) w1) as [InputData w2].
  simpl fst. simpl snd.
  intros Hwf Hlen Hsup Hsd Hodom.
  assert (∀ ID t, Z.of_nat (length (elements_at InputData ID t)) < 2 ^ 31) as Hlen'.
  { intros ID t. specialize (Hlen ID). rewrite elements_at_stream, length_fmap.
    pose proof (length_filter (λ e, e.1 = t) (stream InputData ID)). lia. }
  rewrite (getTimeFirst_head InputData SensorType.Pseudorange3 Hwf).
  change (lift (Ok ?o) ≫= ?f) with (f o). cbv beta.
  destruct (getTimeLast_Ok InputData SensorType.Pseudorange3 Hwf) as (rl & ->).
  change (lift (Ok ?o) ≫= ?f) with (f o). cbv beta.
  set (t0 := default 0 (head (timestamps InputData SensorType.Pseudorange3))) in *.
  destruct (main_init_records InputData Config
              {| minimizer_progress_to_stdout := false;
                 use_nonmonotonic_steps := true;
                 trust_region_strategy_DOGLEG := true;
                 dogleg_type_SUBSPACE_DOGLEG := true;
                 num_threads := threads;
                 max_num_iterations := 100 |}
              t0 (DataSet_default StateData_default) Statics_initial w2
              Hwf (Hlen' _ _) Hsup) as ([Result1 st1] & w3 & tinit & Hinit & Hrec1).
  { intros Hty. by apply Hsd. }
  rewrite run_bind, Hinit. cbv beta iota.
  rewrite (getElement_value_total InputData SensorType.Odom3 t0 Hwf (Hlen' _ _)).
  change (lift (Ok ?o) ≫= ?f) with (f o). cbv beta.
  rewrite bool_decide_eq_true_2 by lia.
  exists Result1, st1, w3, tinit. split; [done|]. split; [|split; [done|]].
  - simpl. by rewrite app_nil_r.
  - apply Forall_cons. split; [by intros []|].
    apply Forall_cons. split; [by intros []|].
    by eapply main_init_writes_nothing.
Qed.

(** X30: whatever the library answers, a run of the estimation that
    returns has returned 0.  The unrolling of the loop over the pseudorange
    timestamps is never used up: [getTimeNext] moves to a later stored
    timestamp in every pass, so the loop is left by its own test within
    one pass per stored pseudorange. *)
Theorem main_estimation_exit_code Config w :
  match run h (main_estimation Config) w with
  | Returned code _ _ => code = Some 0
  | Raised _ | Undefined_behaviour _ => True
  end.
Proof.
  destruct (run h (main_estimation Config) w) as [code w' trace| |] eqn:Hrun;
    [|done..].
  pose proof (main_estimation_returns Config) as Hall.
  exact (all_returns_run _ _ h w _ _ _ Hall Hrun).
Qed.

End DriverFacts.

(** * The properties at the sample inputs *)

Section Samples.
#[local] Existing Instance sample_library.

(** C1, counterexample: nothing is stored in an empty data set, and the
    reference accessor yields an object all the same, its [NullObject],
    which can be read and written. *)
Lemma getElement_yields_NullObject :
  let ds : DataSet string string := DataSet_default "null" in
  elements_at ds "position" 0 = []
  ∧ getElement ds "position" 0 0 = Ok Null
  ∧ deref ds Null = Some "null"
  ∧ deref (assign ds Null (λ _, "written")) Null = Some "written".
Proof. vm_compute. by repeat split. Qed.

Lemma getElement_absent_witness :
  0 ≤ 2
  ∧ elements_at satellites_1233 SensorType.Pseudorange3 3 !! Z.to_nat 2 = None
  ∧ getElement satellites_1233 SensorType.Pseudorange3 3 2 = Ok Null
  ∧ getElement_copy satellites_1233 SensorType.Pseudorange3 3 2 "untouched"
    = Ok (false, "untouched").
Proof.
  assert (0 ≤ 2) as H0 by lia.
  assert (elements_at satellites_1233 SensorType.Pseudorange3 3 !! Z.to_nat 2 = None)
    as Habsent by (vm_compute; reflexivity).
  destruct (getElement_absent satellites_1233 SensorType.Pseudorange3 3 2 H0 Habsent)
    as (Hcopy & Hget & _).
  split; [exact H0|]. split; [exact Habsent|]. split; [exact Hget|]. apply Hcopy.
Defined.

(** A negative [Number] passes [checkElement]: at a timestamp that holds
    nothing the accessor then returns the last entry of the stream. *)
Example getElement_negative_Number :
  elements_at satellites_1233 SensorType.Pseudorange3 5 = []
  ∧ getElement_value satellites_1233 SensorType.Pseudorange3 5 (-1) = Ok "d".
Proof. vm_compute. by split. Qed.

(** C3, at the failing input: with two elements at timestamp 3,
    [getTimePrev] steps over timestamp 2, and the successor of its result
    is not 3. *)
Lemma getTimePrev_skips_a_timestamp :
  _DataStreams satellites_1233 !! SensorType.Pseudorange3
  = Some [(1, "a"); (2, "b"); (3, "c"); (3, "d")]
  ∧ getTimePrev satellites_1233 SensorType.Pseudorange3 3 = Ok (Some 1)
  ∧ getTimeNext satellites_1233 SensorType.Pseudorange3 1 = Ok (Some 2).
Proof. vm_compute. by repeat split. Qed.

Lemma getTimeNext_getTimePrev_single_witness :
  wf satellites_113
  ∧ countElement satellites_113 SensorType.Pseudorange3 3 = 1
  ∧ getTimePrev satellites_113 SensorType.Pseudorange3 3 = Ok (Some 1)
  ∧ getTimeNext satellites_113 SensorType.Pseudorange3 1 = Ok (Some 3).
Proof.
  assert (wf satellites_113) as Hwf by (apply add_all_wf, wf_default).
  assert (countElement satellites_113 SensorType.Pseudorange3 3 = 1) as Hc
    by (vm_compute; reflexivity).
  assert (getTimePrev satellites_113 SensorType.Pseudorange3 3 = Ok (Some 1)) as Hp
    by (vm_compute; reflexivity).
  destruct (getTimeNext satellites_113 SensorType.Pseudorange3 1) as [[n|]| |] eqn:Hn;
    try (vm_compute in Hn; discriminate).
  rewrite (getTimeNext_getTimePrev_single satellites_113 SensorType.Pseudorange3
             3 1 n Hwf Hc Hp Hn).
  auto.
Defined.

Lemma addElement_getElement_witness :
  wf (DataSet_default (KeyType := SensorType.t) "null")
  ∧ ∃ r, getElement satellites_1233 SensorType.Pseudorange3 3 (Z.of_nat 1) = Ok r
         ∧ deref satellites_1233 r = Some "d".
Proof.
  assert (wf (DataSet_default (KeyType := SensorType.t) "null")) as Hwf
    by (apply wf_default).
  split; [exact Hwf|].
  refine (proj1 (addElement_getElement_in_insertion_order
                   (DataSet_default "null")
                   [(SensorType.Pseudorange3, 1, "a"); (SensorType.Pseudorange3, 2, "b");
                    (SensorType.Pseudorange3, 3, "c"); (SensorType.Pseudorange3, 3, "d")]
                   SensorType.Pseudorange3 3 Hwf _) 1%nat "d" _).
  - vm_compute. reflexivity.
  - vm_compute. reflexivity.
Defined.

(** C5, at the failing input: 2 lies between the adjacent timestamps 1
    and 3, at equal distance, the newer one carries two elements, and
    [getTimeCloseTo] returns [false]. *)
Lemma getTimeCloseTo_tie_fails :
  _DataStreams satellites_133 !! SensorType.Pseudorange3
  = Some [(1, "a"); (3, "c"); (3, "d")]
  ∧ 3 - 2 = 2 - 1
  ∧ getTimePrev satellites_133 SensorType.Pseudorange3 3 = Ok None
  ∧ getTimeCloseTo satellites_133 SensorType.Pseudorange3 2 = Ok None.
Proof. vm_compute. by repeat split. Qed.

Lemma getTimeCloseTo_tie_single_witness :
  wf satellites_113
  ∧ countElement satellites_113 SensorType.Pseudorange3 3 = 1
  ∧ getTimeCloseTo satellites_113 SensorType.Pseudorange3 2 = Ok (Some 3).
Proof.
  assert (wf satellites_113) as Hwf by (apply add_all_wf, wf_default).
  assert (countElement satellites_113 SensorType.Pseudorange3 3 = 1) as Hc
    by (vm_compute; reflexivity).
  split; [exact Hwf|]. split; [exact Hc|].
  apply (getTimeCloseTo_tie_single satellites_113 SensorType.Pseudorange3
           [(1, "a"); (1, "b"); (3, "c")] 2 1 3 Hwf).
  - vm_compute. reflexivity.
  - apply list_elem_of_In. simpl. auto.
  - apply list_elem_of_In. simpl. auto.
  - intros k Hk. apply list_elem_of_In in Hk. simpl in Hk. lia.
  - lia.
  - lia.
  - exact Hc.
Defined.

Lemma getTimeCloseTo_reads_past_the_end_witness :
  _DataStreams satellites_1233 !! SensorType.Pseudorange3
  = Some [(1, "a"); (2, "b"); (3, "c"); (3, "d")]
  ∧ key_at [(1, "a"); (2, "b"); (3, "c"); (3, "d")]
      (lower_bound [(1, "a"); (2, "b"); (3, "c"); (3, "d")] 4) = None
  ∧ getTimeCloseTo satellites_1233 SensorType.Pseudorange3 4 = Undefined.
Proof.
  assert (_DataStreams satellites_1233 !! SensorType.Pseudorange3
          = Some [(1, "a"); (2, "b"); (3, "c"); (3, "d")]) as Hs
    by (vm_compute; reflexivity).
  split; [exact Hs|].
  refine (proj2 (getTimeCloseTo_reads_past_the_end satellites_1233
                   SensorType.Pseudorange3 _ 4 Hs _ _)).
  - discriminate.
  - repeat constructor.
Defined.

Lemma TuneErrorModel_None_witness :
  TuningType (GNSS_ErrorModel (sample_Config "gauss")) = ErrorModelTuningType.None
  ∧ run sample_handler (TuneErrorModel Graph (sample_Config "gauss") Statics_initial) tt
    = Returned Statics_initial tt [].
Proof.
  assert (TuningType (GNSS_ErrorModel (sample_Config "gauss"))
          = ErrorModelTuningType.None) as Hnone by reflexivity.
  split; [exact Hnone|].
  apply (TuneErrorModel_None_changes_nothing Graph (sample_Config "gauss")
           Statics_initial (or_introl Hnone)).
Defined.

(** C2, counterexample: the residuals 2 and 6 have mean 4 and standard
    deviation 2; the mixture holds one component when the new one is
    appended; the new component has standard deviation 2, mean 0 (not 4)
    and weight 1 (not 1/2). *)
Lemma VBI_component_mean_and_weight :
  ∃ st' rest GMMConfig,
    run sample_handler
      (TuneErrorModel Graph (sample_Config "stsm_vbi") Statics_initial) tt
    = Returned st' tt
        (computeUnweightedError Graph FactorType.Pseudorange3_ECEF
         :: estimate
              [setParamsStdDev 10 0 1;
               {| StdDev := 2; Mean := 0; Weight := 1 |}]%float
              [2; 6]%float GMMConfig
         :: rest)
    ∧ residual_mean [2; 6]%float = 4%float
    ∧ residual_stdev [2; 6]%float = 2%float
    ∧ (1 / double_of_int (1 + 1))%float = 0.5%float
    ∧ PrimFloat.eqb 0 (residual_mean [2; 6]%float) = false
    ∧ PrimFloat.eqb 1 (1 / double_of_int (1 + 1)) = false.
Proof. eexists _, _, _. vm_compute. by repeat split. Qed.

Lemma TuneErrorModel_VBI_witness :
  TuningType (GNSS_ErrorModel (sample_Config "stsm_vbi")) = ErrorModelTuningType.VBI
  ∧ ∃ GMMConfig st' w' rest,
      run sample_handler
        (TuneErrorModel Graph (sample_Config "stsm_vbi") Statics_initial) tt
      = Returned st' w'
          (computeUnweightedError Graph FactorType.Pseudorange3_ECEF
           :: estimate
                ([setParamsStdDev 10 0 1]%float
                 ++ [{| StdDev := 2; Mean := 0; Weight := 1 |}]%float)
                [2; 6]%float GMMConfig
           :: rest).
Proof.
  assert (TuningType (GNSS_ErrorModel (sample_Config "stsm_vbi"))
          = ErrorModelTuningType.VBI) as Hvbi by reflexivity.
  split; [exact Hvbi|].
  destruct (TuneErrorModel_VBI_appends_one_component Graph
              (sample_Config "stsm_vbi") Statics_initial sample_handler tt Hvbi)
    as (GMMConfig & st' & w' & rest & Hrun & _).
  exists GMMConfig, st', w', rest. exact Hrun.
Defined.

(** C6, counterexample: the mixture holds exactly [VBI_N_MAX] = 3
    components, the cap is not exceeded, and the component of lowest
    weight is removed before the new one is appended. *)
Lemma GMMAdaptive_capped_at_N_max :
  getNumberOfComponents sample_GMMAdaptive = VBI_N_MAX
  ∧ GMMAdaptive_grown sample_GMMAdaptive [2; 6]%float
    = [setParamsStdDev 1 0 0.5; setParamsStdDev 9 0 0.375;
       setParamsStdDev 2 0 0.5]%float.
Proof. vm_compute. by split. Qed.

Lemma GMMAdaptive_capped_witness :
  1 ≤ VBI_N_MAX
  ∧ VBI_N_MAX ≤ getNumberOfComponents sample_GMMAdaptive
  ∧ (∃ kept removed,
       sortComponentsByWeight sample_GMMAdaptive = kept ++ [removed]
       ∧ removed = setParamsStdDev 5 0 0.25
       ∧ kept = [setParamsStdDev 1 0 0.5; setParamsStdDev 9 0 0.375]
       ∧ (∀ d, d ∈ kept → PrimFloat.ltb (Weight d) (Weight removed) = false)
       ∧ GMMAdaptive_grown sample_GMMAdaptive [2; 6]
         = kept ++ [setParamsStdDev 2 0 0.5])%float
  ∧ ∃ st' w' trace,
      run sample_handler
        (TuneErrorModel Graph (sample_Config "stsm_vbi")
           {| GMM := []; NoisePseudorangeMaxMix := None;
              NoisePseudorangeSumMix := None;
              GMMAdaptive := sample_GMMAdaptive |}) tt
      = Returned st' w' trace
      ∧ getNumberOfComponents (GMMAdaptive st') ≤ VBI_N_MAX.
Proof.
  assert (1 ≤ VBI_N_MAX) as Hmax by (vm_compute; discriminate).
  assert (VBI_N_MAX ≤ getNumberOfComponents sample_GMMAdaptive) as Hcap
    by (vm_compute; discriminate).
  assert (∀ gmm ErrorData GMMConfig w,
            (length (sample_handler (estimate gmm ErrorData GMMConfig) w).1
             ≤ length gmm)%nat) as Hest
    by (intros gmm ErrorData GMMConfig w; simpl; lia).
  destruct (GMMAdaptive_capped sample_handler Hmax Hest) as (Hgrown & _ & Hstep).
  split; [exact Hmax|]. split; [exact Hcap|]. split.
  - destruct (proj1 (Hgrown sample_GMMAdaptive [2; 6]%float) Hcap)
      as (kept & removed & _ & Hsort & _ & Hlight & Heq).
    assert (sortComponentsByWeight sample_GMMAdaptive
            = [setParamsStdDev 1 0 0.5; setParamsStdDev 9 0 0.375]%float
              ++ [setParamsStdDev 5 0 0.25%float]) as Hsorted
      by (vm_compute; reflexivity).
    change (sortComponentsByWeight _)
      with (sortComponentsByWeight sample_GMMAdaptive) in Hsort.
    rewrite Hsorted in Hsort. apply app_inj_tail in Hsort as [<- <-].
    eexists _, _. split; [exact Hsorted|]. split; [reflexivity|].
    split; [reflexivity|]. split; [exact Hlight|].
    rewrite Heq. vm_compute. reflexivity.
  - apply Hstep. vm_compute. discriminate.
Defined.

Lemma main_exit_code_witness :
  drop 1 ["IV19_GNSS"; "in.txt"; "out.txt"; "reserved"; "Gauss"] !! 3%nat
  = Some "Gauss"
  ∧ ("Gauss" ∉ ERROR_MODEL_table.*1)
  ∧ ∃ w' trace,
      run sample_handler
        (main ["IV19_GNSS"; "in.txt"; "out.txt"; "reserved"; "Gauss"]) tt
      = Returned (Some 1) w' trace.
Proof.
  assert (drop 1 ["IV19_GNSS"; "in.txt"; "out.txt"; "reserved"; "Gauss"] !! 3%nat
          = Some "Gauss") as H3 by reflexivity.
  assert ("Gauss" ∉ ERROR_MODEL_table.*1) as Hnot.
  { intros Hin. apply list_elem_of_In in Hin. simpl in Hin.
    repeat destruct Hin as [Hin|Hin]; try discriminate Hin. exact Hin. }
  split; [exact H3|]. split; [exact Hnot|].
  exact (proj2 (proj1 (main_exit_code _ "Gauss" sample_handler tt H3)) Hnot).
Defined.

(** C8, counterexample: in the run of the initialisation the Angle and
    ClockDrift states of the main graph (events 7 and 8) are added before
    the means are copied into it (events 10 and 12). *)
Lemma InitGraph_adds_states_before_copying :
  ∃ r trace,
    run sample_handler
      (main_init sample_input (sample_Config "gauss") sample_Options 10
         (DataSet_default StateData_default) Statics_initial) tt
    = Returned r tt trace
    ∧ trace !! 7%nat = Some (addState Graph "Orientation" StateType.Angle 10)
    ∧ trace !! 8%nat = Some (addState Graph "ClockDrift" StateType.ClockDrift 10)
    ∧ trace !! 10%nat = Some (setMean Graph "Position" 10 [0; 0; 0]%float)
    ∧ trace !! 12%nat = Some (setMean Graph "ClockError" 10 [0; 0; 0]%float).
Proof. eexists _, _. vm_compute. by repeat split. Qed.

Lemma main_init_sequence_witness :
  ParseErrorModel "stsm_vbi" FactorGraphConfig_default
  = Some (sample_Config "stsm_vbi")
  ∧ wf sample_input
  ∧ ∃ st' w' trace,
      run sample_handler
        (main_init sample_input (sample_Config "stsm_vbi") sample_Options 10
           (DataSet_default StateData_default) Statics_initial) tt
      = Returned
          (StateDataSet_addElement (DataSet_default StateData_default) "Position"
             (10, []), st') w' trace
      ∧ trace !! 10%nat = Some (setMean Graph "Position" 10 [0; 0; 0]%float)
      ∧ trace !! 12%nat = Some (setMean Graph "ClockError" 10 [0; 0; 0]%float)
      ∧ length trace = 21%nat.
Proof.
  assert (ParseErrorModel "stsm_vbi" FactorGraphConfig_default
          = Some (sample_Config "stsm_vbi")) as Hparse by reflexivity.
  assert (wf sample_input) as Hwf by (apply add_all_wf, wf_default).
  split; [exact Hparse|]. split; [exact Hwf|].
  destruct (main_init_sequence sample_handler "stsm_vbi" FactorGraphConfig_default
              sample_input (sample_Config "stsm_vbi") sample_Options 10
              (DataSet_default StateData_default) Statics_initial tt Hparse Hwf)
    as (Result' & st' & w' & trace & Pseudoranges & Factors & Tuning & st1
        & Hrun & _ & Hshape).
  - vm_compute. reflexivity.
  - intros Hty. vm_compute in Hty. discriminate Hty.
  - cbv zeta in Hshape. destruct Hshape as (_ & _ & _ & _ & _ & HResult).
    rewrite HResult in Hrun. clear HResult.
    exists st', w', trace. split; [exact Hrun|].
    vm_compute in Hrun. injection Hrun as _ _ <-. by repeat split.
Defined.

End Samples.

Section MoreSamples.
#[local] Existing Instance sample_library.

Local Ltac sample_wf := apply add_all_wf, wf_default.

Lemma getTimeAboveOrEqual_least_witness :
  wf satellites_113
  ∧ getTimeAboveOrEqual satellites_113 SensorType.Pseudorange3 2 = Ok (Some 3)
  ∧ ∀ k, k ∈ timestamps satellites_113 SensorType.Pseudorange3 → 2 ≤ k → 3 ≤ k.
Proof.
  assert (wf satellites_113) as Hwf by sample_wf.
  destruct (getTimeAboveOrEqual_least satellites_113 SensorType.Pseudorange3 2 Hwf)
    as (r & Hr & Hspec).
  assert (getTimeAboveOrEqual satellites_113 SensorType.Pseudorange3 2 = Ok (Some 3))
    as Hrun by (vm_compute; reflexivity).
  rewrite Hrun in Hr. injection Hr as <-.
  split; [exact Hwf|]. split; [exact Hrun|]. apply Hspec.
Defined.

Lemma getTimeAbove_least_witness :
  wf satellites_113
  ∧ getTimeAbove satellites_113 SensorType.Pseudorange3 1 = Ok (Some 3)
  ∧ ∀ k, k ∈ timestamps satellites_113 SensorType.Pseudorange3 → 1 < k → 3 ≤ k.
Proof.
  assert (wf satellites_113) as Hwf by sample_wf.
  destruct (getTimeAbove_least satellites_113 SensorType.Pseudorange3 1 Hwf)
    as (r & Hr & Hspec).
  assert (getTimeAbove satellites_113 SensorType.Pseudorange3 1 = Ok (Some 3))
    as Hrun by (vm_compute; reflexivity).
  rewrite Hrun in Hr. injection Hr as <-.
  split; [exact Hwf|]. split; [exact Hrun|]. apply Hspec.
Defined.

Lemma getTimeBelow_greatest_witness :
  wf satellites_113
  ∧ getTimeBelow satellites_113 SensorType.Pseudorange3 3 = Ok (Some 1)
  ∧ ∀ k, k ∈ timestamps satellites_113 SensorType.Pseudorange3 → k < 3 → k ≤ 1.
Proof.
  assert (wf satellites_113) as Hwf by sample_wf.
  destruct (getTimeBelow_greatest satellites_113 SensorType.Pseudorange3 3 Hwf)
    as (r & Hr & Hspec).
  assert (getTimeBelow satellites_113 SensorType.Pseudorange3 3 = Ok (Some 1))
    as Hrun by (vm_compute; reflexivity).
  rewrite Hrun in Hr. injection Hr as <-.
  split; [exact Hwf|]. split; [exact Hrun|]. apply Hspec.
Defined.

Lemma getTimeBelowOrEqual_greatest_witness :
  wf satellites_113
  ∧ getTimeBelowOrEqual satellites_113 SensorType.Pseudorange3 2 = Ok (Some 1)
  ∧ ∀ k, k ∈ timestamps satellites_113 SensorType.Pseudorange3 → k ≤ 2 → k ≤ 1.
Proof.
  assert (wf satellites_113) as Hwf by sample_wf.
  destruct (getTimeBelowOrEqual_greatest satellites_113 SensorType.Pseudorange3 2 Hwf)
    as (r & Hr & Hspec).
  assert (getTimeBelowOrEqual satellites_113 SensorType.Pseudorange3 2 = Ok (Some 1))
    as Hrun by (vm_compute; reflexivity).
  rewrite Hrun in Hr. injection Hr as <-.
  split; [exact Hwf|]. split; [exact Hrun|]. apply Hspec.
Defined.

Lemma getTimeFirst_getTimeLast_bounds_witness :
  wf satellites_1233
  ∧ getTimeFirst satellites_1233 SensorType.Pseudorange3 = Ok (Some 1)
  ∧ getTimeLast satellites_1233 SensorType.Pseudorange3 = Ok (Some 3)
  ∧ ∀ k, k ∈ timestamps satellites_1233 SensorType.Pseudorange3 → 1 ≤ k ≤ 3.
Proof.
  assert (wf satellites_1233) as Hwf by sample_wf.
  assert (getTimeFirst satellites_1233 SensorType.Pseudorange3 = Ok (Some 1))
    as Hf by (vm_compute; reflexivity).
  assert (getTimeLast satellites_1233 SensorType.Pseudorange3 = Ok (Some 3))
    as Hl by (vm_compute; reflexivity).
  split; [exact Hwf|]. split; [exact Hf|]. split; [exact Hl|].
  destruct (getTimeFirst_getTimeLast_bounds satellites_1233 SensorType.Pseudorange3 Hwf)
    as [(_ & Hf' & _)|(f & l & _ & Hf' & Hl' & _ & _ & Hall)].
  - rewrite Hf in Hf'. discriminate.
  - rewrite Hf in Hf'. rewrite Hl in Hl'.
    injection Hf' as <-. injection Hl' as <-. exact Hall.
Defined.

Lemma removeElement_addElement_witness :
  wf satellites_1233
  ∧ Z.of_nat (length (elements_at satellites_1233 SensorType.Pseudorange3 3)) + 1 < 2 ^ 31
  ∧ countElement satellites_1233 SensorType.Pseudorange3 3 = 2
  ∧ removeElement (addElement satellites_1233 SensorType.Pseudorange3 3 "e")
      SensorType.Pseudorange3 3 2 = Ok satellites_1233.
Proof.
  assert (wf satellites_1233) as Hwf by sample_wf.
  assert (Z.of_nat (length (elements_at satellites_1233 SensorType.Pseudorange3 3)) + 1
          < 2 ^ 31) as Hlen by (vm_compute; reflexivity).
  assert (countElement satellites_1233 SensorType.Pseudorange3 3 = 2) as Hc
    by (vm_compute; reflexivity).
  split; [exact Hwf|]. split; [exact Hlen|]. split; [exact Hc|].
  rewrite <-Hc.
  exact (removeElement_addElement satellites_1233 SensorType.Pseudorange3 3 "e" Hwf Hlen).
Defined.

Lemma removeElement_all_erases_witness :
  wf satellites_1233
  ∧ Z.of_nat (length (elements_at satellites_1233 SensorType.Pseudorange3 3)) < 2 ^ 31
  ∧ ∃ ds', removeElement_all satellites_1233 SensorType.Pseudorange3 3 = Ok ds'
           ∧ elements_at ds' SensorType.Pseudorange3 3 = []
           ∧ elements_at ds' SensorType.Pseudorange3 2 = ["b"].
Proof.
  assert (wf satellites_1233) as Hwf by sample_wf.
  assert (Z.of_nat (length (elements_at satellites_1233 SensorType.Pseudorange3 3))
          < 2 ^ 31) as Hlen by (vm_compute; reflexivity).
  split; [exact Hwf|]. split; [exact Hlen|].
  destruct (removeElement_all_erases satellites_1233 SensorType.Pseudorange3 3 Hwf Hlen)
    as (ds' & Hrun & _ & _ & _ & Hall).
  exists ds'. split; [exact Hrun|]. split.
  - rewrite Hall. reflexivity.
  - rewrite Hall. vm_compute. reflexivity.
Defined.

Lemma setElement_getElement_witness :
  wf satellites_1233
  ∧ Z.of_nat (length (elements_at satellites_1233 SensorType.Pseudorange3 3)) < 2 ^ 31
  ∧ ∃ ds', setElement satellites_1233 SensorType.Pseudorange3 3 1 "new" = Ok (true, ds')
           ∧ getElement_copy ds' SensorType.Pseudorange3 3 1 "" = Ok (true, "new")
           ∧ elements_at ds' SensorType.Pseudorange3 3 = ["c"; "new"].
Proof.
  assert (wf satellites_1233) as Hwf by sample_wf.
  assert (Z.of_nat (length (elements_at satellites_1233 SensorType.Pseudorange3 3))
          < 2 ^ 31) as Hlen by (vm_compute; reflexivity).
  split; [exact Hwf|]. split; [exact Hlen|].
  destruct (setElement_getElement satellites_1233 SensorType.Pseudorange3 3 1 "new"
              Hwf Hlen) as (found & ds' & Hrun & _ & Hfalse & Htrue).
  destruct found.
  - destruct (Htrue eq_refl) as (_ & Hcopy & _ & Hall).
    exists ds'. split; [exact Hrun|]. split; [apply Hcopy|].
    rewrite Hall. vm_compute. reflexivity.
  - destruct (Hfalse eq_refl) as (_ & Hnone). vm_compute in Hnone. discriminate.
Defined.

Lemma getElement_negative_Number_escapes_witness :
  wf satellites_1233
  ∧ -2 < 0
  ∧ Z.of_nat (length (elements_at satellites_1233 SensorType.Pseudorange3 3)) < 2 ^ 31
  ∧ ∃ e, getElement satellites_1233 SensorType.Pseudorange3 3 (-2) = Ok (Stored SensorType.Pseudorange3 0)
         ∧ stream satellites_1233 SensorType.Pseudorange3 !! 0%nat = Some e
         ∧ e.1 ≠ 3.
Proof.
  assert (wf satellites_1233) as Hwf by sample_wf.
  assert (-2 < 0) as Hneg by lia.
  assert (Z.of_nat (length (elements_at satellites_1233 SensorType.Pseudorange3 3))
          < 2 ^ 31) as Hlen by (vm_compute; reflexivity).
  split; [exact Hwf|]. split; [exact Hneg|]. split; [exact Hlen|].
  destruct (getElement_negative_Number_escapes satellites_1233 SensorType.Pseudorange3
              3 (-2) Hwf Hneg Hlen) as (_ & _ & Hstored).
  apply Hstored; vm_compute; [reflexivity|discriminate].
Defined.

Lemma getTimesOfID_timestamps_witness :
  wf satellites_1233
  ∧ (length (stream satellites_1233 SensorType.Pseudorange3) < 5)%nat
  ∧ getTimesOfID 5 satellites_1233 SensorType.Pseudorange3 [0]
    = Some (Ok (true, [0; 1; 2; 3])).
Proof.
  assert (wf satellites_1233) as Hwf by sample_wf.
  assert (length (stream satellites_1233 SensorType.Pseudorange3) < 5)%nat as Hfuel
    by (vm_compute; lia).
  split; [exact Hwf|]. split; [exact Hfuel|].
  destruct (getTimesOfID_timestamps 5 satellites_1233 SensorType.Pseudorange3 [0]
              Hwf Hfuel) as (Hrun & _ & _).
  rewrite Hrun. vm_compute. reflexivity.
Defined.

Lemma getUniqueIDs_getElement_witness :
  wf satellites_1233
  ∧ Z.of_nat (length (stream satellites_1233 SensorType.Pseudorange3)) < 2 ^ 31
  ∧ (length (stream satellites_1233 SensorType.Pseudorange3) < 5)%nat
  ∧ getUniqueIDs 5 satellites_1233 SensorType.Pseudorange3 []
    = Some (Ok (true,
                [UniqueID.mk SensorType.Pseudorange3 1 0;
                 UniqueID.mk SensorType.Pseudorange3 2 0;
                 UniqueID.mk SensorType.Pseudorange3 3 0;
                 UniqueID.mk SensorType.Pseudorange3 3 1]))
  ∧ Forall2 (designates satellites_1233 SensorType.Pseudorange3)
      [UniqueID.mk SensorType.Pseudorange3 1 0;
       UniqueID.mk SensorType.Pseudorange3 2 0;
       UniqueID.mk SensorType.Pseudorange3 3 0;
       UniqueID.mk SensorType.Pseudorange3 3 1]
      ["a"; "b"; "c"; "d"].
Proof.
  assert (wf satellites_1233) as Hwf by sample_wf.
  assert (Z.of_nat (length (stream satellites_1233 SensorType.Pseudorange3)) < 2 ^ 31)
    as Hlen by (vm_compute; reflexivity).
  assert (length (stream satellites_1233 SensorType.Pseudorange3) < 5)%nat as Hfuel
    by (vm_compute; lia).
  split; [exact Hwf|]. split; [exact Hlen|]. split; [exact Hfuel|].
  destruct (getUniqueIDs_getElement 5 satellites_1233 SensorType.Pseudorange3 []
              Hwf Hlen Hfuel) as (New & Hrun & -> & Hall).
  split; [rewrite Hrun; vm_compute; reflexivity|exact Hall].
Defined.

Lemma getElementsBetween_range_witness :
  wf satellites_1233
  ∧ Z.of_nat (length (stream satellites_1233 SensorType.Pseudorange3)) < 2 ^ 31
  ∧ (length (stream satellites_1233 SensorType.Pseudorange3) < 5)%nat
  ∧ getElementsBetween 5 satellites_1233 SensorType.Pseudorange3 2 5
    = Some (Ok ["b"; "c"; "d"]).
Proof.
  assert (wf satellites_1233) as Hwf by sample_wf.
  assert (Z.of_nat (length (stream satellites_1233 SensorType.Pseudorange3)) < 2 ^ 31)
    as Hlen by (vm_compute; reflexivity).
  assert (length (stream satellites_1233 SensorType.Pseudorange3) < 5)%nat as Hfuel
    by (vm_compute; lia).
  split; [exact Hwf|]. split; [exact Hlen|]. split; [exact Hfuel|].
  rewrite (getElementsBetween_range 5 satellites_1233 SensorType.Pseudorange3 2 5
             Hwf Hlen Hfuel).
  vm_compute. reflexivity.
Defined.

Lemma getTimesBetween_range_witness :
  wf satellites_1233
  ∧ Z.of_nat (length (stream satellites_1233 SensorType.Pseudorange3)) < 2 ^ 31
  ∧ (length (stream satellites_1233 SensorType.Pseudorange3) < 5)%nat
  ∧ getTimesBetween 5 satellites_1233 SensorType.Pseudorange3 2 5 []
    = Some (Ok (true, [2; 3])).
Proof.
  assert (wf satellites_1233) as Hwf by sample_wf.
  assert (Z.of_nat (length (stream satellites_1233 SensorType.Pseudorange3)) < 2 ^ 31)
    as Hlen by (vm_compute; reflexivity).
  assert (length (stream satellites_1233 SensorType.Pseudorange3) < 5)%nat as Hfuel
    by (vm_compute; lia).
  split; [exact Hwf|]. split; [exact Hlen|]. split; [exact Hfuel|].
  destruct (getTimesBetween_range 5 satellites_1233 SensorType.Pseudorange3 2 5 []
              Hwf Hlen Hfuel) as (found & Hrun & Hfound).
  assert (found = true) as ->.
  { assert (timestamps satellites_1233 SensorType.Pseudorange3 = [1; 2; 3]) as Htimes
      by (vm_compute; reflexivity).
    apply Hfound. rewrite Htimes. split; [lia|].
    split; [apply Exists_cons_tl|]; apply Exists_cons_hd; lia. }
  rewrite Hrun. vm_compute. reflexivity.
Defined.

Lemma getTimesBelowOrEqual_range_witness :
  wf satellites_1233
  ∧ Z.of_nat (length (stream satellites_1233 SensorType.Pseudorange3)) < 2 ^ 31
  ∧ (length (stream satellites_1233 SensorType.Pseudorange3) < 5)%nat
  ∧ getTimesBelowOrEqual 5 satellites_1233 SensorType.Pseudorange3 2 []
    = Some (Ok (true, [1; 2])).
Proof.
  assert (wf satellites_1233) as Hwf by sample_wf.
  assert (Z.of_nat (length (stream satellites_1233 SensorType.Pseudorange3)) < 2 ^ 31)
    as Hlen by (vm_compute; reflexivity).
  assert (length (stream satellites_1233 SensorType.Pseudorange3) < 5)%nat as Hfuel
    by (vm_compute; lia).
  split; [exact Hwf|]. split; [exact Hlen|]. split; [exact Hfuel|].
  destruct (getTimesBelowOrEqual_range 5 satellites_1233 SensorType.Pseudorange3 2 []
              Hwf Hlen Hfuel) as (found & Hrun & Hfound).
  assert (found = true) as ->.
  { assert (timestamps satellites_1233 SensorType.Pseudorange3 = [1; 2; 3]) as Htimes
      by (vm_compute; reflexivity).
    apply Hfound. rewrite Htimes. apply Exists_cons_hd. lia. }
  rewrite Hrun. vm_compute. reflexivity.
Defined.

Lemma SensorType_le_Transitive : Transitive SensorType_le.
Proof. intros a b c. unfold SensorType_le. lia. Qed.

Lemma SensorType_le_Total : Total SensorType_le.
Proof. intros a b. unfold SensorType_le. lia. Qed.

Lemma getKeysAtTime_keys_witness :
  (∀ ID, Z.of_nat (length (elements_at sample_input ID 10)) < 2 ^ 31)
  ∧ getKeysAtTime SensorType_le sample_input 10
    = [SensorType.Pseudorange3; SensorType.Odom3]
  ∧ ∀ ID, ID ∈ getKeysAtTime SensorType_le sample_input 10
          ↔ elements_at sample_input ID 10 ≠ [].
Proof.
  assert (∀ ID, Z.of_nat (length (elements_at sample_input ID 10)) < 2 ^ 31) as Hlen
    by (intros []; vm_compute; reflexivity).
  split; [exact Hlen|]. split; [vm_compute; reflexivity|].
  apply (getKeysAtTime_keys SensorType_le sample_input 10
           SensorType_le_Transitive SensorType_le_Total Hlen).
Defined.

Lemma getTimeFirstOverall_least_witness :
  wf sample_input
  ∧ getTimeFirstOverall SensorType_le sample_input 0 = Ok (true, Some 10)
  ∧ ∀ ID k, k ∈ timestamps sample_input ID → 10 ≤ k.
Proof.
  assert (wf sample_input) as Hwf by sample_wf.
  assert (getTimeFirstOverall SensorType_le sample_input 0 = Ok (true, Some 10))
    as Hrun by (vm_compute; reflexivity).
  split; [exact Hwf|]. split; [exact Hrun|].
  destruct (getTimeFirstOverall_least SensorType_le sample_input 0 Hwf)
    as [(_ & _ & Hempty)|(_ & m & Hm & _ & Hleast)].
  - rewrite Hrun in Hempty. discriminate Hempty.
  - rewrite Hrun in Hm. injection Hm as <-. exact Hleast.
Defined.

Lemma DataSet_merge_elements_witness :
  wf satellites_113
  ∧ elements_at (DataSet_merge SensorType_le satellites_113 satellites_1233)
      SensorType.Pseudorange3 3
    = ["c"; "c"; "d"].
Proof.
  assert (wf satellites_113) as Hwf by sample_wf.
  split; [exact Hwf|].
  destruct (DataSet_merge_elements SensorType_le satellites_113 satellites_1233 Hwf)
    as (_ & _ & Helements).
  rewrite Helements. vm_compute. reflexivity.
Defined.

Lemma countTimes_counts_elements_witness :
  wf satellites_1233
  ∧ Z.of_nat (length (stream satellites_1233 SensorType.Pseudorange3)) < 2 ^ 31
  ∧ countTimes satellites_1233 SensorType.Pseudorange3 = 4
  ∧ length (timestamps satellites_1233 SensorType.Pseudorange3) = 3%nat
  ∧ countTimes satellites_1233 SensorType.Pseudorange3
    = countElements satellites_1233 SensorType.Pseudorange3.
Proof.
  assert (wf satellites_1233) as Hwf by sample_wf.
  assert (Z.of_nat (length (stream satellites_1233 SensorType.Pseudorange3)) < 2 ^ 31)
    as Hlen by (vm_compute; reflexivity).
  split; [exact Hwf|]. split; [exact Hlen|].
  split; [vm_compute; reflexivity|]. split; [vm_compute; reflexivity|].
  apply (countTimes_counts_elements satellites_1233 SensorType.Pseudorange3 Hwf Hlen).
Defined.

Lemma getTimePrev_steps_back_witness :
  wf satellites_1233
  ∧ elements_at satellites_1233 SensorType.Pseudorange3 3 = ["c"; "d"]
  ∧ length (filter (λ e, e.1 < 3) (stream satellites_1233 SensorType.Pseudorange3))
    = 2%nat
  ∧ getTimePrev satellites_1233 SensorType.Pseudorange3 3 = Ok (Some 1).
Proof.
  assert (wf satellites_1233) as Hwf by sample_wf.
  assert (elements_at satellites_1233 SensorType.Pseudorange3 3 = ["c"; "d"]) as Hat
    by (vm_compute; reflexivity).
  assert (length (filter (λ e, e.1 < 3) (stream satellites_1233 SensorType.Pseudorange3))
          = 2%nat) as Hbelow by (vm_compute; reflexivity).
  split; [exact Hwf|]. split; [exact Hat|]. split; [exact Hbelow|].
  assert (elements_at satellites_1233 SensorType.Pseudorange3 3 ≠ []) as Hne
    by (rewrite Hat; discriminate).
  assert (Z.of_nat (length (elements_at satellites_1233 SensorType.Pseudorange3 3))
          < 2 ^ 31) as Hlen by (rewrite Hat; vm_compute; reflexivity).
  destruct (getTimePrev_steps_back satellites_1233 SensorType.Pseudorange3 3
              Hwf Hne Hlen) as (_ & _ & Hback).
  rewrite Hback by (rewrite Hat, Hbelow; simpl; lia).
  vm_compute. reflexivity.
Defined.

(** At sample values, ties and overflow among them, [double_sub] rounds
    as the subtraction of binary64 does. *)
Lemma double_sub_as_binary64 :
  Forall (λ p, double_sub (timestamp_of_double p.1) (timestamp_of_double p.2)
               = timestamp_of_double (p.1 - p.2)%float)
    [(0.5, 0.1); (0.9, 0.5); (0.1, 0.9); (3.14, 2.71); (1, 1e-16);
     (1, 1.1102230246251565e-16); (1, 5.551115123125783e-17);
     (9007199254740992, -1); (9007199254740992, -3); (9007199254740994, -1);
     (1e22, 1); (123456789.125, 0.000001); (1e-320, 3e-320);
     (4.9e-324, 2.2250738585072014e-308); (1e300, -1e300);
     (1.7976931348623157e308, -9.9792015476736e291);
     (1.7976931348623157e308, -9.97920154767359e291);
     (1.7976931348623157e308, -1.7976931348623157e308);
     (-1e308, 1e308); (0, 0); (5, 5)]%float.
Proof. repeat constructor; vm_compute; reflexivity. Qed.

Lemma getTimeCloseTo_nearest_witness :
  wf tenths_1_9
  ∧ (∀ k, (length (elements_at tenths_1_9 SensorType.Pseudorange3 k) ≤ 1)%nat)
  ∧ getTimeCloseTo tenths_1_9 SensorType.Pseudorange3 (timestamp_of_double 0.5)
    = Ok (Some (timestamp_of_double 0.9))
  ∧ (∀ k, k ∈ timestamps tenths_1_9 SensorType.Pseudorange3 →
          double_round (Z.abs (timestamp_of_double 0.9 - timestamp_of_double 0.5))
          ≤ double_round (Z.abs (k - timestamp_of_double 0.5)))
  ∧ Z.abs (timestamp_of_double 0.1 - timestamp_of_double 0.5)
    < Z.abs (timestamp_of_double 0.9 - timestamp_of_double 0.5).
Proof.
  assert (wf tenths_1_9) as Hwf by sample_wf.
  assert (timestamp_of_double 0.1 ≠ timestamp_of_double 0.9) as Hne
    by (vm_compute; discriminate).
  assert (∀ k, (length (elements_at tenths_1_9 SensorType.Pseudorange3 k) ≤ 1)%nat)
    as Hone.
  { intros k. rewrite elements_at_stream.
    assert (stream tenths_1_9 SensorType.Pseudorange3
            = [(timestamp_of_double 0.1, "a"); (timestamp_of_double 0.9, "b")]) as ->
      by (vm_compute; reflexivity).
    rewrite !filter_cons, filter_nil.
    destruct (decide ((timestamp_of_double 0.1, "a").1 = k)) as [H1|H1],
      (decide ((timestamp_of_double 0.9, "b").1 = k)) as [H9|H9];
      simpl in *; [congruence|lia..]. }
  assert (timestamps tenths_1_9 SensorType.Pseudorange3
          = [timestamp_of_double 0.1; timestamp_of_double 0.9]) as Htimes
    by (vm_compute; reflexivity).
  assert (Exists (λ k, timestamp_of_double 0.5 ≤ k)
            (timestamps tenths_1_9 SensorType.Pseudorange3)) as Hex.
  { rewrite Htimes. apply Exists_cons_tl, Exists_cons_hd. vm_compute. discriminate. }
  assert (getTimeCloseTo tenths_1_9 SensorType.Pseudorange3 (timestamp_of_double 0.5)
          = Ok (Some (timestamp_of_double 0.9))) as Hrun by (vm_compute; reflexivity).
  split; [exact Hwf|]. split; [exact Hone|]. split; [exact Hrun|].
  destruct (getTimeCloseTo_nearest tenths_1_9 SensorType.Pseudorange3
              (timestamp_of_double 0.5) Hwf Hone Hex) as (c & Hc & _ & Hnear & _).
  rewrite Hrun in Hc. injection Hc as <-.
  split; [exact Hnear|]. vm_compute. reflexivity.
Defined.

Lemma FindBorders_neighbours_witness :
  wf satellites_1233
  ∧ _FindBordersEqual satellites_1233 SensorType.Pseudorange3 2 5 = Ok (Some (2, 3))
  ∧ _FindBorders satellites_1233 SensorType.Pseudorange3 1 5 = Ok (Some (2, 3))
  ∧ ∀ k, k ∈ timestamps satellites_1233 SensorType.Pseudorange3 →
         (1 < k → 2 ≤ k) ∧ (k < 5 → k ≤ 3).
Proof.
  assert (wf satellites_1233) as Hwf by sample_wf.
  assert (_FindBorders satellites_1233 SensorType.Pseudorange3 1 5 = Ok (Some (2, 3)))
    as Hrun by (vm_compute; reflexivity).
  split; [exact Hwf|]. split; [vm_compute; reflexivity|]. split; [exact Hrun|].
  destruct (FindBorders_neighbours satellites_1233 SensorType.Pseudorange3 1 5 Hwf)
    as (_ & r & Hr & Hspec).
  rewrite Hrun in Hr. injection Hr as <-.
  destruct Hspec as (_ & _ & _ & _ & _ & Hall). exact Hall.
Defined.

Lemma main_too_few_arguments_witness :
  (length ["in.txt"; "out.txt"; "reserved"] < 4)%nat
  ∧ run sample_handler (main ["IV19_GNSS"; "in.txt"; "out.txt"; "reserved"]) tt
    = Raised [InitGoogleLogging "IV19_GNSS"].
Proof.
  assert (length ["in.txt"; "out.txt"; "reserved"] < 4)%nat as Hlen by (simpl; lia).
  split; [exact Hlen|].
  exact (main_too_few_arguments sample_handler "IV19_GNSS"
           ["in.txt"; "out.txt"; "reserved"] tt Hlen).
Defined.

Lemma TuneErrorModel_EM_starts_afresh_witness :
  TuningType (GNSS_ErrorModel (sample_Config "stsm")) = ErrorModelTuningType.EM
  ∧ ∃ w',
      run sample_handler
        (TuneErrorModel Graph (sample_Config "stsm") sample_Statics) tt
      = Returned sample_Statics w'
          [computeUnweightedError Graph FactorType.Pseudorange3_ECEF;
           estimate (initSpread 2 10) [2; 6]%float
             {| EstimationAlgorithm := ErrorModelTuningType.EM;
                RemoveSmallComponents := false;
                MergeSimiliarComponents := false;
                PriorWishartDOF := None |};
           setNewErrorModel Graph FactorType.Pseudorange3_ECEF
             (SumMix1 (removeOffset (initSpread 2 10)))].
Proof.
  assert (TuningType (GNSS_ErrorModel (sample_Config "stsm")) = ErrorModelTuningType.EM)
    as Hem by reflexivity.
  split; [exact Hem|].
  exact (TuneErrorModel_EM_starts_afresh sample_handler Graph (sample_Config "stsm")
           sample_Statics tt Hem).
Defined.

Lemma static_noise_model_is_frozen_witness :
  wf sample_input
  ∧ Type_ (GNSS_ErrorModel (sample_Config "stmm_vbi")) = ErrorModelType.GMM
  ∧ MixtureType (GNSS_ErrorModel (sample_Config "stmm_vbi"))
    = ErrorModelMixtureType.MaxMix
  ∧ NoisePseudorangeMaxMix sample_Statics = Some sample_GMMAdaptive
  ∧ ∃ st1 w1 trace1 st2 w2,
      run sample_handler
        (TuneErrorModel Graph (sample_Config "stmm_vbi") sample_Statics) tt
      = Returned st1 w1 trace1
      ∧ last trace1
        = Some (setNewErrorModel Graph FactorType.Pseudorange3_ECEF
                  (MaxMix1 (GMMAdaptive st1)))
      ∧ GMMAdaptive st1 ≠ sample_GMMAdaptive
      ∧ run sample_handler
          (AddPseudorangeMeasurements Graph sample_input (sample_Config "stmm_vbi")
             10 st1) w1
        = Returned st2 w2
            [addFactor Graph FactorType.Pseudorange3_ECEF
               [("Position", 10); ("ClockError", 10)] (Some [1%float])
               (MaxMix1 sample_GMMAdaptive) None;
             addFactor Graph FactorType.Pseudorange3_ECEF
               [("Position", 10); ("ClockError", 10)] (Some [2%float])
               (MaxMix1 sample_GMMAdaptive) None]
      ∧ NoisePseudorangeMaxMix st2 = Some sample_GMMAdaptive.
Proof.
  assert (wf sample_input) as Hwf by sample_wf.
  assert (Type_ (GNSS_ErrorModel (sample_Config "stmm_vbi")) = ErrorModelType.GMM)
    as Hgmm by reflexivity.
  assert (MixtureType (GNSS_ErrorModel (sample_Config "stmm_vbi"))
          = ErrorModelMixtureType.MaxMix) as Hmax by reflexivity.
  assert (NoisePseudorangeMaxMix sample_Statics = Some sample_GMMAdaptive)
    as Hstatic by reflexivity.
  split; [exact Hwf|]. split; [exact Hgmm|]. split; [exact Hmax|].
  split; [exact Hstatic|].
  destruct (static_noise_model_is_frozen (H:=sample_library) sample_handler Graph
              sample_input (sample_Config "stmm_vbi") 10 sample_GMMAdaptive
              sample_Statics tt Hwf)
    as (st1 & w1 & trace1 & Htune & Hadd & _); [vm_compute; reflexivity|exact Hgmm|].
  destruct (Hadd Hmax Hstatic) as (st2 & w2 & Hrun & Hst2).
  exists st1, w1, trace1, st2, w2.
  split; [exact Htune|].
  split; [vm_compute in Htune; injection Htune as <- <- <-; vm_compute; reflexivity|].
  split; [vm_compute in Htune; injection Htune as <- <- <-; vm_compute; discriminate|].
  split; [exact Hrun|exact Hst2].
Defined.

Lemma sample_input_small ID :
  Z.of_nat (length (stream sample_input ID)) < 2 ^ 31.
Proof. destruct ID; vm_compute; reflexivity. Qed.

Lemma sample_input_without_odometry_small ID :
  Z.of_nat (length (stream sample_input_without_odometry ID)) < 2 ^ 31.
Proof. destruct ID; vm_compute; reflexivity. Qed.

Lemma sample_Config_gauss_supported : supported (sample_Config "gauss").
Proof. left. reflexivity. Qed.

Lemma sample_Config_gauss_not_cDCE (P : Prop) :
  Type_ (GNSS_ErrorModel (sample_Config "gauss")) = ErrorModelType.cDCE → P.
Proof. intros Hty. vm_compute in Hty. discriminate Hty. Qed.

Lemma main_loop_records_every_timestamp_witness :
  wf sample_input
  ∧ elements_at sample_input SensorType.Pseudorange3 10 = [[1%float]; [2%float]]
  ∧ timestamps sample_input SensorType.Pseudorange3 = [10; 11]
  ∧ ∃ Result' w' trace,
      run sample_handler
        (main_loop 4 sample_input (sample_Config "gauss") sample_Options
           (GaussianDiagonal [1; 1; 1; 1]%float) (GaussianDiagonal [0.05; 0.01]%float)
           10 10 (DataSet_default StateData_default) Statics_initial) tt
      = Returned (Some Result') w' trace
      ∧ omap recorded_at trace = [11].
Proof.
  assert (wf sample_input) as Hwf by sample_wf.
  assert (elements_at sample_input SensorType.Pseudorange3 10 = [[1%float]; [2%float]])
    as Hat by (vm_compute; reflexivity).
  assert (timestamps sample_input SensorType.Pseudorange3 = [10; 11]) as Htimes
    by (vm_compute; reflexivity).
  split; [exact Hwf|]. split; [exact Hat|]. split; [exact Htimes|].
  destruct (main_loop_records_every_timestamp sample_handler 4 sample_input
              (sample_Config "gauss") sample_Options
              (GaussianDiagonal [1; 1; 1; 1]%float)
              (GaussianDiagonal [0.05; 0.01]%float)
              10 10 (DataSet_default StateData_default) Statics_initial tt
              Hwf sample_input_small sample_Config_gauss_supported
              (sample_Config_gauss_not_cDCE _))
    as (Result' & w' & trace & Hrun & Hrecorded).
  - intros Hnil. vm_compute in Hnil. discriminate Hnil.
  - vm_compute. lia.
  - exists Result', w', trace. split; [exact Hrun|].
    rewrite Hrecorded. vm_compute. reflexivity.
Defined.



Lemma main_estimation_short_odometry_is_undefined_witness :
  wf sample_input_without_odometry
  ∧ elements_at sample_input_without_odometry SensorType.Odom3 10 = []
  ∧ getStdDev (NullObject sample_input_without_odometry) = []
  ∧ ∃ trace,
      run sample_handler_without_odometry (main_estimation (sample_Config "gauss")) tt
      = Undefined_behaviour
          ([hardware_concurrency; ReadDataFromFile ""] ++ trace)
      ∧ omap recorded_at trace = [10]
      ∧ length trace = 16%nat
      ∧ Forall (λ e, ¬ reports_or_writes e)
          ([hardware_concurrency; ReadDataFromFile ""] ++ trace).
Proof.
  assert (wf sample_input_without_odometry) as Hwf by sample_wf.
  split; [exact Hwf|]. split; [vm_compute; reflexivity|].
  split; [vm_compute; reflexivity|].
  destruct (main_estimation_short_odometry_is_undefined sample_handler_without_odometry
              (sample_Config "gauss") tt
              Hwf sample_input_without_odometry_small sample_Config_gauss_supported
              (sample_Config_gauss_not_cDCE _))
    as (Result1 & st1 & w3 & trace & Hinit & Hrun & Hrecorded & Hquiet).
  - vm_compute. lia.
  - exists trace. split; [exact Hrun|].
    split; [rewrite Hrecorded; vm_compute; reflexivity|].
    split; [|exact Hquiet].
    vm_compute in Hinit. injection Hinit as _ _ _ <-. reflexivity.
Defined.

End MoreSamples.
